(** * Gaupol: editing subtitle data and converting tags

    A shallow embedding of [gaupol/base/delegates/edit.py] (class
    [EditDelegate]) and of [gaupol/base/tags/converter.py] (class
    [TagConverter]), with the properties of the written specification
    stated and proved over it, followed by further properties read off
    the code, among them of the pure methods of [gaupol/patternman.py]
    (class [PatternManager]).

    Conventions of the embedding:
    - a Python list is a [list]; [l[i]] is stdpp's lookup [l !! i], where
      [None] stands for the [IndexError] Python raises;
    - row indices are natural numbers (the rows of the subtitle list), so
      Python's negative indices are outside the model;
    - an operation that raises is modelled by the result [None]; an
      operation that completes returns [Some] of its result and of the
      project it leaves behind;
    - a time is the string the program stores (["HH:MM:SS,mmm"]), a frame
      is an integer; the position calculator ([self.calc]) and Python's
      floating point arithmetic are parameters of the development. *)

From Stdlib Require Import ZArith Lia Bool Ascii String Sorted Permutation.
From stdpp Require Import base list strings sorting sets gmap.

Local Open Scope Z_scope.
Local Open Scope nat_scope.

(* ===================================================================== *)
(** * Python lists *)
(* ===================================================================== *)

Module Py.

Section Lists.
Context {A : Type}.

(** [l.insert(i, x)]: an index beyond the end appends. *)
Definition insert (i : nat) (x : A) (l : list A) : list A :=
  take i l ++ x :: drop i l.

(** [l.pop(i)]: raises [IndexError] out of range. *)
Definition pop (i : nat) (l : list A) : option (A * list A) :=
  match l !! i with
  | Some x => Some (x, delete i l)
  | None => None
  end.

(** [l[:i] + l[i + 1:]] *)
Definition without (i : nat) (l : list A) : list A :=
  take i l ++ drop (S i) l.
End Lists.

(** [sorted(rows)] on a list of integers, as an insertion sort. *)
Fixpoint insert_sorted (x : nat) (l : list nat) : list nat :=
  match l with
  | [] => [x]
  | y :: l' => if x <=? y then x :: y :: l' else y :: insert_sorted x l'
  end.

Fixpoint sorted (l : list nat) : list nat :=
  match l with
  | [] => []
  | x :: l' => insert_sorted x (sorted l')
  end.

(** [min(rows)]: raises [ValueError] on an empty sequence. *)
Definition min (l : list nat) : option nat :=
  match l with
  | [] => None
  | x :: l' => Some (foldr Nat.min x l')
  end.

(** [max(rows)]: raises [ValueError] on an empty sequence. *)
Definition max (l : list nat) : option nat :=
  match l with
  | [] => None
  | x :: l' => Some (foldr Nat.max x l')
  end.

(** [range(a, b)] *)
Definition range (a b : nat) : list nat := seq a (b - a).

End Py.

(* ===================================================================== *)
(** * Columns and positions *)
(* ===================================================================== *)

(** The column constants [SHOW], [HIDE], [DURN] of [gaupol.base.colcons]
    index the three fields of a position. *)
Inductive Column := SHOW | HIDE | DURN.

#[global] Instance Column_eq_dec : EqDecision Column.
Proof. solve_decision. Defined.

(** A position is the three-element list [[show, hide, duration]]. *)
Record Position (A : Type) := mkPos { show : A; hide : A; durn : A }.
Arguments mkPos {A} _ _ _.
Arguments show {A} _.
Arguments hide {A} _.
Arguments durn {A} _.

Definition getcol {A} (p : Position A) (c : Column) : A :=
  match c with SHOW => show p | HIDE => hide p | DURN => durn p end.

Definition setcol {A} (p : Position A) (c : Column) (v : A) : Position A :=
  match c with
  | SHOW => mkPos v (hide p) (durn p)
  | HIDE => mkPos (show p) v (durn p)
  | DURN => mkPos (show p) (hide p) v
  end.

(** A time is a string, a frame an integer. *)
Abbreviation time := string (only parsing).
Abbreviation frame := Z (only parsing).

Inductive Mode := TIME | FRAME.
Inductive Document := MAIN | TRAN.
Inductive Register := DO | UNDO | REDO.

(* ===================================================================== *)
(** * Comparison of positions and [bisect.bisect_right] *)
(* ===================================================================== *)

(** Python compares two lists lexicographically, strings by code point
    and integers by value. *)
Definition lex3 {A} (ltb : A -> A -> bool) (p q : Position A) : bool :=
  if ltb (show p) (show q) then true
  else if ltb (show q) (show p) then false
  else if ltb (hide p) (hide q) then true
  else if ltb (hide q) (hide p) then false
  else ltb (durn p) (durn q).

Definition time_lt (p q : Position time) : bool := lex3 String.ltb p q.
Definition frame_lt (p q : Position frame) : bool := lex3 Z.ltb p q.

Section Bisect.
Context {A : Type} (ltb : A -> A -> bool).

(** The loop of [bisect_right]:
    [while lo < hi: mid = (lo+hi)//2; if x < a[mid]: hi = mid else: lo = mid+1].
    The first argument bounds the number of iterations; [hi - lo]
    iterations always suffice. *)
Fixpoint bisect_loop (n : nat) (a : list A) (x : A) (lo hi : nat) : nat :=
  match n with
  | O => lo
  | S n' =>
      if lo <? hi then
        let mid := (lo + hi) / 2 in
        match a !! mid with
        | Some y =>
            if ltb x y then bisect_loop n' a x lo mid
            else bisect_loop n' a x (mid + 1) hi
        | None => lo
        end
      else lo
  end.

Definition bisect_right (a : list A) (x : A) : nat :=
  bisect_loop (length a) a x 0 (length a).

(** The rightmost insertion point of [x] in [a]: every element before it
    is at most [x], every element from it on is greater than [x]. *)
Definition upper_bound (a : list A) (x : A) (k : nat) : Prop :=
  k <= length a /\
  (forall i y, i < k -> a !! i = Some y -> ltb x y = false) /\
  (forall i y, k <= i -> a !! i = Some y -> ltb x y = true).

(** [a] is in ascending order for [ltb]: no element is greater than a
    later one. *)
Definition ascending (a : list A) : Prop :=
  forall i j y z, i < j -> a !! i = Some y -> a !! j = Some z -> ltb z y = false.
End Bisect.

(* ===================================================================== *)
(** * The collaborators: Python numbers and the position calculator *)
(* ===================================================================== *)

(** Python's floating point numbers with the operations the editing code
    applies to them; [int_round x] is [int(round(x, 0))]. *)
Record FloatOps := {
  float : Type;
  float_of_int : Z -> float;
  fadd : float -> float -> float;
  fsub : float -> float -> float;
  fmul : float -> float -> float;
  fdiv : float -> float -> float;
  int_round : float -> Z
}.

(** A Python number is an [int] or a [float]; arithmetic on two [int]s
    stays in [int], anything else is carried out in [float]. *)
Inductive number (F : FloatOps) :=
| Int (z : Z)
| Float (x : float F).
Arguments Int {F} _.
Arguments Float {F} _.

Section Numbers.
Context {F : FloatOps}.

Definition to_float (a : number F) : float F :=
  match a with Int z => float_of_int F z | Float x => x end.

Definition num_add (a b : number F) : number F :=
  match a, b with
  | Int x, Int y => Int (x + y)%Z
  | _, _ => Float (fadd F (to_float a) (to_float b))
  end.

Definition num_sub (a b : number F) : number F :=
  match a, b with
  | Int x, Int y => Int (x - y)%Z
  | _, _ => Float (fsub F (to_float a) (to_float b))
  end.

Definition num_mul (a b : number F) : number F :=
  match a, b with
  | Int x, Int y => Int (x * y)%Z
  | _, _ => Float (fmul F (to_float a) (to_float b))
  end.
End Numbers.

(** The methods of [self.calc] used by the editing code, and the value
    [Framerate.values[self.framerate]] of the project's framerate. *)
Record Calculator (F : FloatOps) := {
  time_to_frame : time -> frame;
  frame_to_time : frame -> time;
  get_time_duration : time -> time -> time;
  get_frame_duration : frame -> frame -> frame;
  add_times : time -> time -> time;
  time_to_seconds : time -> number F;
  seconds_to_time : number F -> time;
  framerate_value : float F
}.
Arguments time_to_frame {F} _ _.
Arguments frame_to_time {F} _ _.
Arguments get_time_duration {F} _ _ _.
Arguments get_frame_duration {F} _ _ _.
Arguments add_times {F} _ _ _.
Arguments time_to_seconds {F} _ _.
Arguments seconds_to_time {F} _ _.
Arguments framerate_value {F} _.

(* ===================================================================== *)
(** * Revertable actions and the project *)
(* ===================================================================== *)

(** A revert method of the project together with its revert arguments. *)
Inductive Command :=
| Call_insert_subtitles (rows : list nat)
    (times : option (list (Position time)))
    (frames : option (list (Position frame)))
    (main_texts tran_texts : option (list string))
| Call_remove_subtitles (rows : list nat)
| Call_replace_both_texts (rows : list nat * list nat)
    (new_texts : list string * list string)
| Call_replace_texts (rows : list nat) (document : Document)
    (new_texts : list string)
| Call_set_frame (row : nat) (col : Column) (value : frame)
| Call_set_text (row : nat) (document : Document) (value : string)
| Call_set_time (row : nat) (col : Column) (value : time).

(** The keyword arguments of [register_action]. *)
Record RevertableAction := {
  register : Register;
  docs : list Document;
  description : string;
  revert : Command;
  inserted_rows : list nat;
  removed_rows : list nat;
  updated_rows : list nat;
  updated_positions : list nat;
  updated_main_texts : list nat;
  updated_tran_texts : list nat
}.

(** An item of the undo or redo stack: one action, or a group of actions
    reverted as one, most recent first. *)
Inductive Entry :=
| Single (a : RevertableAction)
| Group (label : string) (actions : list RevertableAction).

Record Project := {
  times : list (Position time);
  frames : list (Position frame);
  main_texts : list string;
  tran_texts : list string;
  main_file : option Mode;
  clipboard : list (option string);
  undoables : list Entry;
  redoables : list Entry;
  blocked : list Register
}.

Definition set_times v (p : Project) : Project :=
  {| times := v; frames := frames p; main_texts := main_texts p;
     tran_texts := tran_texts p; main_file := main_file p;
     clipboard := clipboard p; undoables := undoables p;
     redoables := redoables p; blocked := blocked p |}.

Definition set_frames v (p : Project) : Project :=
  {| times := times p; frames := v; main_texts := main_texts p;
     tran_texts := tran_texts p; main_file := main_file p;
     clipboard := clipboard p; undoables := undoables p;
     redoables := redoables p; blocked := blocked p |}.

Definition set_main_texts v (p : Project) : Project :=
  {| times := times p; frames := frames p; main_texts := v;
     tran_texts := tran_texts p; main_file := main_file p;
     clipboard := clipboard p; undoables := undoables p;
     redoables := redoables p; blocked := blocked p |}.

Definition set_tran_texts v (p : Project) : Project :=
  {| times := times p; frames := frames p; main_texts := main_texts p;
     tran_texts := v; main_file := main_file p;
     clipboard := clipboard p; undoables := undoables p;
     redoables := redoables p; blocked := blocked p |}.

Definition set_undoables v (p : Project) : Project :=
  {| times := times p; frames := frames p; main_texts := main_texts p;
     tran_texts := tran_texts p; main_file := main_file p;
     clipboard := clipboard p; undoables := v;
     redoables := redoables p; blocked := blocked p |}.

Definition set_redoables v (p : Project) : Project :=
  {| times := times p; frames := frames p; main_texts := main_texts p;
     tran_texts := tran_texts p; main_file := main_file p;
     clipboard := clipboard p; undoables := undoables p;
     redoables := v; blocked := blocked p |}.

Definition set_blocked v (p : Project) : Project :=
  {| times := times p; frames := frames p; main_texts := main_texts p;
     tran_texts := tran_texts p; main_file := main_file p;
     clipboard := clipboard p; undoables := undoables p;
     redoables := redoables p; blocked := v |}.

(** The four parallel arrays of a project. *)
Definition arrays (p : Project) :=
  (times p, frames p, main_texts p, tran_texts p).

Definition Register_eqb (a b : Register) : bool :=
  match a, b with
  | DO, DO | UNDO, UNDO | REDO, REDO => true
  | _, _ => false
  end.

Definition is_blocked (r : Register) (p : Project) : bool :=
  existsb (Register_eqb r) (blocked p).

(* ===================================================================== *)
(** * The action register *)
(* ===================================================================== *)

Module ActionRegister.

(** The stack a registered action is placed on: an action done or redone
    goes to the undo stack, an action undone goes to the redo stack. *)
Definition destination_stack (r : Register) (p : Project) : list Entry :=
  match r with
  | DO | REDO => undoables p
  | UNDO => redoables p
  end.

Definition set_destination_stack (r : Register) (v : list Entry)
    (p : Project) : Project :=
  match r with
  | DO | REDO => set_undoables v p
  | UNDO => set_redoables v p
  end.

(** Modelled from the spec: [register_action] of the action delegate, which
    is not among the sources. "Pushes a new action atop the undo stack;
    clears the redo stack unless the caller has explicitly suppressed
    signal emission for batched/grouped operations." An action registered
    while undoing is the action's "own emitted inverse" and is pushed on
    the redo stack; one registered while redoing is pushed back on the
    undo stack. *)
Definition register_action (a : RevertableAction) (p : Project) : Project :=
  match register a with
  | DO =>
      let p' := set_undoables (Single a :: undoables p) p in
      if is_blocked DO p then p' else set_redoables [] p'
  | UNDO => set_redoables (Single a :: redoables p) p
  | REDO => set_undoables (Single a :: undoables p) p
  end.

(** Modelled from the spec: [get_signal], [block] and [unblock] of the
    project, which are not among the sources; the signal of a register
    kind is identified with that kind, and blocking it suppresses its
    emission. *)
Definition get_signal (r : Register) : Register := r.

Definition block (signal : Register) (p : Project) : Project :=
  set_blocked (signal :: blocked p) p.

Definition unblock (signal : Register) (p : Project) : Project :=
  set_blocked (filter (fun s => Register_eqb signal s = false) (blocked p)) p.

Definition entry_actions (e : Entry) : list RevertableAction :=
  match e with
  | Single a => [a]
  | Group _ actions => actions
  end.

(** Modelled from the spec: [group_actions] of the action delegate.
    "Merge the top [n] actions on the undo stack into a single action
    whose description is the caller-supplied label and whose undo replays
    the [n] reverts in reverse order atomically." Fewer than [n] items on
    the stack is an error. *)
Definition group_actions (r : Register) (n : nat) (label : string)
    (p : Project) : option Project :=
  let stack := destination_stack r p in
  if n <=? length stack then
    Some (set_destination_stack r
            (Group label (concat (map entry_actions (take n stack)))
               :: drop n stack) p)
  else None.

Definition set_description (label : string) (a : RevertableAction) :=
  {| register := register a; docs := docs a; description := label;
     revert := revert a; inserted_rows := inserted_rows a;
     removed_rows := removed_rows a; updated_rows := updated_rows a;
     updated_positions := updated_positions a;
     updated_main_texts := updated_main_texts a;
     updated_tran_texts := updated_tran_texts a |}.

(** Modelled from the spec: [set_action_description] of the action
    delegate, which is not among the sources: it gives the most recently
    registered item its description. *)
Definition set_action_description (r : Register) (label : string)
    (p : Project) : option Project :=
  match destination_stack r p with
  | Single a :: rest =>
      Some (set_destination_stack r (Single (set_description label a) :: rest) p)
  | Group _ actions :: rest =>
      Some (set_destination_stack r (Group label actions :: rest) p)
  | [] => None
  end.

End ActionRegister.

(* ===================================================================== *)
(** * [EditDelegate]: editing subtitle data *)
(* ===================================================================== *)

Import ActionRegister.

Section EditDelegate.
Context {F : FloatOps} (calc : Calculator F).

(** [get_mode]: the main file's mode, time mode without a main file. *)
Definition get_mode (p : Project) : Mode :=
  match main_file p with
  | Some m => m
  | None => TIME
  end.

(** One pass of the loop of [_insert_blank] in time mode. *)
Definition blank_row_time (start duration : number F) (i : nat)
    : Position time * Position frame :=
  let show_time :=
    seconds_to_time calc (num_add start (num_mul (Int (Z.of_nat i)) duration)) in
  let hide_time :=
    seconds_to_time calc
      (num_add start (num_mul (Int (Z.of_nat i + 1)) duration)) in
  let durn_time := get_time_duration calc show_time hide_time in
  let show_frame := time_to_frame calc show_time in
  let hide_frame := time_to_frame calc hide_time in
  let durn_frame := get_frame_duration calc show_frame hide_frame in
  (mkPos show_time hide_time durn_time, mkPos show_frame hide_frame durn_frame).

(** One pass of the loop of [_insert_blank] in frame mode. *)
Definition blank_row_frame (start duration : Z) (i : nat)
    : Position time * Position frame :=
  let show_frame := (start + Z.of_nat i * duration)%Z in
  let hide_frame := (start + (Z.of_nat i + 1) * duration)%Z in
  let durn_frame := get_frame_duration calc show_frame hide_frame in
  let show_time := frame_to_time calc show_frame in
  let hide_time := frame_to_time calc hide_frame in
  let durn_time := get_time_duration calc show_time hide_time in
  (mkPos show_time hide_time durn_time, mkPos show_frame hide_frame durn_frame).

(** [for i in range(amount)]: insert the blank subtitle [blank i] at
    [start_row + i] in the four arrays. *)
Fixpoint insert_blank_loop (blank : nat -> Position time * Position frame)
    (start_row : nat) (range_ : list nat) (p : Project) : Project :=
  match range_ with
  | [] => p
  | i :: range_' =>
      let row := start_row + i in
      let p1 := set_times (Py.insert row (blank i).1 (times p)) p in
      let p2 := set_frames (Py.insert row (blank i).2 (frames p1)) p1 in
      let p3 := set_main_texts (Py.insert row EmptyString (main_texts p2)) p2 in
      let p4 := set_tran_texts (Py.insert row EmptyString (tran_texts p3)) p3 in
      insert_blank_loop blank start_row range_' p4
  end.

(** Optimal duration in seconds. *)
Definition opt_sec : Z := 3.

(** [_insert_blank]: insert blank subtitles; [rows] must be a single
    range. *)
Definition _insert_blank (rows : list nat) (p : Project) : option Project :=
  start_row ← Py.min rows;
  let amount := length rows in
  match get_mode p with
  | TIME =>
      start ←
        (if 0 <? start_row then
           pos ← times p !! (start_row - 1);
           Some (time_to_seconds calc (hide pos))
         else Some (Int 0%Z));
      duration ←
        (if start_row <? length (times p) then
           pos ← times p !! start_row;
           let end_ := time_to_seconds calc (show pos) in
           Some (Float (fdiv F (to_float (num_sub end_ start))
                               (float_of_int F (Z.of_nat amount))))
         else Some (Int opt_sec));
      Some (insert_blank_loop (blank_row_time start duration) start_row
              (seq 0 amount) p)
  | FRAME =>
      start ←
        (if 0 <? start_row then
           pos ← frames p !! (start_row - 1);
           Some (hide pos)
         else Some 0%Z);
      duration ←
        (if start_row <? length (times p) then
           pos ← frames p !! start_row;
           let end_ := show pos in
           Some ((end_ - start) / Z.of_nat amount)%Z
         else
           Some (int_round F (fmul F (framerate_value calc)
                                     (float_of_int F opt_sec))));
      Some (insert_blank_loop (blank_row_frame start duration) start_row
              (seq 0 amount) p)
  end.

(** [_insert_data]: [for i, row in enumerate(rows)], insert element [i]
    of each data sequence at [row]. The first argument is [i]. *)
Fixpoint _insert_data (i : nat) (rows : list nat)
    (new_times : list (Position time)) (new_frames : list (Position frame))
    (new_main_texts new_tran_texts : list string) (p : Project)
    : option Project :=
  match rows with
  | [] => Some p
  | row :: rows' =>
      t ← new_times !! i;
      let p1 := set_times (Py.insert row t (times p)) p in
      f ← new_frames !! i;
      let p2 := set_frames (Py.insert row f (frames p1)) p1 in
      m ← new_main_texts !! i;
      let p3 := set_main_texts (Py.insert row m (main_texts p2)) p2 in
      tr ← new_tran_texts !! i;
      let p4 := set_tran_texts (Py.insert row tr (tran_texts p3)) p3 in
      _insert_data (S i) rows' new_times new_frames new_main_texts
        new_tran_texts p4
  end.

(** [insert_subtitles] *)
Definition insert_subtitles (rows : list nat)
    (new_times : option (list (Position time)))
    (new_frames : option (list (Position frame)))
    (new_main_texts new_tran_texts : option (list string))
    (reg : Register) (p : Project) : option Project :=
  let rows := Py.sorted rows in
  p' ← match new_times, new_frames, new_main_texts, new_tran_texts with
       | Some t, Some f, Some m, Some tr => _insert_data 0 rows t f m tr p
       | _, _, _, _ => _insert_blank rows p
       end;
  Some (register_action
          {| register := reg;
             docs := [MAIN; TRAN];
             description := "Inserting subtitles";
             revert := Call_remove_subtitles rows;
             inserted_rows := rows;
             removed_rows := [];
             updated_rows := [];
             updated_positions := [];
             updated_main_texts := [];
             updated_tran_texts := [] |} p').

(** The data removed so far by [remove_subtitles]. *)
Definition Removed : Type :=
  list (Position time) * list (Position frame) * list string * list string.

(** [for row in reversed(rows)]: pop [row] from each array and put the
    popped value first in the removed data. *)
Fixpoint remove_loop (rows : list nat) (acc : Removed) (p : Project)
    : option (Removed * Project) :=
  match rows with
  | [] => Some (acc, p)
  | row :: rows' =>
      let '(ts, fs, ms, trs) := acc in
      '(t, l) ← Py.pop row (times p);
      let p1 := set_times l p in
      '(f, l) ← Py.pop row (frames p1);
      let p2 := set_frames l p1 in
      '(m, l) ← Py.pop row (main_texts p2);
      let p3 := set_main_texts l p2 in
      '(tr, l) ← Py.pop row (tran_texts p3);
      let p4 := set_tran_texts l p3 in
      remove_loop rows' (t :: ts, f :: fs, m :: ms, tr :: trs) p4
  end.

(** [remove_subtitles] *)
Definition remove_subtitles (rows : list nat) (reg : Register) (p : Project)
    : option Project :=
  let rows := Py.sorted rows in
  '(ts, fs, ms, trs, p') ← remove_loop (reverse rows) ([], [], [], []) p;
  Some (register_action
          {| register := reg;
             docs := [MAIN; TRAN];
             description := "Removing subtitles";
             revert := Call_insert_subtitles rows (Some ts) (Some fs)
                         (Some ms) (Some trs);
             inserted_rows := [];
             removed_rows := rows;
             updated_rows := [];
             updated_positions := [];
             updated_main_texts := [];
             updated_tran_texts := [] |} p').

(** [for i, row in enumerate(rows): orig_texts.append(texts[row]);
    texts[row] = new_texts[i]]. The first argument is [i]; the result is
    the original texts, in the order of [rows], and the new array. *)
Fixpoint replace_loop (i : nat) (rows : list nat) (new_texts : list string)
    (texts : list string) : option (list string * list string) :=
  match rows with
  | [] => Some ([], texts)
  | row :: rows' =>
      orig ← texts !! row;
      new ← new_texts !! i;
      '(origs, texts') ← replace_loop (S i) rows' new_texts (<[row := new]> texts);
      Some (orig :: origs, texts')
  end.

(** [replace_both_texts] *)
Definition replace_both_texts (rows : list nat * list nat)
    (new_texts : list string * list string) (reg : Register) (p : Project)
    : option Project :=
  let main_rows := rows.1 in
  let tran_rows := rows.2 in
  '(orig_main_texts, l) ← replace_loop 0 main_rows new_texts.1 (main_texts p);
  let p1 := set_main_texts l p in
  '(orig_tran_texts, l) ← replace_loop 0 tran_rows new_texts.2 (tran_texts p1);
  let p2 := set_tran_texts l p1 in
  Some (register_action
          {| register := reg;
             docs := [MAIN; TRAN];
             description := "Replacing texts";
             revert := Call_replace_both_texts rows
                         (orig_main_texts, orig_tran_texts);
             inserted_rows := [];
             removed_rows := [];
             updated_rows := [];
             updated_positions := [];
             updated_main_texts := main_rows;
             updated_tran_texts := tran_rows |} p2).

(** [replace_texts] *)
Definition replace_texts (rows : list nat) (document : Document)
    (new_texts : list string) (reg : Register) (p : Project)
    : option Project :=
  '(orig_texts, p') ←
    match document with
    | MAIN =>
        '(origs, l) ← replace_loop 0 rows new_texts (main_texts p);
        Some (origs, set_main_texts l p)
    | TRAN =>
        '(origs, l) ← replace_loop 0 rows new_texts (tran_texts p);
        Some (origs, set_tran_texts l p)
    end;
  Some (register_action
          {| register := reg;
             docs := [document];
             description := "Replacing texts";
             revert := Call_replace_texts rows document orig_texts;
             inserted_rows := [];
             removed_rows := [];
             updated_rows := [];
             updated_positions := [];
             updated_main_texts :=
               match document with MAIN => rows | TRAN => [] end;
             updated_tran_texts :=
               match document with MAIN => [] | TRAN => rows end |} p').

(** [set_durations]: set durations for [row] based on shows and hides. *)
Definition set_durations (row : nat) (p : Project) : option Project :=
  t ← times p !! row;
  let p1 :=
    set_times
      (<[row := setcol t DURN (get_time_duration calc (show t) (hide t))]>
         (times p)) p in
  f ← frames p1 !! row;
  Some (set_frames
          (<[row := setcol f DURN (get_frame_duration calc (show f) (hide f))]>
             (frames p1)) p1).

(** [set_hides]: set hides for [row] based on shows and durations. *)
Definition set_hides (row : nat) (p : Project) : option Project :=
  t ← times p !! row;
  let p1 :=
    set_times
      (<[row := setcol t HIDE (add_times calc (show t) (durn t))]> (times p))
      p in
  f ← frames p1 !! row;
  Some (set_frames
          (<[row := setcol f HIDE (show f + durn f)%Z]> (frames p1)) p1).

(** [entry.insert(new_row, entry.pop(row))] *)
Definition move {A} (row new_row : nat) (entry : list A) : option (list A) :=
  '(x, l) ← Py.pop row entry;
  Some (Py.insert new_row x l).

(** [_sort_data]: sort data after the show value in [row] has changed;
    return the new index of the row. *)
Definition _sort_data (row : nat) (p : Project) : option (nat * Project) :=
  new_row ←
    match get_mode p with
    | TIME =>
        item ← times p !! row;
        Some (bisect_right time_lt (Py.without row (times p)) item)
    | FRAME =>
        item ← frames p !! row;
        Some (bisect_right frame_lt (Py.without row (frames p)) item)
    end;
  if new_row =? row then Some (new_row, p)
  else
    l ← move row new_row (times p);
    let p1 := set_times l p in
    l ← move row new_row (frames p1);
    let p2 := set_frames l p1 in
    l ← move row new_row (main_texts p2);
    let p3 := set_main_texts l p2 in
    l ← move row new_row (tran_texts p3);
    let p4 := set_tran_texts l p3 in
    Some (new_row, p4).

(** [set_frame]: set frame; return the new index of the row. *)
Definition set_frame (row : nat) (col : Column) (value : frame)
    (reg : Register) (p : Project) : option (nat * Project) :=
  f ← frames p !! row;
  if (value =? getcol f col)%Z then Some (row, p)
  else
    (* Avoid rounding errors by mode-dependent revert. *)
    revert_call ←
      match get_mode p with
      | TIME =>
          t ← times p !! row;
          Some (fun r => Call_set_time r col (getcol t col))
      | FRAME => Some (fun r => Call_set_frame r col (getcol f col))
      end;
    let p1 := set_frames (<[row := setcol f col value]> (frames p)) p in
    t ← times p1 !! row;
    let p2 :=
      set_times (<[row := setcol t col (frame_to_time calc value)]> (times p1))
        p1 in
    (* Calculate affected data. *)
    p3 ← match col with
         | SHOW | HIDE => set_durations row p2
         | DURN => set_hides row p2
         end;
    (* Resort if show frame changed. *)
    '(updated_rows_, updated_positions_, revert_row, p4) ←
      match col with
      | SHOW =>
          '(new_row, p4) ← _sort_data row p3;
          if new_row =? row then Some ([], [row], row, p4)
          else
            let first_row := Nat.min row new_row in
            let last_row := Nat.max row new_row in
            Some (Py.range first_row (last_row + 1), [], new_row, p4)
      | _ => Some ([], [row], row, p3)
      end;
    Some (revert_row,
          register_action
            {| register := reg;
               docs := [MAIN];
               description := "Editing frame";
               revert := revert_call revert_row;
               inserted_rows := [];
               removed_rows := [];
               updated_rows := updated_rows_;
               updated_positions := updated_positions_;
               updated_main_texts := [];
               updated_tran_texts := [] |} p4).

(** [set_time]: set time; return the new index of the row. *)
Definition set_time (row : nat) (col : Column) (value : time)
    (reg : Register) (p : Project) : option (nat * Project) :=
  t ← times p !! row;
  if String.eqb value (getcol t col) then Some (row, p)
  else
    (* Avoid rounding errors by mode-dependent revert. *)
    revert_call ←
      match get_mode p with
      | TIME => Some (fun r => Call_set_time r col (getcol t col))
      | FRAME =>
          f ← frames p !! row;
          Some (fun r => Call_set_frame r col (getcol f col))
      end;
    let p1 := set_times (<[row := setcol t col value]> (times p)) p in
    f ← frames p1 !! row;
    let p2 :=
      set_frames (<[row := setcol f col (time_to_frame calc value)]> (frames p1))
        p1 in
    (* Calculate affected data. *)
    p3 ← match col with
         | SHOW | HIDE => set_durations row p2
         | DURN => set_hides row p2
         end;
    (* Resort if show frame changed. *)
    '(updated_rows_, updated_positions_, revert_row, p4) ←
      match col with
      | SHOW =>
          '(new_row, p4) ← _sort_data row p3;
          if new_row =? row then Some ([], [row], row, p4)
          else
            let first_row := Nat.min row new_row in
            let last_row := Nat.max row new_row in
            Some (Py.range first_row (last_row + 1), [], new_row, p4)
      | _ => Some ([], [row], row, p3)
      end;
    Some (revert_row,
          register_action
            {| register := reg;
               docs := [MAIN];
               description := "Editing time";
               revert := revert_call revert_row;
               inserted_rows := [];
               removed_rows := [];
               updated_rows := updated_rows_;
               updated_positions := updated_positions_;
               updated_main_texts := [];
               updated_tran_texts := [] |} p4).

(** [set_text] *)
Definition set_text (row : nat) (document : Document) (value : string)
    (reg : Register) (p : Project) : option Project :=
  '(orig_value, p') ←
    match document with
    | MAIN =>
        orig ← main_texts p !! row;
        Some (orig, set_main_texts (<[row := value]> (main_texts p)) p)
    | TRAN =>
        orig ← tran_texts p !! row;
        Some (orig, set_tran_texts (<[row := value]> (tran_texts p)) p)
    end;
  if String.eqb value orig_value then Some p'
  else
    Some (register_action
            {| register := reg;
               docs := [document];
               description := "Editing text";
               revert := Call_set_text row document orig_value;
               inserted_rows := [];
               removed_rows := [];
               updated_rows := [];
               updated_positions := [];
               updated_main_texts :=
                 match document with MAIN => [row] | TRAN => [] end;
               updated_tran_texts :=
                 match document with MAIN => [] | TRAN => [row] end |} p').

(** [for i, value in enumerate(data): if value is not None:
    rows.append(start_row + i); new_texts.append(value)]. The first
    argument is [i]. *)
Fixpoint pasted (i : nat) (start_row : nat) (data : list (option string))
    : list nat * list string :=
  match data with
  | [] => ([], [])
  | value :: data' =>
      let '(rows, new_texts) := pasted (S i) start_row data' in
      match value with
      | Some v => (start_row + i :: rows, v :: new_texts)
      | None => (rows, new_texts)
      end
  end.

(** [paste_texts]: paste texts from the clipboard; return the rows that
    were pasted into. *)
Definition paste_texts (start_row : nat) (document : Document)
    (reg : Register) (p : Project) : option (list nat * Project) :=
  let data := clipboard p in
  (* Add rows if needed. *)
  let current_length := length (times p) in
  let amount :=
    (Z.of_nat (length data)
     - (Z.of_nat current_length - Z.of_nat start_row))%Z in
  let signal := get_signal reg in
  p1 ← (if (0 <? amount)%Z then
          let rows :=
            Py.range current_length (current_length + Z.to_nat amount) in
          insert_subtitles rows None None None None reg (block signal p)
        else Some p);
  let '(rows, new_texts) := pasted 0 start_row data in
  p2 ← replace_texts rows document new_texts reg p1;
  (* Group actions if needed. *)
  let label : string := "Pasting texts" in
  p3 ← (if (0 <? amount)%Z then group_actions reg 2 label (unblock signal p2)
        else set_action_description reg label p2);
  Some (rows, p3).

(* ------------------------------------------------------------------- *)
(** ** Undoing and redoing *)
(* ------------------------------------------------------------------- *)

(** Call the revert method on its revert arguments, with [register=reg]. *)
Definition run_command (c : Command) (reg : Register) (p : Project)
    : option Project :=
  match c with
  | Call_insert_subtitles rows t f m tr => insert_subtitles rows t f m tr reg p
  | Call_remove_subtitles rows => remove_subtitles rows reg p
  | Call_replace_both_texts rows new_texts =>
      replace_both_texts rows new_texts reg p
  | Call_replace_texts rows document new_texts =>
      replace_texts rows document new_texts reg p
  | Call_set_frame row col value => snd <$> set_frame row col value reg p
  | Call_set_text row document value => set_text row document value reg p
  | Call_set_time row col value => snd <$> set_time row col value reg p
  end.

(** The reverts of the actions of one stack item, most recent first. *)
Fixpoint revert_actions (actions : list RevertableAction) (reg : Register)
    (p : Project) : option Project :=
  match actions with
  | [] => Some p
  | a :: actions' =>
      p' ← run_command (revert a) reg p;
      revert_actions actions' reg p'
  end.

(** Revert one stack item: a single action registers its own inverse on
    the other stack; the inverses of a group are grouped again under the
    same label. *)
Definition revert_entry (e : Entry) (reg : Register) (p : Project)
    : option Project :=
  match e with
  | Single a => run_command (revert a) reg p
  | Group label actions =>
      p' ← revert_actions actions reg p;
      group_actions reg (length actions) label p'
  end.

(** Modelled from the spec: [undo] of the action delegate, which is not
    among the sources. It pops the top undo action and invokes its revert
    operation on its revert arguments, "which is itself one of
    PositionStore's mutating operations and therefore registers a fresh
    action"; the action is "consumed (and replaced by its own emitted
    inverse) on undo", the inverse landing on the redo stack. On an empty
    stack it "is a no-op (not an error)". *)
Definition undo (p : Project) : option Project :=
  match undoables p with
  | [] => Some p
  | e :: rest => revert_entry e UNDO (set_undoables rest p)
  end.

(** Modelled from the spec: [redo] of the action delegate, which is not
    among the sources. "Symmetric pop from redo stack, re-invoke, push
    back to undo stack." *)
Definition redo (p : Project) : option Project :=
  match redoables p with
  | [] => Some p
  | e :: rest => revert_entry e REDO (set_redoables rest p)
  end.

End EditDelegate.

(* ------------------------------------------------------------------- *)
(** ** The clipboard and the query for a resort *)
(* ------------------------------------------------------------------- *)

Definition set_clipboard v (p : Project) : Project :=
  {| times := times p; frames := frames p; main_texts := main_texts p;
     tran_texts := tran_texts p; main_file := main_file p;
     clipboard := v; undoables := undoables p;
     redoables := redoables p; blocked := blocked p |}.

(** [clear_texts]: replace the texts of [rows] by empty texts. *)
Definition clear_texts (rows : list nat) (document : Document)
    (reg : Register) (p : Project) : option Project :=
  let new_texts := replicate (length rows) EmptyString in
  p1 ← replace_texts rows document new_texts reg p;
  set_action_description reg "Clearing texts" p1.

(** [for row in range(start_row, end_row + 1): if row in rows:
    data.append(texts[row]) else: data.append(None)] *)
Fixpoint copy_loop (range_ : list nat) (rows : list nat) (texts : list string)
    : option (list (option string)) :=
  match range_ with
  | [] => Some []
  | row :: range_' =>
      value ← (if bool_decide (row ∈ rows) then
                 text ← texts !! row;
                 Some (Some text)
               else Some None);
      data ← copy_loop range_' rows texts;
      Some (value :: data)
  end.

(** [copy_texts]: copy texts to the clipboard. *)
Definition copy_texts (rows : list nat) (document : Document) (p : Project)
    : option Project :=
  start_row ← Py.min rows;
  end_row ← Py.max rows;
  let texts :=
    match document with MAIN => main_texts p | TRAN => tran_texts p end in
  data ← copy_loop (Py.range start_row (end_row + 1)) rows texts;
  Some (set_clipboard data p).

(** [cut_texts]: cut texts to the clipboard. *)
Definition cut_texts (rows : list nat) (document : Document) (reg : Register)
    (p : Project) : option Project :=
  p1 ← copy_texts rows document p;
  p2 ← clear_texts rows document reg p1;
  set_action_description reg "Cutting texts" p2.

(** What [get_positions] returns: the times or the frames. *)
Inductive Positions :=
| Times (l : list (Position time))
| Frames (l : list (Position frame)).

(** [get_positions]: either times or frames depending on the main file's
    mode. *)
Definition get_positions (p : Project) : Positions :=
  match get_mode p with
  | TIME => Times (times p)
  | FRAME => Frames (frames p)
  end.

Section NeedsResort.
Context {F : FloatOps} (calc : Calculator F).
(** Python's [int] on a string: [None] stands for the [ValueError] it
    raises on a string that is not an integer literal, as a time is. *)
Context (py_int : string -> option Z).

(** [int(show_value)] on a show value that is a frame or a time: the
    integer, or the [ValueError] with the string that caused it. *)
Definition int_of_show_value (show_value : Z + string) : Z + string :=
  match show_value with
  | inl z => inl z
  | inr s =>
      match py_int s with
      | Some z => inl z
      | None => inr s
      end
  end.

(** [get_needs_resort]: whether rows need resorting after changing the
    show value of [row] to [show_value]. *)
Definition get_needs_resort (row : nat) (show_value : Z + string)
    (p : Project) : option bool :=
  match get_positions p with
  | Times positions =>
      (* Convert show_value to same type as mode. *)
      let show_value :=
        match int_of_show_value show_value with
        | inr s => s
        | inl z => frame_to_time calc z
        end in
      (* Get new row. *)
      let lst := Py.without row positions in
      pos ← positions !! row;
      let item := mkPos show_value (hide pos) (durn pos) in
      let new_row := bisect_right time_lt lst item in
      Some (negb (new_row =? row))
  | Frames positions =>
      let show_value :=
        match int_of_show_value show_value with
        | inr s => time_to_frame calc s
        | inl z => z
        end in
      let lst := Py.without row positions in
      pos ← positions !! row;
      let item := mkPos show_value (hide pos) (durn pos) in
      let new_row := bisect_right frame_lt lst item in
      Some (negb (new_row =? row))
  end.
End NeedsResort.

(* ===================================================================== *)
(** * [TagConverter]: conversions between tags of subtitle formats *)
(* ===================================================================== *)

Module Tags.

Section TagConverter.
(** Python's [re] module: patterns, flags, compiled expressions and
    [regex.sub(repl, text)]. *)
Context {pattern flags regex : Type}.
Context (re_compile : pattern -> flags -> regex).
Context (re_sub : regex -> string -> string -> string).

(** An entry of [decode_tags] or [encode_tags]: a tuple
    [(pattern, flags, replacement)] or
    [(pattern, flags, replacement, count)]. *)
Record TagEntry := {
  entry_pattern : pattern;
  entry_flags : flags;
  entry_repl : string;
  entry_count : option Z
}.

(** A tag library class of [gaupol.base.tags.classes]. *)
Record TagLibrary := {
  decode_tags : list TagEntry;
  encode_tags : list TagEntry;
  pre_decode : string -> string;
  post_decode : string -> string;
  pre_encode : string -> string;
  post_encode : string -> string
}.

Record TagConverter := {
  _from_regexs : list (regex * string * Z);
  _to_regexs : list (regex * string * Z);
  _pre_decode : string -> string;
  _post_decode : string -> string;
  _pre_encode : string -> string;
  _post_encode : string -> string
}.

(** Compile regular expressions: [count = entry[COUNT]], or [1] when the
    entry has no fourth element. *)
Fixpoint compile_entries (tags : list TagEntry) : list (regex * string * Z) :=
  match tags with
  | [] => []
  | entry :: tags' =>
      let regex_ := re_compile (entry_pattern entry) (entry_flags entry) in
      let count := match entry_count entry with Some c => c | None => 1%Z end in
      (regex_, entry_repl entry, count) :: compile_entries tags'
  end.

(** [TagConverter.__init__]; the two arguments are the classes that
    [eval] finds for the names of the two formats. *)
Definition __init__ (from_format to_format : TagLibrary) : TagConverter :=
  {| _from_regexs := compile_entries (decode_tags from_format);
     _to_regexs := compile_entries (encode_tags to_format);
     _pre_decode := pre_decode from_format;
     _post_decode := post_decode from_format;
     _pre_encode := pre_encode to_format;
     _post_encode := post_encode to_format |}.

(** [for i in range(count): text = regex.sub(repl, text)] *)
Fixpoint sub_loop (range_ : list nat) (regex_ : regex) (repl : string)
    (text : string) : string :=
  match range_ with
  | [] => text
  | _ :: range_' => sub_loop range_' regex_ repl (re_sub regex_ repl text)
  end.

(** [for entry in regexs: ...] *)
Fixpoint regexs_loop (regexs : list (regex * string * Z)) (text : string)
    : string :=
  match regexs with
  | [] => text
  | (regex_, repl, count) :: regexs' =>
      regexs_loop regexs' (sub_loop (seq 0 (Z.to_nat count)) regex_ repl text)
  end.

(** [convert_tags]: convert subtitle tags in [text]; an absent text is
    [None]. *)
Definition convert_tags (self : TagConverter) (text : option string)
    : option string :=
  match text with
  | None => None
  | Some EmptyString => Some EmptyString
  | Some text =>
      (* Convert to internal format ("decode"). *)
      let text := _pre_decode self text in
      let text := regexs_loop (_from_regexs self) text in
      let text := _post_decode self text in
      (* Convert to desired format ("encode"). *)
      let text := _pre_encode self text in
      let text := regexs_loop (_to_regexs self) text in
      let text := _post_encode self text in
      Some text
  end.

(** ** The conversion as the specification words it *)

(** One rewrite rule: its substitution applied repeat-count times, once
    when the rule gives no count. *)
Definition spec_rule (rule : TagEntry) : string -> string :=
  let count := match entry_count rule with Some c => Z.to_nat c | None => 1 end in
  Nat.iter count
    (re_sub (re_compile (entry_pattern rule) (entry_flags rule))
       (entry_repl rule)).

(** A pipeline: its rules in list order. *)
Fixpoint spec_pipeline (rules : list TagEntry) : string -> string :=
  match rules with
  | [] => fun text => text
  | rule :: rules' => fun text => spec_pipeline rules' (spec_rule rule text)
  end.

(** pre_decode, decode pipeline, post_decode, pre_encode, encode
    pipeline, post_encode. *)
Definition spec_convert (from_format to_format : TagLibrary) (text : string)
    : string :=
  post_encode to_format
    (spec_pipeline (encode_tags to_format)
       (pre_encode to_format
          (post_decode from_format
             (spec_pipeline (decode_tags from_format)
                (pre_decode from_format text))))).
End TagConverter.

End Tags.

(* ===================================================================== *)
(** * [PatternManager]: patterns for a script, a language and a country *)
(* ===================================================================== *)

Section PatternManager.
(** The patterns of [gaupol.Pattern] enter through the two methods the
    manager calls on them: [get_name(localize)] and [get_field(name)],
    whose value is a string, or [None] for anything else. *)
Context {Pattern : Type}.
Context (get_name : Pattern -> bool -> string).
Context (get_field : Pattern -> string -> option string).

(** [for j in range(i + 1, len(patterns))]: look for a later pattern of
    the same name whose policy is ['Replace']. *)
Fixpoint replacement_loop (name : string) (later : list Pattern)
    (replacement_found : bool) : bool :=
  match later with
  | [] => replacement_found
  | pattern_j :: later' =>
      let j_name := get_name pattern_j false in
      let j_policy := get_field pattern_j "Policy" in
      replacement_loop name later'
        (if String.eqb j_name name
            && bool_decide (j_policy = Some "Replace"%string)
         then true else replacement_found)
  end.

(** [_filter_patterns]: patterns with name-clashes resolved. *)
Fixpoint _filter_patterns (patterns : list Pattern) : list Pattern :=
  match patterns with
  | [] => []
  | pattern :: later =>
      let name := get_name pattern false in
      if replacement_loop name later false then _filter_patterns later
      else pattern :: _filter_patterns later
  end.

(** Python's ["%s" % value] for a string or [None]. *)
Definition percent_s (value : option string) : string :=
  match value with
  | Some s => s
  | None => "None"
  end.

(** [_get_codes]: all codes to be used by the arguments, ["Zyyy"] first
    and the most specific one last; the result [None] stands for the
    [UnboundLocalError] of a country given without a language. *)
Definition _get_codes (script language country : option string)
    : option (list string) :=
  let codes := ["Zyyy"%string] in
  let codes :=
    match script with Some s => codes ++ [s] | None => codes end in
  let '(codes, code) :=
    match language with
    | Some l =>
        let code := (percent_s script ++ "-" ++ l)%string in
        (codes ++ [code], Some code)
    | None => (codes, None)
    end in
  match country with
  | Some c =>
      code ← code;
      Some (codes ++ [(code ++ "-" ++ c)%string])
  | None => Some codes
  end.

(** [for code in codes: for pattern in self._patterns.get(code, []):
    patterns.append(pattern)] *)
Fixpoint patterns_loop (_patterns : gmap string (list Pattern))
    (codes : list string) : list Pattern :=
  match codes with
  | [] => []
  | code :: codes' =>
      default [] (_patterns !! code) ++ patterns_loop _patterns codes'
  end.

(** [get_patterns]: the patterns for script, language and country. *)
Definition get_patterns (_patterns : gmap string (list Pattern))
    (script language country : option string) : option (list Pattern) :=
  codes ← _get_codes script language country;
  Some (_filter_patterns (patterns_loop _patterns codes)).
End PatternManager.

(* ===================================================================== *)
(** * A reference calculator *)
(* ===================================================================== *)

(** The editing code is parametric in the calculator. To run it on
    concrete documents the development uses this calculator for 25 frames
    per second: times are ["HH:MM:SS,mmm"] strings, a frame lasts 40
    milliseconds, and a float is a fixed-point number of milliseconds. *)
Module Clock25.

Definition digit (c : ascii) : Z := Z.of_N (N_of_ascii c) - 48.

Definition digit_char (d : Z) : ascii := ascii_of_N (Z.to_N (d mod 10 + 48)).

(** Milliseconds of a time string. *)
Definition ms_of_time (t : time) : Z :=
  match list_ascii_of_string t with
  | [h1; h2; _; m1; m2; _; s1; s2; _; k1; k2; k3] =>
      (((digit h1 * 10 + digit h2) * 60 + (digit m1 * 10 + digit m2)) * 60
       + (digit s1 * 10 + digit s2)) * 1000
      + (digit k1 * 100 + digit k2 * 10 + digit k3)
  | _ => 0
  end%Z.

(** The time string of a number of milliseconds. *)
Definition time_of_ms (ms : Z) : time :=
  let ms := Z.max 0 ms in
  let k := (ms mod 1000)%Z in
  let s := (ms / 1000 mod 60)%Z in
  let m := (ms / 60000 mod 60)%Z in
  let h := (ms / 3600000)%Z in
  string_of_list_ascii
    [digit_char (h / 10); digit_char h; ":"%char;
     digit_char (m / 10); digit_char m; ":"%char;
     digit_char (s / 10); digit_char s; ","%char;
     digit_char (k / 100); digit_char (k / 10); digit_char k].

Definition fixed : FloatOps :=
  {| float := Z;
     float_of_int := fun z => (z * 1000)%Z;
     fadd := Z.add;
     fsub := Z.sub;
     fmul := fun a b => (a * b / 1000)%Z;
     fdiv := fun a b => (a * 1000 / b)%Z;
     int_round := fun a => ((a + 500) / 1000)%Z |}.

Definition calc : Calculator fixed :=
  {| time_to_frame := fun t => ((ms_of_time t + 20) / 40)%Z;
     frame_to_time := fun f => time_of_ms (f * 40);
     get_time_duration := fun s h => time_of_ms (ms_of_time h - ms_of_time s);
     get_frame_duration := fun s h => (h - s)%Z;
     add_times := fun a b => time_of_ms (ms_of_time a + ms_of_time b);
     time_to_seconds := fun t => Float (ms_of_time t : float fixed);
     seconds_to_time := fun n => time_of_ms (to_float n);
     framerate_value := 25000%Z |}.

End Clock25.

(* ===================================================================== *)
(** * Notions used by the properties *)
(* ===================================================================== *)

(** A comparison [ltb] that is a strict total order. *)
Record StrictTotal {A} (ltb : A -> A -> bool) : Prop := {
  st_irrefl : forall x, ltb x x = false;
  st_trans : forall x y z, ltb x y = true -> ltb y z = true -> ltb x z = true;
  st_total : forall x y, ltb x y = false -> ltb y x = false -> x = y
}.

(** The statements [set_frame] and [set_time] have in common, after the
    two positions have been written: calculate the affected data, resort
    if the show value changed, register the action and return the new
    index of the row. [revert_call] is the mode-dependent revert method
    with the column and the original value, still waiting for its row. *)
Definition finish_position_edit {F : FloatOps} (calc : Calculator F)
    (label : string) (row : nat) (col : Column)
    (revert_call : nat -> Command) (reg : Register) (p : Project)
    : option (nat * Project) :=
  p1 ← match col with
       | SHOW | HIDE => set_durations calc row p
       | DURN => set_hides calc row p
       end;
  '(updated_rows_, updated_positions_, revert_row, p2) ←
    match col with
    | SHOW =>
        '(new_row, p2) ← _sort_data row p1;
        if new_row =? row then Some ([], [row], row, p2)
        else
          let first_row := Nat.min row new_row in
          let last_row := Nat.max row new_row in
          Some (Py.range first_row (last_row + 1), [], new_row, p2)
    | _ => Some ([], [row], row, p1)
    end;
  Some (revert_row,
        register_action
          {| register := reg;
             docs := [MAIN];
             description := label;
             revert := revert_call revert_row;
             inserted_rows := [];
             removed_rows := [];
             updated_rows := updated_rows_;
             updated_positions := updated_positions_;
             updated_main_texts := [];
             updated_tran_texts := [] |} p2).

(** INV-4: the four arrays have the same length. *)
Definition parallel (p : Project) : Prop :=
  length (frames p) = length (times p) /\
  length (main_texts p) = length (times p) /\
  length (tran_texts p) = length (times p).

Section RowViews.
Context {F : FloatOps} (calc : Calculator F).

(** What [set_durations] and [set_hides] do to the two positions of one
    row. *)
Definition dependents (col : Column) (t : Position time) (f : Position frame)
    : Position time * Position frame :=
  match col with
  | SHOW | HIDE =>
      (setcol t DURN (get_time_duration calc (show t) (hide t)),
       setcol f DURN (get_frame_duration calc (show f) (hide f)))
  | DURN =>
      (setcol t HIDE (add_times calc (show t) (durn t)),
       setcol f HIDE (show f + durn f)%Z)
  end.

(** The index [_sort_data] computes for a row whose positions are [t]
    and [f], among the other rows of [p]. *)
Definition sorted_index (p : Project) (row : nat) (t : Position time)
    (f : Position frame) : nat :=
  match get_mode p with
  | TIME => bisect_right time_lt (Py.without row (times p)) t
  | FRAME => bisect_right frame_lt (Py.without row (frames p)) f
  end.
End RowViews.

(** Row [row] of [p], now with the positions [t'] and [f'], is row [r] of
    [p']; the other rows keep their order in all four arrays. *)
Definition row_moved (p : Project) (row : nat) (t' : Position time)
    (f' : Position frame) (r : nat) (p' : Project) : Prop :=
  times p' !! r = Some t' /\
  frames p' !! r = Some f' /\
  main_texts p' !! r = main_texts p !! row /\
  tran_texts p' !! r = tran_texts p !! row /\
  Py.without r (times p') = Py.without row (times p) /\
  Py.without r (frames p') = Py.without row (frames p) /\
  Py.without r (main_texts p') = Py.without row (main_texts p) /\
  Py.without r (tran_texts p') = Py.without row (tran_texts p) /\
  parallel p' /\
  main_file p' = main_file p /\
  clipboard p' = clipboard p.

(** The stacks and the blocked signals of [p'] are those of [p]. *)
Definition stacks_kept (p p' : Project) : Prop :=
  undoables p' = undoables p /\ redoables p' = redoables p /\
  blocked p' = blocked p.

(** The outcome of an edit of one position: the row has moved from [row]
    to [r] and the action [a] is registered on top of the stack of [reg]. *)
Definition position_edited (p : Project) (row : nat) (t' : Position time)
    (f' : Position frame) (reg : Register) (r : nat) (a : RevertableAction)
    (p' : Project) : Prop :=
  destination_stack reg p' = Single a :: destination_stack reg p /\
  register a = reg /\
  updated_rows a
  = (if r =? row then [] else Py.range (Nat.min row r) (Nat.max row r + 1)) /\
  updated_positions a = (if r =? row then [row] else []) /\
  row_moved p row t' f' r p'.
Section RowInvariants.
Context {F : FloatOps} (calc : Calculator F).







(** The outcome of a resort: row [row] of [p] is row [r] of [p'] with
    positions [t] and [f]; [r] is what [bisect_right] returns for the
    full position among the remaining rows of the authoritative array,
    the rightmost insertion point when these are in ascending order; the
    entries of the four arrays sit at [r] and the other rows keep their
    order; the registered action [a] lists the rows from the smaller to
    the larger of the two indices when they differ. *)
Definition resorted (p : Project) (row : nat) (reg : Register) (r : nat)
    (a : RevertableAction) (t : Position time) (f : Position frame)
    (p' : Project) : Prop :=
  times p' !! r = Some t /\ frames p' !! r = Some f /\
  match get_mode p with
  | TIME =>
      r = bisect_right time_lt (Py.without row (times p)) t /\
      (ascending time_lt (Py.without row (times p)) ->
       upper_bound time_lt (Py.without row (times p)) t r)
  | FRAME =>
      r = bisect_right frame_lt (Py.without row (frames p)) f /\
      (ascending frame_lt (Py.without row (frames p)) ->
       upper_bound frame_lt (Py.without row (frames p)) f r)
  end /\
  main_texts p' !! r = main_texts p !! row /\
  tran_texts p' !! r = tran_texts p !! row /\
  Py.without r (times p') = Py.without row (times p) /\
  Py.without r (frames p') = Py.without row (frames p) /\
  Py.without r (main_texts p') = Py.without row (main_texts p) /\
  Py.without r (tran_texts p') = Py.without row (tran_texts p) /\
  destination_stack reg p' = Single a :: destination_stack reg p /\
  (r <> row ->
   updated_rows a = Py.range (Nat.min row r) (Nat.max row r + 1) /\
   forall i, i ∈ updated_rows a <-> Nat.min row r <= i <= Nat.max row r).
End RowInvariants.
Section RowSets.
Context {A : Type}.

(** The elements of [l] whose index is not among [rows]; the first
    element of [l] has index [i]. *)
Fixpoint omit_from (i : nat) (rows : list nat) (l : list A) : list A :=
  match l with
  | [] => []
  | x :: l' =>
      if bool_decide (i ∈ rows) then omit_from (S i) rows l'
      else x :: omit_from (S i) rows l'
  end.

(** [l] without the rows [rows]. *)
Definition omit (rows : list nat) (l : list A) : list A := omit_from 0 rows l.

(** [[l[row] for row in rows]] *)
Fixpoint pick (rows : list nat) (l : list A) : list A :=
  match rows with
  | [] => []
  | row :: rows' =>
      match l !! row with
      | Some x => x :: pick rows' l
      | None => pick rows' l
      end
  end.

(** The loop of [remove_subtitles] on one array: pop each row and put
    the popped value first in [acc]. *)
Fixpoint pop_rows (rows : list nat) (acc l : list A)
    : option (list A * list A) :=
  match rows with
  | [] => Some (acc, l)
  | row :: rows' =>
      '(x, l') ← Py.pop row l;
      pop_rows rows' (x :: acc) l'
  end.
End RowSets.
(** The text array of a document, and the other document. *)
Definition texts_of (document : Document) (p : Project) : list string :=
  match document with
  | MAIN => main_texts p
  | TRAN => tran_texts p
  end.

Definition set_texts (document : Document) (v : list string) (p : Project)
    : Project :=
  match document with
  | MAIN => set_main_texts v p
  | TRAN => set_tran_texts v p
  end.

Definition other_document (document : Document) : Document :=
  match document with
  | MAIN => TRAN
  | TRAN => MAIN
  end.

(** [p] with the positions [ts] and [fs] and as many blank texts added at
    the end of the four arrays. *)
Definition extended (ts : list (Position time)) (fs : list (Position frame))
    (k : nat) (p : Project) : Project :=
  set_tran_texts (tran_texts p ++ replicate k EmptyString)
    (set_main_texts (main_texts p ++ replicate k EmptyString)
       (set_frames (frames p ++ fs) (set_times (times p ++ ts) p))).
(** The effect of a paste on a text array: the texts at the offsets of the
    clipboard entries that are not [None] are overwritten by these
    entries, every other text is as before. *)
Definition pasted_over (start_row : nat) (data : list (option string))
    (before after : list string) : Prop :=
  length after = length before /\
  (forall i v, data !! i = Some (Some v) -> after !! (start_row + i) = Some v) /\
  (forall r, (forall i v, data !! i = Some (Some v) -> r <> start_row + i) ->
     after !! r = before !! r).

(** The actions [replace_texts] and [insert_subtitles] register. *)
Definition replacing_action (reg : Register) (rows : list nat)
    (document : Document) (orig_texts : list string) : RevertableAction :=
  {| register := reg;
     docs := [document];
     description := "Replacing texts";
     revert := Call_replace_texts rows document orig_texts;
     inserted_rows := [];
     removed_rows := [];
     updated_rows := [];
     updated_positions := [];
     updated_main_texts := match document with MAIN => rows | TRAN => [] end;
     updated_tran_texts := match document with MAIN => [] | TRAN => rows end |}.

Definition inserting_action (reg : Register) (rows : list nat)
    : RevertableAction :=
  {| register := reg;
     docs := [MAIN; TRAN];
     description := "Inserting subtitles";
     revert := Call_remove_subtitles rows;
     inserted_rows := rows;
     removed_rows := [];
     updated_rows := [];
     updated_positions := [];
     updated_main_texts := [];
     updated_tran_texts := [] |}.
(* ===================================================================== *)
(** * Example documents *)
(* ===================================================================== *)

Module Examples.

Definition position_at (show_ hide_ : Z) : Position time * Position frame :=
  (mkPos (Clock25.time_of_ms show_) (Clock25.time_of_ms hide_)
     (Clock25.time_of_ms (hide_ - show_)),
   mkPos (show_ / 40)%Z (hide_ / 40)%Z ((hide_ - show_) / 40)%Z).

(** Three subtitles in time mode; the first two have the same show, hide
    and duration and differ in their texts. *)
Definition twins : Project :=
  {| times := [(position_at 1000 2000).1; (position_at 1000 2000).1;
               (position_at 5000 6000).1];
     frames := [(position_at 1000 2000).2; (position_at 1000 2000).2;
                (position_at 5000 6000).2];
     main_texts := ["A"; "B"; "C"];
     tran_texts := ["a"; "b"; "c"];
     main_file := None;
     clipboard := [Some "x"; None; Some "y"];
     undoables := [];
     redoables := [];
     blocked := [] |}.

(** One subtitle in time mode, shown from 15 ms to 55 ms; at 25 frames
    per second these times are in frames 0 and 1, and 40 ms is 1 frame. *)
Definition short : Project :=
  {| times := [mkPos "00:00:00,015" "00:00:00,055" "00:00:00,040"];
     frames := [mkPos 0 1 1]%Z;
     main_texts := ["A"];
     tran_texts := ["a"];
     main_file := None;
     clipboard := [];
     undoables := [];
     redoables := [];
     blocked := [] |}.

(** Two subtitles in frame mode that overlap: the first is shown from
    frame 0 to frame 100, the second from frame 50 to frame 150. *)
Definition overlapping : Project :=
  {| times := [(position_at 0 4000).1; (position_at 2000 6000).1];
     frames := [(position_at 0 4000).2; (position_at 2000 6000).2];
     main_texts := ["A"; "B"];
     tran_texts := ["a"; "b"];
     main_file := Some FRAME;
     clipboard := [];
     undoables := [];
     redoables := [];
     blocked := [] |}.

(** The show values of the authoritative array are in non-decreasing
    order. *)
Definition shows_ordered (p : Project) : bool :=
  match get_mode p with
  | TIME =>
      forallb (fun '(a, b) => negb (String.ltb b a))
        (zip (show <$> times p) (drop 1 (show <$> times p)))
  | FRAME =>
      forallb (fun '(a, b) => negb (Z.ltb b a))
        (zip (show <$> frames p) (drop 1 (show <$> frames p)))
  end.

End Examples.
(** A stand-in for Python's [re] on which the converter can be run: a
    pattern is the text it matches, and a substitution replaces a text
    that is the pattern as a whole. *)
Module ToyRe.

Definition re_compile (pattern : string) (flags : unit) : string := pattern.

Definition re_sub (regex repl text : string) : string :=
  if String.eqb regex text then repl else text.

Definition bold_only : Tags.TagLibrary (pattern := string) (flags := unit) :=
  {| Tags.decode_tags :=
       [{| Tags.entry_pattern := "{y:b}"; Tags.entry_flags := tt;
           Tags.entry_repl := "<b>"; Tags.entry_count := None |}];
     Tags.encode_tags :=
       [{| Tags.entry_pattern := "<b>"; Tags.entry_flags := tt;
           Tags.entry_repl := "[b]"; Tags.entry_count := Some 2%Z |}];
     Tags.pre_decode := fun text => text;
     Tags.post_decode := fun text => text;
     Tags.pre_encode := fun text => text;
     Tags.post_encode := fun text => text |}.

End ToyRe.
(** INV-3: the show values of the authoritative array are in
    non-decreasing order. *)
Definition shows_in_order (p : Project) : Prop :=
  match get_mode p with
  | TIME => ascending String.ltb (show <$> times p)
  | FRAME => ascending Z.ltb (show <$> frames p)
  end.

(* ------------------------------------------------------------------- *)
(** ** Notions used by the further properties *)
(* ------------------------------------------------------------------- *)

Section RowInserts.
Context {A : Type}.

(** The loop of [_insert_data] on one array: insert the elements of [xs]
    at the rows [rows], one after the other. *)
Fixpoint insert_rows (rows : list nat) (xs : list A) (l : list A) : list A :=
  match rows, xs with
  | row :: rows', x :: xs' => insert_rows rows' xs' (Py.insert row x l)
  | _, _ => l
  end.
End RowInserts.

(** Every row is within the array at the time its element is inserted
    into an array that has [n] elements at the start. *)
Fixpoint insertable (n : nat) (rows : list nat) : Prop :=
  match rows with
  | [] => True
  | row :: rows' => row <= n /\ insertable (S n) rows'
  end.

Section BlankFrames.
Context {F : FloatOps} (calc : Calculator F).

(** The first show frame and the duration [_insert_blank] computes in
    frame mode for [amount] rows at [start_row]. *)
Definition blank_frame_start (start_row : nat) (p : Project) : Z :=
  if 0 <? start_row then from_option hide 0%Z (frames p !! (start_row - 1))
  else 0%Z.

Definition blank_frame_duration (start_row amount : nat) (p : Project) : Z :=
  if start_row <? length (times p) then
    ((from_option show 0%Z (frames p !! start_row)
      - blank_frame_start start_row p) / Z.of_nat amount)%Z
  else int_round F (fmul F (framerate_value calc) (float_of_int F opt_sec)).
End BlankFrames.

(** No other row of the authoritative array has the show and the hide of
    the positions [t] and [f]. *)
Definition no_other_row_at (p : Project) (row : nat) (t : Position time)
    (f : Position frame) : Prop :=
  match get_mode p with
  | TIME =>
      forall j y, j <> row -> times p !! j = Some y ->
        ~ (show y = show t /\ hide y = hide t)
  | FRAME =>
      forall j y, j <> row -> frames p !! j = Some y ->
        ~ (show y = show f /\ hide y = hide f)
  end.

Section IdleRules.
Context {pattern flags : Type}.

(** A rule whose count lets Python's [range(count)] yield at least one
    index; without a count the rule is applied once. *)
Definition is_active
    (entry : Tags.TagEntry (pattern := pattern) (flags := flags)) : bool :=
  match Tags.entry_count entry with
  | Some c => (0 <? c)%Z
  | None => true
  end.

(** A tag library without the rules that are not active. *)
Definition without_idle_rules
    (lib : Tags.TagLibrary (pattern := pattern) (flags := flags))
    : Tags.TagLibrary :=
  {| Tags.decode_tags := List.filter is_active (Tags.decode_tags lib);
     Tags.encode_tags := List.filter is_active (Tags.encode_tags lib);
     Tags.pre_decode := Tags.pre_decode lib;
     Tags.post_decode := Tags.post_decode lib;
     Tags.pre_encode := Tags.pre_encode lib;
     Tags.post_encode := Tags.post_encode lib |}.
End IdleRules.

Section Replacements.
Context {Pattern : Type}.
Context (get_name : Pattern -> bool -> string).
Context (get_field : Pattern -> string -> option string).

(** [pattern_j] has the name [name] and the policy ['Replace']. *)
Definition replaces (name : string) (pattern_j : Pattern) : bool :=
  String.eqb (get_name pattern_j false) name
  && bool_decide (get_field pattern_j "Policy" = Some "Replace"%string).
End Replacements.

Module MoreExamples.
Import Examples.

(** Two subtitles in frame mode with a gap between them: the first is
    shown from frame 0 to frame 100, the second from frame 200 to frame
    300. *)
Definition spaced : Project :=
  {| times := [(position_at 0 4000).1; (position_at 8000 12000).1];
     frames := [(position_at 0 4000).2; (position_at 8000 12000).2];
     main_texts := ["A"; "B"];
     tran_texts := ["a"; "b"];
     main_file := Some FRAME;
     clipboard := [];
     undoables := [];
     redoables := [];
     blocked := [] |}.

(** A stand-in for Python's [int] on a string: the value of a string of
    decimal digits, and no integer for any other string. *)
Fixpoint decimal (acc : Z) (cs : list ascii) : option Z :=
  match cs with
  | [] => Some acc
  | c :: cs' =>
      let d := Clock25.digit c in
      if (0 <=? d)%Z && (d <=? 9)%Z then decimal (acc * 10 + d) cs' else None
  end.

Definition py_int (s : string) : option Z :=
  match list_ascii_of_string s with
  | [] => None
  | cs => decimal 0 cs
  end.

End MoreExamples.

(* ===================================================================== *)
(** * Properties *)
(* ===================================================================== *)

(** ** Python lists *)

Section PyFacts.
Context {A : Type}.
Implicit Types (l : list A) (x : A) (i j : nat).

Lemma insert_length i x l : length (Py.insert i x l) = S (length l).
Proof.
  unfold Py.insert. rewrite length_app. simpl.
  rewrite length_take, length_drop. lia.
Qed.

Lemma insert_at_end x l : Py.insert (length l) x l = l ++ [x].
Proof.
  unfold Py.insert. rewrite firstn_all, drop_all. reflexivity.
Qed.

Lemma insert_lookup i x l : i <= length l -> Py.insert i x l !! i = Some x.
Proof.
  intros Hi. unfold Py.insert.
  rewrite lookup_app_r by (rewrite length_take; lia).
  rewrite length_take. replace (i - i `min` length l) with 0 by lia.
  reflexivity.
Qed.

Lemma without_length i l : i < length l -> length (Py.without i l) = length l - 1.
Proof.
  intros Hi. unfold Py.without.
  rewrite length_app, length_take, length_drop. lia.
Qed.

Lemma without_delete i l : Py.without i l = delete i l.
Proof.
  unfold Py.without. revert i.
  induction l as [|y l IH]; intros [|i]; simpl; try reflexivity.
  f_equal. apply IH.
Qed.

Lemma pop_Some i x l : l !! i = Some x -> Py.pop i l = Some (x, Py.without i l).
Proof. intros H. unfold Py.pop. rewrite H, without_delete. reflexivity. Qed.

Lemma without_insert i x l : i <= length l -> Py.without i (Py.insert i x l) = l.
Proof.
  intros Hi. unfold Py.without, Py.insert.
  rewrite take_app_le by (rewrite length_take; lia).
  rewrite take_take. replace (i `min` i) with i by lia.
  rewrite drop_app_ge by (rewrite length_take; lia).
  rewrite length_take. replace (S i - i `min` length l) with 1 by lia.
  simpl. rewrite drop_0. apply take_drop.
Qed.

Lemma insert_without i x l : l !! i = Some x -> Py.insert i x (Py.without i l) = l.
Proof.
  intros H. unfold Py.without, Py.insert.
  assert (Hi : i < length l) by (eapply lookup_lt_Some; eauto).
  rewrite take_app_le by (rewrite length_take; lia).
  rewrite take_take. replace (i `min` i) with i by lia.
  rewrite drop_app_ge by (rewrite length_take; lia).
  rewrite length_take. replace (i - i `min` length l) with 0 by lia.
  rewrite drop_0.
  rewrite <- (take_drop_middle l i x H) at 3. reflexivity.
Qed.
End PyFacts.

(** ** Orders on positions *)


Lemma StrictTotal_negtrans {A} (ltb : A -> A -> bool) :
  StrictTotal ltb ->
  forall x y z, ltb x y = false -> ltb y z = false -> ltb x z = false.
Proof.
  intros [Hi Ht Hto] x y z Hxy Hyz.
  destruct (ltb x z) eqn:Hxz; [|reflexivity].
  destruct (ltb y x) eqn:Hyx.
  - rewrite (Ht y x z Hyx Hxz) in Hyz. discriminate.
  - assert (x = y) by auto. subst. congruence.
Qed.

Lemma Z_ltb_StrictTotal : StrictTotal Z.ltb.
Proof.
  split; intros; repeat
    match goal with
    | H : (_ <? _)%Z = true |- _ => apply Z.ltb_lt in H
    | H : (_ <? _)%Z = false |- _ => apply Z.ltb_ge in H
    | |- (_ <? _)%Z = true => apply Z.ltb_lt
    | |- (_ <? _)%Z = false => apply Z.ltb_ge
    end; lia.
Qed.

Lemma ascii_compare_Lt_trans a b c :
  Ascii.compare a b = Lt -> Ascii.compare b c = Lt -> Ascii.compare a c = Lt.
Proof.
  unfold Ascii.compare. rewrite !N.compare_lt_iff. lia.
Qed.

Lemma ascii_compare_Eq a b : Ascii.compare a b = Eq -> a = b.
Proof.
  unfold Ascii.compare. rewrite N.compare_eq_iff.
  intros H. rewrite <- (ascii_N_embedding a), <- (ascii_N_embedding b).
  congruence.
Qed.

Lemma string_compare_Lt_trans s1 : forall s2 s3,
  String.compare s1 s2 = Lt -> String.compare s2 s3 = Lt ->
  String.compare s1 s3 = Lt.
Proof.
  induction s1 as [|a s1 IH]; intros [|b s2] [|c s3]; simpl; try congruence.
  destruct (Ascii.compare a b) eqn:Hab; try discriminate;
    destruct (Ascii.compare b c) eqn:Hbc; try discriminate; intros H1 H2.
  - apply ascii_compare_Eq in Hab, Hbc. subst.
    assert (Hcc : Ascii.compare c c = Eq)
      by (unfold Ascii.compare; apply N.compare_refl).
    rewrite Hcc. eauto.
  - apply ascii_compare_Eq in Hab. subst. rewrite Hbc. reflexivity.
  - apply ascii_compare_Eq in Hbc. subst. rewrite Hab. reflexivity.
  - rewrite (ascii_compare_Lt_trans _ _ _ Hab Hbc). reflexivity.
Qed.

Lemma string_compare_refl s : String.compare s s = Eq.
Proof.
  induction s as [|a s IH]; simpl; [reflexivity|].
  unfold Ascii.compare. rewrite N.compare_refl. exact IH.
Qed.

Lemma String_ltb_StrictTotal : StrictTotal String.ltb.
Proof.
  unfold String.ltb. split.
  - intros x. rewrite string_compare_refl. reflexivity.
  - intros x y z Hxy Hyz.
    destruct (String.compare x y) eqn:H1; try discriminate.
    destruct (String.compare y z) eqn:H2; try discriminate.
    rewrite (string_compare_Lt_trans _ _ _ H1 H2). reflexivity.
  - intros x y Hxy Hyx. apply String.compare_eq_iff.
    rewrite String.compare_antisym in Hyx.
    destruct (String.compare x y); simpl in *; congruence.
Qed.

Lemma lex3_true {A} (ltb : A -> A -> bool) (H : StrictTotal ltb) p q :
  lex3 ltb p q = true <->
  ltb (show p) (show q) = true \/
  show p = show q /\
  (ltb (hide p) (hide q) = true \/
   hide p = hide q /\ ltb (durn p) (durn q) = true).
Proof.
  destruct H as [Hi Ht Hto]. unfold lex3.
  destruct (ltb (show p) (show q)) eqn:E1; [tauto|].
  destruct (ltb (show q) (show p)) eqn:E2.
  { split; [discriminate|]. intros [?|[Heq _]]; [discriminate|].
    rewrite Heq, Hi in E2. discriminate. }
  assert (Hs : show p = show q) by auto.
  destruct (ltb (hide p) (hide q)) eqn:E3; [tauto|].
  destruct (ltb (hide q) (hide p)) eqn:E4.
  { split; [discriminate|]. intros [?|[_ [?|[Heq _]]]]; try discriminate.
    rewrite Heq, Hi in E4. discriminate. }
  assert (Hh : hide p = hide q) by auto.
  split; [tauto|]. intros [?|[_ [?|[_ ?]]]]; congruence.
Qed.

Lemma lex3_StrictTotal {A} (ltb : A -> A -> bool) :
  StrictTotal ltb -> StrictTotal (lex3 ltb).
Proof.
  intros H. pose proof H as [Hi Ht Hto]. split.
  - intros x. destruct (lex3 ltb x x) eqn:E; [|reflexivity].
    apply (lex3_true _ H) in E.
    destruct E as [E|[_ [E|[_ E]]]]; rewrite Hi in E; discriminate.
  - intros x y z Hxy Hyz.
    apply (lex3_true _ H) in Hxy, Hyz. apply (lex3_true _ H).
    destruct x, y, z; simpl in *.
    destruct Hxy as [E1|[E1 [F1|[F1 G1]]]], Hyz as [E2|[E2 [F2|[F2 G2]]]];
      subst; eauto 8.
  - intros x y Hxy Hyx.
    assert (Hs : show x = show y).
    { apply Hto.
      - destruct (ltb (show x) (show y)) eqn:E; [|reflexivity].
        assert (lex3 ltb x y = true) by (apply (lex3_true _ H); auto). congruence.
      - destruct (ltb (show y) (show x)) eqn:E; [|reflexivity].
        assert (lex3 ltb y x = true) by (apply (lex3_true _ H); auto). congruence. }
    assert (Hh : hide x = hide y).
    { apply Hto.
      - destruct (ltb (hide x) (hide y)) eqn:E; [|reflexivity].
        assert (lex3 ltb x y = true) by (apply (lex3_true _ H); auto). congruence.
      - destruct (ltb (hide y) (hide x)) eqn:E; [|reflexivity].
        assert (lex3 ltb y x = true) by (apply (lex3_true _ H); auto). congruence. }
    assert (Hd : durn x = durn y).
    { apply Hto.
      - destruct (ltb (durn x) (durn y)) eqn:E; [|reflexivity].
        assert (lex3 ltb x y = true) by (apply (lex3_true _ H); auto 6). congruence.
      - destruct (ltb (durn y) (durn x)) eqn:E; [|reflexivity].
        assert (lex3 ltb y x = true) by (apply (lex3_true _ H); auto 6). congruence. }
    destruct x, y; simpl in *; congruence.
Qed.

Lemma time_lt_StrictTotal : StrictTotal time_lt.
Proof. apply lex3_StrictTotal, String_ltb_StrictTotal. Qed.

Lemma frame_lt_StrictTotal : StrictTotal frame_lt.
Proof. apply lex3_StrictTotal, Z_ltb_StrictTotal. Qed.

(** ** [bisect_right] *)

Section BisectFacts.
Context {A : Type} (ltb : A -> A -> bool).

Lemma bisect_loop_S n (a : list A) x lo hi :
  bisect_loop ltb (S n) a x lo hi =
  if lo <? hi then
    match a !! ((lo + hi) / 2) with
    | Some y =>
        if ltb x y then bisect_loop ltb n a x lo ((lo + hi) / 2)
        else bisect_loop ltb n a x ((lo + hi) / 2 + 1) hi
    | None => lo
    end
  else lo.
Proof. reflexivity. Qed.

Lemma bisect_loop_range n (a : list A) x : forall lo hi,
  lo <= hi -> lo <= bisect_loop ltb n a x lo hi <= hi.
Proof.
  induction n as [|n IH]; intros lo hi Hle; [simpl; lia|].
  rewrite bisect_loop_S.
  destruct (lo <? hi) eqn:Hlt; [|lia].
  apply Nat.ltb_lt in Hlt.
  assert (Hmid : lo <= (lo + hi) / 2 < hi).
  { split; [apply Nat.div_le_lower_bound; lia|apply Nat.Div0.div_lt_upper_bound; lia]. }
  destruct (a !! ((lo + hi) / 2)) as [y|]; [|lia].
  destruct (ltb x y).
  - specialize (IH lo ((lo + hi) / 2)). lia.
  - specialize (IH ((lo + hi) / 2 + 1) hi). lia.
Qed.

Lemma bisect_right_le (a : list A) x : bisect_right ltb a x <= length a.
Proof. unfold bisect_right. pose proof (bisect_loop_range (length a) a x 0 (length a)). lia. Qed.

Hypothesis Hord : StrictTotal ltb.

Lemma bisect_loop_upper_bound n (a : list A) x : forall lo hi,
  ascending ltb a ->
  hi - lo <= n -> lo <= hi -> hi <= length a ->
  (forall i y, i < lo -> a !! i = Some y -> ltb x y = false) ->
  (forall i y, hi <= i -> a !! i = Some y -> ltb x y = true) ->
  upper_bound ltb a x (bisect_loop ltb n a x lo hi).
Proof.
  induction n as [|n IH]; intros lo hi Hasc Hn Hle Hhi Hlo Hup.
  { simpl. assert (lo = hi) by lia. subst. split; [lia|]. split; auto. }
  rewrite bisect_loop_S.
  destruct (lo <? hi) eqn:Hlt.
  2:{ apply Nat.ltb_ge in Hlt. assert (lo = hi) by lia. subst.
      split; [lia|]. split; auto. }
  apply Nat.ltb_lt in Hlt.
  assert (Hmid : lo <= (lo + hi) / 2 < hi).
  { split; [apply Nat.div_le_lower_bound; lia|apply Nat.Div0.div_lt_upper_bound; lia]. }
  set (mid := (lo + hi) / 2) in *.
  destruct (lookup_lt_is_Some_2 a mid) as [y Hy]; [lia|].
  rewrite Hy. destruct (ltb x y) eqn:Hxy.
  - apply IH; auto; try lia.
    intros i z Hi Hz.
    destruct (decide (i = mid)) as [->|Hne]; [congruence|].
    assert (Hzy : ltb z y = false) by (apply (Hasc mid i y z); auto; lia).
    destruct (ltb x z) eqn:Hxz; [reflexivity|].
    rewrite (StrictTotal_negtrans ltb Hord x z y Hxz Hzy) in Hxy. discriminate.
  - apply IH; auto; try lia.
    intros i z Hi Hz.
    destruct (decide (i = mid)) as [->|Hne]; [congruence|].
    assert (Hyz : ltb y z = false) by (apply (Hasc i mid z y); auto; lia).
    apply (StrictTotal_negtrans ltb Hord x y z Hxy Hyz).
Qed.

(** On a list in ascending order [bisect_right] returns the rightmost
    insertion point. *)
Lemma bisect_right_upper_bound (a : list A) x :
  ascending ltb a -> upper_bound ltb a x (bisect_right ltb a x).
Proof.
  intros Hasc. unfold bisect_right.
  apply bisect_loop_upper_bound; auto; try lia.
  intros i y Hi Hy. apply lookup_lt_Some in Hy. lia.
Qed.
End BisectFacts.

(** ** The action register *)

Lemma register_action_stack a p :
  destination_stack (register a) (register_action a p)
  = Single a :: destination_stack (register a) p.
Proof.
  unfold register_action. destruct (register a); simpl; try reflexivity.
  destruct (is_blocked DO p); reflexivity.
Qed.

Lemma register_action_data a p :
  times (register_action a p) = times p /\
  frames (register_action a p) = frames p /\
  main_texts (register_action a p) = main_texts p /\
  tran_texts (register_action a p) = tran_texts p /\
  main_file (register_action a p) = main_file p /\
  clipboard (register_action a p) = clipboard p.
Proof.
  unfold register_action. destruct (register a); simpl; auto 10.
  destruct (is_blocked DO p); simpl; auto 10.
Qed.

(** ** Moving a row *)

Lemma move_Some {A} row r (l : list A) x :
  l !! row = Some x -> r < length l ->
  exists l', move row r l = Some l' /\ l' !! r = Some x /\
             Py.without r l' = Py.without row l /\ length l' = length l.
Proof.
  intros Hx Hr. unfold move. rewrite (pop_Some _ _ _ Hx). simpl.
  assert (Hrow : row < length l) by (eapply lookup_lt_Some; eauto).
  assert (Hlen : length (Py.without row l) = length l - 1) by (apply without_length; auto).
  eexists. split; [reflexivity|]. split; [|split].
  - apply insert_lookup. lia.
  - apply without_insert. lia.
  - rewrite insert_length. lia.
Qed.

Lemma without_update {A} row (l : list A) x : Py.without row (<[row := x]> l) = Py.without row l.
Proof.
  unfold Py.without. rewrite take_insert_ge by lia.
  rewrite drop_insert_lt by lia. reflexivity.
Qed.

(** ** Editing one position *)

Section PositionEdits.
Context {F : FloatOps} (calc : Calculator F).

Lemma set_durations_Some row p t f :
  times p !! row = Some t -> frames p !! row = Some f ->
  set_durations calc row p
  = Some (set_frames (<[row := (dependents calc SHOW t f).2]> (frames p))
            (set_times (<[row := (dependents calc SHOW t f).1]> (times p)) p)).
Proof.
  intros Ht Hf. unfold set_durations. rewrite Ht. simpl. rewrite Hf. reflexivity.
Qed.

Lemma set_hides_Some row p t f :
  times p !! row = Some t -> frames p !! row = Some f ->
  set_hides calc row p
  = Some (set_frames (<[row := (dependents calc DURN t f).2]> (frames p))
            (set_times (<[row := (dependents calc DURN t f).1]> (times p)) p)).
Proof.
  intros Ht Hf. unfold set_hides. rewrite Ht. simpl. rewrite Hf. reflexivity.
Qed.

Lemma sorted_index_lt p row t f :
  parallel p -> row < length (times p) ->
  sorted_index p row t f < length (times p).
Proof.
  intros (Hlf & _) Hrow. unfold sorted_index. destruct (get_mode p).
  - pose proof (bisect_right_le time_lt (Py.without row (times p)) t) as H.
    rewrite without_length in H; lia.
  - pose proof (bisect_right_le frame_lt (Py.without row (frames p)) f) as H.
    rewrite without_length in H; lia.
Qed.

(** The result of [_sort_data] on a project with parallel arrays. *)
Lemma _sort_data_Some row p t f :
  parallel p ->
  times p !! row = Some t -> frames p !! row = Some f ->
  exists p',
    _sort_data row p = Some (sorted_index p row t f, p') /\
    row_moved p row t f (sorted_index p row t f) p' /\ stacks_kept p p'.
Proof.
  intros Hpar Ht Hf. pose proof Hpar as (Hlf & Hlm & Hlt).
  assert (Hrow : row < length (times p)) by (eapply lookup_lt_Some; eauto).
  destruct (lookup_lt_is_Some_2 (main_texts p) row) as [m Hm]; [lia|].
  destruct (lookup_lt_is_Some_2 (tran_texts p) row) as [tr Htr]; [lia|].
  pose proof (sorted_index_lt p row t f Hpar Hrow) as Hr.
  set (r := sorted_index p row t f) in *.
  assert (Hnew :
    match get_mode p with
    | TIME =>
        item ← times p !! row;
        Some (bisect_right time_lt (Py.without row (times p)) item)
    | FRAME =>
        item ← frames p !! row;
        Some (bisect_right frame_lt (Py.without row (frames p)) item)
    end = Some r).
  { unfold r, sorted_index. destruct (get_mode p); [rewrite Ht|rewrite Hf]; reflexivity. }
  unfold _sort_data. rewrite Hnew. simpl.
  destruct (r =? row) eqn:Hrr.
  - apply Nat.eqb_eq in Hrr. exists p. rewrite Hrr.
    unfold row_moved, stacks_kept. repeat split; auto.
  - destruct (move_Some row r (times p) t Ht) as (l1 & E1 & L1 & W1 & N1); [lia|].
    destruct (move_Some row r (frames p) f Hf) as (l2 & E2 & L2 & W2 & N2); [lia|].
    destruct (move_Some row r (main_texts p) m Hm) as (l3 & E3 & L3 & W3 & N3); [lia|].
    destruct (move_Some row r (tran_texts p) tr Htr) as (l4 & E4 & L4 & W4 & N4); [lia|].
    rewrite E1. simpl. rewrite E2. simpl. rewrite E3. simpl. rewrite E4. simpl.
    eexists. split; [reflexivity|].
    unfold row_moved, stacks_kept, parallel. simpl. rewrite Hm, Htr.
    repeat split; auto; lia.
Qed.

Lemma row_moved_register p row t' f' r a p' :
  row_moved p row t' f' r p' -> row_moved p row t' f' r (register_action a p').
Proof.
  unfold row_moved, parallel.
  destruct (register_action_data a p') as (D1 & D2 & D3 & D4 & D5 & D6).
  rewrite D1, D2, D3, D4, D5, D6. auto.
Qed.

Lemma register_action_stack_kept a p p' :
  stacks_kept p p' ->
  destination_stack (register a) (register_action a p')
  = Single a :: destination_stack (register a) p.
Proof.
  intros (H1 & H2 & H3). rewrite register_action_stack.
  destruct (register a); simpl; congruence.
Qed.

Lemma finish_position_edit_Some label row col rc reg p t f :
  parallel p ->
  times p !! row = Some t -> frames p !! row = Some f ->
  let t' := (dependents calc col t f).1 in
  let f' := (dependents calc col t f).2 in
  let r := match col with SHOW => sorted_index p row t' f' | _ => row end in
  exists a p',
    finish_position_edit calc label row col rc reg p = Some (r, p') /\
    description a = label /\ revert a = rc r /\
    position_edited p row t' f' reg r a p'.
Proof.
  intros Hpar Ht Hf t' f' r.
  assert (Hrow : row < length (times p)) by (eapply lookup_lt_Some; eauto).
  pose proof Hpar as (Hlf & Hlm & Hlt).
  set (p1 := set_frames (<[row := f']> (frames p))
               (set_times (<[row := t']> (times p)) p)).
  assert (Hdep :
    match col with
    | SHOW | HIDE => set_durations calc row p
    | DURN => set_hides calc row p
    end = Some p1).
  { unfold p1, t', f'. destruct col.
    - apply set_durations_Some; auto.
    - rewrite (set_durations_Some row p t f Ht Hf). reflexivity.
    - apply set_hides_Some; auto. }
  assert (Hpar1 : parallel p1).
  { unfold parallel, p1. simpl. rewrite !length_insert. auto. }
  assert (Hmv : row_moved p row t' f' row p1).
  { unfold row_moved, parallel, p1. simpl. rewrite !without_update.
    rewrite !list_lookup_insert_eq by lia. rewrite !length_insert.
    repeat split; auto. }
  assert (Hst : stacks_kept p p1) by (unfold stacks_kept, p1; simpl; auto).
  unfold finish_position_edit. rewrite Hdep. simpl.
  assert (Hsame : forall a,
    register a = reg -> updated_rows a = [] -> updated_positions a = [row] ->
    position_edited p row t' f' reg row a (register_action a p1)).
  { intros a Ha Hu Hp. unfold position_edited. rewrite Nat.eqb_refl.
    rewrite <- Ha at 1 2. rewrite (register_action_stack_kept a p p1 Hst).
    do 4 (split; [solve [auto]|]). apply row_moved_register; auto. }
  pose (act := fun ur up rr =>
    {| register := reg; docs := [MAIN]; description := label;
       revert := rc rr; inserted_rows := []; removed_rows := [];
       updated_rows := ur; updated_positions := up;
       updated_main_texts := []; updated_tran_texts := [] |}).
  destruct col;
    try (exists (act [] [row] row), (register_action (act [] [row] row) p1);
         split; [reflexivity|]; split; [reflexivity|]; split; [reflexivity|];
         apply Hsame; reflexivity).
  destruct Hmv as (M1 & M2 & M3 & M4 & M5 & M6 & M7 & M8 & M9 & M10 & M11).
  destruct (_sort_data_Some row p1 t' f' Hpar1 M1 M2)
    as (p2 & Hs & Hmv2 & Hst2).
  assert (Hidx : sorted_index p1 row t' f' = r).
  { unfold r, sorted_index, get_mode. rewrite M5, M6, M10. reflexivity. }
  rewrite Hidx in *. rewrite Hs. simpl.
  assert (Hmv' : row_moved p row t' f' r p2).
  { destruct Hmv2 as (N1 & N2 & N3 & N4 & N5 & N6 & N7 & N8 & N9 & N10 & N11).
    unfold row_moved. rewrite N3, N4, N5, N6, N7, N8, N10, N11.
    do 2 (split; [assumption|]). do 6 (split; [assumption|]).
    split; [assumption|]. split; assumption. }
  assert (Hst' : stacks_kept p p2).
  { destruct Hst as (? & ? & ?), Hst2 as (? & ? & ?).
    unfold stacks_kept. repeat split; congruence. }
  destruct (r =? row) eqn:Hrr.
  - apply Nat.eqb_eq in Hrr.
    exists (act [] [row] row), (register_action (act [] [row] row) p2).
    split; [rewrite Hrr; reflexivity|].
    split; [reflexivity|]. split; [rewrite Hrr; reflexivity|].
    unfold position_edited. rewrite Hrr at 1 2. rewrite Nat.eqb_refl.
    split; [apply (register_action_stack_kept (act [] [row] row) p p2 Hst')|].
    do 3 (split; [reflexivity|]). apply row_moved_register; auto.
  - set (ur := Py.range (Nat.min row r) (Nat.max row r + 1)).
    exists (act ur [] r), (register_action (act ur [] r) p2).
    split; [reflexivity|].
    split; [reflexivity|]. split; [reflexivity|].
    unfold position_edited. rewrite Hrr.
    split; [apply (register_action_stack_kept (act ur [] r) p p2 Hst')|].
    do 3 (split; [reflexivity|]). apply row_moved_register; auto.
Qed.
End PositionEdits.

Section SetPosition.
Context {F : FloatOps} (calc : Calculator F).

(** Writing the two positions of [row] before the edit is finished does
    not change what the other rows are. *)
Lemma position_edited_written p row tw fw t' f' reg r a p' :
  position_edited
    (set_frames (<[row := fw]> (frames p))
       (set_times (<[row := tw]> (times p)) p)) row t' f' reg r a p' ->
  position_edited p row t' f' reg r a p'.
Proof.
  unfold position_edited, row_moved. simpl. rewrite !without_update.
  destruct reg; simpl; auto.
Qed.

Lemma sorted_index_written p row tw fw t' f' :
  sorted_index
    (set_frames (<[row := fw]> (frames p))
       (set_times (<[row := tw]> (times p)) p)) row t' f'
  = sorted_index p row t' f'.
Proof.
  unfold sorted_index, get_mode. simpl. rewrite !without_update. reflexivity.
Qed.

Lemma set_time_Some row col value reg p t f :
  parallel p ->
  times p !! row = Some t -> frames p !! row = Some f ->
  value <> getcol t col ->
  let written :=
    dependents calc col (setcol t col value)
      (setcol f col (time_to_frame calc value)) in
  let r := match col with
           | SHOW => sorted_index p row written.1 written.2
           | _ => row
           end in
  exists a p',
    set_time calc row col value reg p = Some (r, p') /\
    description a = "Editing time" /\
    revert a = match get_mode p with
               | TIME => Call_set_time r col (getcol t col)
               | FRAME => Call_set_frame r col (getcol f col)
               end /\
    position_edited p row written.1 written.2 reg r a p'.
Proof.
  intros Hpar Ht Hf Hne written r.
  assert (Hrow : row < length (times p)) by (eapply lookup_lt_Some; eauto).
  pose proof Hpar as (Hlf & Hlm & Hlt).
  set (tw := setcol t col value).
  set (fw := setcol f col (time_to_frame calc value)).
  set (p2 := set_frames (<[row := fw]> (frames p))
               (set_times (<[row := tw]> (times p)) p)).
  set (rc := fun r => match get_mode p with
                      | TIME => Call_set_time r col (getcol t col)
                      | FRAME => Call_set_frame r col (getcol f col)
                      end).
  assert (Hpar2 : parallel p2).
  { unfold parallel, p2. simpl. rewrite !length_insert. auto. }
  assert (Ht2 : times p2 !! row = Some tw).
  { unfold p2. simpl. apply list_lookup_insert_eq. lia. }
  assert (Hf2 : frames p2 !! row = Some fw).
  { unfold p2. simpl. apply list_lookup_insert_eq. lia. }
  destruct (finish_position_edit_Some calc "Editing time" row col rc reg p2 tw fw
              Hpar2 Ht2 Hf2) as (a & p' & Hfin & Hd & Hrev & Hed).
  exists a, p'.
  assert (Hr : match col with
               | SHOW => sorted_index p2 row (dependents calc col tw fw).1
                           (dependents calc col tw fw).2
               | _ => row
               end = r).
  { unfold r, written. fold tw fw. destruct col; auto.
    apply sorted_index_written. }
  rewrite Hr in *.
  split.
  - unfold set_time. rewrite Ht. simpl.
    destruct (String.eqb value (getcol t col)) eqn:E.
    { apply String.eqb_eq in E. contradiction. }
    destruct (get_mode p) eqn:Hm; simpl.
    + rewrite Hf. simpl. rewrite <- Hfin. reflexivity.
    + rewrite Hf. simpl. rewrite <- Hfin. reflexivity.
  - split; [assumption|]. split; [exact Hrev|].
    apply position_edited_written with (tw := tw) (fw := fw). exact Hed.
Qed.

Lemma set_frame_Some row col value reg p t f :
  parallel p ->
  times p !! row = Some t -> frames p !! row = Some f ->
  value <> getcol f col ->
  let written :=
    dependents calc col (setcol t col (frame_to_time calc value))
      (setcol f col value) in
  let r := match col with
           | SHOW => sorted_index p row written.1 written.2
           | _ => row
           end in
  exists a p',
    set_frame calc row col value reg p = Some (r, p') /\
    description a = "Editing frame" /\
    revert a = match get_mode p with
               | TIME => Call_set_time r col (getcol t col)
               | FRAME => Call_set_frame r col (getcol f col)
               end /\
    position_edited p row written.1 written.2 reg r a p'.
Proof.
  intros Hpar Ht Hf Hne written r.
  assert (Hrow : row < length (times p)) by (eapply lookup_lt_Some; eauto).
  pose proof Hpar as (Hlf & Hlm & Hlt).
  set (tw := setcol t col (frame_to_time calc value)).
  set (fw := setcol f col value).
  set (p2 := set_frames (<[row := fw]> (frames p))
               (set_times (<[row := tw]> (times p)) p)).
  set (rc := fun r => match get_mode p with
                      | TIME => Call_set_time r col (getcol t col)
                      | FRAME => Call_set_frame r col (getcol f col)
                      end).
  assert (Hpar2 : parallel p2).
  { unfold parallel, p2. simpl. rewrite !length_insert. auto. }
  assert (Ht2 : times p2 !! row = Some tw).
  { unfold p2. simpl. apply list_lookup_insert_eq. lia. }
  assert (Hf2 : frames p2 !! row = Some fw).
  { unfold p2. simpl. apply list_lookup_insert_eq. lia. }
  destruct (finish_position_edit_Some calc "Editing frame" row col rc reg p2 tw fw
              Hpar2 Ht2 Hf2) as (a & p' & Hfin & Hd & Hrev & Hed).
  exists a, p'.
  assert (Hr : match col with
               | SHOW => sorted_index p2 row (dependents calc col tw fw).1
                           (dependents calc col tw fw).2
               | _ => row
               end = r).
  { unfold r, written. fold tw fw. destruct col; auto.
    apply sorted_index_written. }
  rewrite Hr in *.
  split.
  - unfold set_frame. rewrite Hf. simpl.
    destruct (value =? getcol f col)%Z eqn:E.
    { apply Z.eqb_eq in E. contradiction. }
    destruct (get_mode p) eqn:Hm; simpl.
    + rewrite Ht. simpl. rewrite <- Hfin. reflexivity.
    + rewrite Ht. simpl. rewrite <- Hfin. reflexivity.
  - split; [assumption|]. split; [exact Hrev|].
    apply position_edited_written with (tw := tw) (fw := fw). exact Hed.
Qed.
End SetPosition.

(** ** The claims about [set_time] and [set_frame] *)

Section SetPositionClaims.
Context {F : FloatOps} (calc : Calculator F).

Lemma dependents_getcol col (t : Position time) (f : Position frame) :
  getcol (dependents calc col t f).1 col = getcol t col /\
  getcol (dependents calc col t f).2 col = getcol f col.
Proof. destruct col; simpl; auto. Qed.



Lemma set_time_unchanged row col reg (p : Project) t :
  times p !! row = Some t ->
  set_time calc row col (getcol t col) reg p = Some (row, p).
Proof.
  intros Ht. unfold set_time. rewrite Ht. simpl.
  rewrite String.eqb_refl. reflexivity.
Qed.

Lemma set_frame_unchanged row col reg (p : Project) f :
  frames p !! row = Some f ->
  set_frame calc row col (getcol f col) reg p = Some (row, p).
Proof.
  intros Hf. unfold set_frame. rewrite Hf. simpl.
  rewrite Z.eqb_refl. reflexivity.
Qed.

(** C6. Calling [set_time] with the stored time value, or [set_frame]
    with the stored frame value, returns the input row and leaves the
    project as it is: the four arrays are unchanged and no action is
    registered. *)
Theorem unchanged_value_is_noop row col reg (p : Project) :
  (forall t, times p !! row = Some t ->
     set_time calc row col (getcol t col) reg p = Some (row, p)) /\
  (forall f, frames p !! row = Some f ->
     set_frame calc row col (getcol f col) reg p = Some (row, p)).
Proof.
  split.
  - intros t Ht. apply set_time_unchanged, Ht.
  - intros f Hf. apply set_frame_unchanged, Hf.
Qed.

(** C5. In time mode [set_frame] registers as its revert a [set_time]
    call with the row's original time value, and in frame mode
    [set_time] registers a [set_frame] call with the row's original
    frame value; the call is aimed at the index the function returns,
    which is where the edited row is after the resort. *)
Theorem revert_is_in_the_mode_of_the_document row col reg (p : Project) t0 f0 :
  parallel p ->
  times p !! row = Some t0 -> frames p !! row = Some f0 ->
  (get_mode p = TIME ->
   forall value, value <> getcol f0 col ->
   exists r p' a f,
     set_frame calc row col value reg p = Some (r, p') /\
     destination_stack reg p' = Single a :: destination_stack reg p /\
     revert a = Call_set_time r col (getcol t0 col) /\
     frames p' !! r = Some f /\ getcol f col = value) /\
  (get_mode p = FRAME ->
   forall value, value <> getcol t0 col ->
   exists r p' a t,
     set_time calc row col value reg p = Some (r, p') /\
     destination_stack reg p' = Single a :: destination_stack reg p /\
     revert a = Call_set_frame r col (getcol f0 col) /\
     times p' !! r = Some t /\ getcol t col = value).
Proof.
  intros Hpar Ht Hf. split; intros Hm value Hne.
  - destruct (set_frame_Some calc row col value reg p t0 f0 Hpar Ht Hf Hne)
      as (a & p' & Hs & _ & Hrev & Hst & _ & _ & _ & _ & Hfr & _).
    rewrite Hm in Hrev.
    eexists _, p', a, _. split; [exact Hs|]. split; [exact Hst|].
    split; [exact Hrev|]. split; [exact Hfr|].
    rewrite (proj2 (dependents_getcol col _ _)). destruct col, f0; reflexivity.
  - destruct (set_time_Some calc row col value reg p t0 f0 Hpar Ht Hf Hne)
      as (a & p' & Hs & _ & Hrev & Hst & _ & _ & _ & Hti & _).
    rewrite Hm in Hrev.
    eexists _, p', a, _. split; [exact Hs|]. split; [exact Hst|].
    split; [exact Hrev|]. split; [exact Hti|].
    rewrite (proj1 (dependents_getcol col _ _)). destruct col, t0; reflexivity.
Qed.


Lemma range_inclusive a b i : i ∈ Py.range a (b + 1) <-> a <= i <= b.
Proof.
  unfold Py.range. rewrite list_elem_of_In, in_seq. lia.
Qed.

Lemma position_edited_resorted p row t f reg a p' :
  position_edited p row t f reg (sorted_index p row t f) a p' ->
  resorted p row reg (sorted_index p row t f) a t f p'.
Proof.
  intros (Hst & _ & Hur & _ & M1 & M2 & M3 & M4 & M5 & M6 & M7 & M8 & _).
  unfold resorted. split; [exact M1|]. split; [exact M2|].
  split.
  { unfold sorted_index. destruct (get_mode p).
    - split; [reflexivity|].
      apply bisect_right_upper_bound, time_lt_StrictTotal.
    - split; [reflexivity|].
      apply bisect_right_upper_bound, frame_lt_StrictTotal. }
  do 6 (split; [assumption|]). split; [exact Hst|].
  intros Hne. apply Nat.eqb_neq in Hne. rewrite Hne in Hur.
  split; [exact Hur|]. intros i. rewrite Hur. apply range_inclusive.
Qed.

(** C4. When [set_time] or [set_frame] changes the SHOW column of a row,
    the index of the row afterwards is the result of [bisect_right] for
    the row's full position (show, hide, duration, compared
    lexicographically) among the positions of the remaining rows in the
    authoritative array, which is the rightmost insertion point when
    these are in ascending order; the row's entries in all four arrays
    are at that index and the other rows keep their order; if the index
    changed, the updated rows of the registered action are the rows from
    the smaller to the larger of the old and the new index. *)
Theorem show_edit_moves_row_to_upper_bound row reg (p : Project) t0 f0 :
  parallel p ->
  times p !! row = Some t0 -> frames p !! row = Some f0 ->
  (forall value, value <> show t0 ->
   exists r p' a t f,
     set_time calc row SHOW value reg p = Some (r, p') /\
     show t = value /\ resorted p row reg r a t f p') /\
  (forall value, value <> show f0 ->
   exists r p' a t f,
     set_frame calc row SHOW value reg p = Some (r, p') /\
     show f = value /\ resorted p row reg r a t f p').
Proof.
  intros Hpar Ht Hf. split; intros value Hne.
  - destruct (set_time_Some calc row SHOW value reg p t0 f0 Hpar Ht Hf Hne)
      as (a & p' & Hs & _ & _ & Hed).
    set (w := dependents calc SHOW (setcol t0 SHOW value)
                (setcol f0 SHOW (time_to_frame calc value))) in *.
    eexists _, p', a, w.1, w.2. split; [exact Hs|]. split; [reflexivity|].
    apply position_edited_resorted. exact Hed.
  - destruct (set_frame_Some calc row SHOW value reg p t0 f0 Hpar Ht Hf Hne)
      as (a & p' & Hs & _ & _ & Hed).
    set (w := dependents calc SHOW (setcol t0 SHOW (frame_to_time calc value))
                (setcol f0 SHOW value)) in *.
    eexists _, p', a, w.1, w.2. split; [exact Hs|]. split; [reflexivity|].
    apply position_edited_resorted. exact Hed.
Qed.
End SetPositionClaims.

(** ** [sorted] *)

Lemma insert_sorted_Permutation x l : Py.insert_sorted x l ≡ₚ x :: l.
Proof.
  induction l as [|y l IH]; simpl; [reflexivity|].
  destruct (x <=? y); [reflexivity|].
  rewrite IH. apply Permutation_swap.
Qed.

Lemma sorted_Permutation l : Py.sorted l ≡ₚ l.
Proof.
  induction l as [|x l IH]; simpl; [reflexivity|].
  rewrite insert_sorted_Permutation, IH. reflexivity.
Qed.

Lemma insert_sorted_StronglySorted x l :
  StronglySorted le l -> StronglySorted le (Py.insert_sorted x l).
Proof.
  induction 1 as [|y l Hl IH Hy]; simpl.
  - repeat constructor.
  - destruct (x <=? y) eqn:E.
    + apply Nat.leb_le in E. constructor; [constructor; auto|].
      constructor; [assumption|].
      eapply Forall_impl; [exact Hy|]. simpl. intros; lia.
    + apply Nat.leb_gt in E. constructor; [assumption|].
      rewrite insert_sorted_Permutation. constructor; [lia|assumption].
Qed.

Lemma sorted_StronglySorted l : StronglySorted le (Py.sorted l).
Proof.
  induction l as [|x l IH]; simpl; [constructor|].
  apply insert_sorted_StronglySorted, IH.
Qed.

(** [sorted] gives the same list for every permutation of its argument. *)
Lemma sorted_of_Permutation l1 l2 : l1 ≡ₚ l2 -> Py.sorted l1 = Py.sorted l2.
Proof.
  intros H. apply (StronglySorted_unique le); try apply sorted_StronglySorted.
  rewrite !sorted_Permutation. exact H.
Qed.

Lemma sorted_of_sorted l : StronglySorted le l -> Py.sorted l = l.
Proof.
  intros H. apply (StronglySorted_unique le); auto using sorted_StronglySorted.
  apply sorted_Permutation.
Qed.

(** On distinct rows the order of [sorted] is strict. *)
Lemma StronglySorted_le_lt l : NoDup l -> StronglySorted le l -> StronglySorted lt l.
Proof.
  intros Hnd H. induction H as [|x l Hl IH Hx]; [constructor|].
  apply NoDup_cons in Hnd as [Hnin Hnd].
  constructor; [auto|].
  apply Forall_forall. intros y Hy.
  rewrite Forall_forall in Hx. specialize (Hx y Hy).
  assert (x <> y) by (intros ->; contradiction). lia.
Qed.

Lemma sorted_strict l : NoDup l -> StronglySorted lt (Py.sorted l).
Proof.
  intros H. apply StronglySorted_le_lt; [|apply sorted_StronglySorted].
  rewrite sorted_Permutation. exact H.
Qed.

(** ** Removing a set of rows *)

Section RowSetFacts.
Context {A : Type}.
Implicit Types (l acc : list A) (rows : list nat).

Lemma omit_from_app i rows l1 l2 :
  omit_from i rows (l1 ++ l2)
  = omit_from i rows l1 ++ omit_from (i + length l1) rows l2.
Proof.
  revert i. induction l1 as [|x l1 IH]; intros i; simpl.
  - rewrite Nat.add_0_r. reflexivity.
  - rewrite IH. replace (S i + length l1) with (i + S (length l1)) by lia.
    destruct (bool_decide (i ∈ rows)); reflexivity.
Qed.

Lemma omit_from_none i rows l :
  (forall r, r ∈ rows -> r < i) -> omit_from i rows l = l.
Proof.
  revert i. induction l as [|x l IH]; intros i H; simpl; [reflexivity|].
  rewrite bool_decide_eq_false_2.
  - rewrite IH; [reflexivity|]. intros r Hr. specialize (H r Hr). lia.
  - intros Hi. specialize (H i Hi). lia.
Qed.

Lemma omit_from_ext i rows rows' l :
  (forall j, i <= j < i + length l -> (j ∈ rows <-> j ∈ rows')) ->
  omit_from i rows l = omit_from i rows' l.
Proof.
  revert i. induction l as [|x l IH]; intros i H; simpl; [reflexivity|].
  rewrite (IH (S i)) by (intros j Hj; apply H; simpl; lia).
  rewrite (bool_decide_ext (i ∈ rows) (i ∈ rows')) by (apply H; simpl; lia).
  reflexivity.
Qed.

Lemma pick_snoc rows r l x :
  l !! r = Some x -> pick (rows ++ [r]) l = pick rows l ++ [x].
Proof.
  intros H. induction rows as [|r' rows IH]; simpl.
  - rewrite H. reflexivity.
  - rewrite IH. destruct (l !! r'); reflexivity.
Qed.

Lemma pick_delete rows r l :
  (forall r', r' ∈ rows -> r' < r) -> pick rows (delete r l) = pick rows l.
Proof.
  intros H. induction rows as [|r' rows IH]; simpl; [reflexivity|].
  rewrite list_lookup_delete_lt by (apply H; left).
  rewrite IH; [reflexivity|]. intros; apply H. right; assumption.
Qed.

Lemma omit_delete rows r l x :
  l !! r = Some x -> (forall r', r' ∈ rows -> r' < r) ->
  omit rows (delete r l) = omit (rows ++ [r]) l.
Proof.
  intros Hx Hlt. unfold omit.
  assert (Hr : r < length l) by (eapply lookup_lt_Some; eauto).
  assert (Hlen : length (take r l) = r) by (rewrite length_take; lia).
  rewrite delete_take_drop.
  rewrite <- (take_drop_middle l r x Hx) at 3.
  rewrite !omit_from_app. simpl. rewrite Hlen.
  rewrite (bool_decide_eq_true_2 (r ∈ rows ++ [r])) by set_solver.
  rewrite (omit_from_ext 0 (rows ++ [r]) rows (take r l)).
  2:{ intros j Hj. split; [|intros ?; apply elem_of_app; left; assumption].
      intros [?|Hin]%elem_of_app; [assumption|].
      apply list_elem_of_singleton in Hin. lia. }
  f_equal.
  rewrite (omit_from_none r rows).
  2:{ intros r' Hr'. apply Hlt, Hr'. }
  rewrite (omit_from_none (S r) (rows ++ [r])); [reflexivity|].
  intros r' [Hin|Hin]%elem_of_app.
  - specialize (Hlt r' Hin). lia.
  - apply list_elem_of_singleton in Hin. lia.
Qed.

(** Popping the rows of a strictly ascending list from the highest to the
    lowest removes exactly these rows and collects them in ascending
    order. *)
Lemma pop_rows_reverse rows : forall acc l,
  StronglySorted lt rows -> (forall r, r ∈ rows -> r < length l) ->
  pop_rows (reverse rows) acc l = Some (pick rows l ++ acc, omit rows l).
Proof.
  induction rows as [|r rows IH] using rev_ind; intros acc l Hs Hlt.
  - simpl. unfold omit. rewrite omit_from_none; [reflexivity|].
    intros r Hr. inversion Hr.
  - rewrite reverse_snoc. simpl.
    apply StronglySorted_app in Hs as (Hlast & Hs & _).
    assert (Hr : r < length l) by (apply Hlt; set_solver).
    destruct (lookup_lt_is_Some_2 l r Hr) as [x Hx].
    unfold Py.pop. rewrite Hx. simpl.
    assert (Hbelow : forall r', r' ∈ rows -> r' < r).
    { intros r' Hr'. apply Hlast; [assumption|set_solver]. }
    rewrite IH; [|assumption|].
    2:{ intros r' Hr'. rewrite length_delete by eauto.
        specialize (Hbelow r' Hr'). lia. }
    rewrite pick_delete by assumption.
    rewrite (pick_snoc rows r l x Hx), <- app_assoc. simpl.
    rewrite (omit_delete rows r l x Hx Hbelow). reflexivity.
Qed.

Lemma pick_length rows l :
  (forall r, r ∈ rows -> r < length l) -> length (pick rows l) = length rows.
Proof.
  induction rows as [|r rows IH]; intros H; simpl; [reflexivity|].
  destruct (lookup_lt_is_Some_2 l r) as [x Hx]; [apply H; left|].
  rewrite Hx. simpl. rewrite IH; [reflexivity|].
  intros; apply H; right; assumption.
Qed.
End RowSetFacts.

Section RemoveSubtitles.
Context {F : FloatOps} (calc : Calculator F).

(** [remove_loop] runs the loop of one array on each of the four. *)
Lemma remove_loop_Some rows : forall ts fs ms trs p ts' fs' ms' trs' l1 l2 l3 l4,
  pop_rows rows ts (times p) = Some (ts', l1) ->
  pop_rows rows fs (frames p) = Some (fs', l2) ->
  pop_rows rows ms (main_texts p) = Some (ms', l3) ->
  pop_rows rows trs (tran_texts p) = Some (trs', l4) ->
  remove_loop rows (ts, fs, ms, trs) p
  = Some ((ts', fs', ms', trs'),
          set_tran_texts l4 (set_main_texts l3 (set_frames l2 (set_times l1 p)))).
Proof.
  induction rows as [|row rows IH];
    intros ts fs ms trs p ts' fs' ms' trs' l1 l2 l3 l4 H1 H2 H3 H4; simpl in *.
  - inversion H1; inversion H2; inversion H3; inversion H4; subst.
    destruct p; reflexivity.
  - destruct (Py.pop row (times p)) as [[t k1]|]; [|discriminate].
    destruct (Py.pop row (frames p)) as [[f k2]|]; [|discriminate].
    destruct (Py.pop row (main_texts p)) as [[m k3]|]; [|discriminate].
    destruct (Py.pop row (tran_texts p)) as [[tr k4]|]; [|discriminate].
    simpl in *.
    rewrite (IH _ _ _ _ _ ts' fs' ms' trs' l1 l2 l3 l4); auto.
Qed.

Lemma remove_subtitles_Some rows reg p :
  parallel p -> NoDup rows ->
  (forall r, r ∈ rows -> r < length (times p)) ->
  let asc := Py.sorted rows in
  let p1 :=
    set_tran_texts (omit asc (tran_texts p))
      (set_main_texts (omit asc (main_texts p))
         (set_frames (omit asc (frames p))
            (set_times (omit asc (times p)) p))) in
  let a :=
    {| register := reg; docs := [MAIN; TRAN];
       description := "Removing subtitles";
       revert := Call_insert_subtitles asc (Some (pick asc (times p)))
                   (Some (pick asc (frames p))) (Some (pick asc (main_texts p)))
                   (Some (pick asc (tran_texts p)));
       inserted_rows := []; removed_rows := asc; updated_rows := [];
       updated_positions := []; updated_main_texts := [];
       updated_tran_texts := [] |} in
  remove_subtitles rows reg p = Some (register_action a p1).
Proof.
  intros (Hlf & Hlm & Hlt) Hnd Hin asc p1 a.
  assert (Hs : StronglySorted lt asc) by (apply sorted_strict; assumption).
  assert (Hin' : forall r, r ∈ asc -> r < length (times p)).
  { intros r Hr. apply Hin. unfold asc in Hr.
    rewrite sorted_Permutation in Hr. exact Hr. }
  unfold remove_subtitles. fold asc.
  rewrite (remove_loop_Some (reverse asc) [] [] [] [] p
             (pick asc (times p)) (pick asc (frames p))
             (pick asc (main_texts p)) (pick asc (tran_texts p))
             (omit asc (times p)) (omit asc (frames p))
             (omit asc (main_texts p)) (omit asc (tran_texts p))).
  - reflexivity.
  - rewrite pop_rows_reverse, app_nil_r; auto.
  - rewrite pop_rows_reverse, app_nil_r; auto. intros; rewrite Hlf; auto.
  - rewrite pop_rows_reverse, app_nil_r; auto. intros; rewrite Hlm; auto.
  - rewrite pop_rows_reverse, app_nil_r; auto. intros; rewrite Hlt; auto.
Qed.


End RemoveSubtitles.

(** ** Converting tags *)

Section TagConverterFacts.
Import Tags.
Context {pattern flags regex : Type}.
Context (re_compile : pattern -> flags -> regex).
Context (re_sub : regex -> string -> string -> string).

Lemma sub_loop_iter (range_ : list nat) regex_ repl text :
  sub_loop re_sub range_ regex_ repl text
  = Nat.iter (length range_) (re_sub regex_ repl) text.
Proof.
  revert text. induction range_ as [|i range_ IH]; intros text; simpl.
  - reflexivity.
  - rewrite IH. apply Nat.iter_swap.
Qed.

Lemma regexs_loop_pipeline (tags : list (TagEntry (pattern := pattern) (flags := flags))) text :
  regexs_loop re_sub (compile_entries re_compile tags) text
  = spec_pipeline re_compile re_sub tags text.
Proof.
  revert text. induction tags as [|entry tags IH]; intros text; simpl.
  - reflexivity.
  - rewrite sub_loop_iter, length_seq, IH. unfold spec_rule.
    destruct (entry_count entry); reflexivity.
Qed.

(** C9. [convert_tags] returns an absent or empty text unchanged, and
    for any other text the composition the specification gives:
    pre_decode, the decode rules in list order, each substitution
    applied count times (once without a count), post_decode, pre_encode,
    the encode rules likewise, post_encode. *)
Theorem convert_tags_is_the_pipeline
    (from_format to_format : TagLibrary (pattern := pattern) (flags := flags)) :
  let self := __init__ re_compile from_format to_format in
  convert_tags re_sub self None = None /\
  convert_tags re_sub self (Some EmptyString) = Some EmptyString /\
  forall text, text <> EmptyString ->
    convert_tags re_sub self (Some text)
    = Some (spec_convert re_compile re_sub from_format to_format text).
Proof.
  intros self. split; [reflexivity|]. split; [reflexivity|].
  intros [|c text] Hne; [contradiction|].
  unfold convert_tags, self, __init__, spec_convert. simpl.
  rewrite !regexs_loop_pipeline. reflexivity.
Qed.
End TagConverterFacts.

(** ** Replacing texts *)

Lemma replace_loop_length rows : forall i new texts origs texts',
  replace_loop i rows new texts = Some (origs, texts') ->
  length texts' = length texts /\ length origs = length rows.
Proof.
  induction rows as [|row rows IH]; intros i new texts origs texts' H; simpl in H.
  - inversion H; subst. auto.
  - destruct (texts !! row) as [o|]; [|discriminate]. simpl in H.
    destruct (new !! i) as [n|]; [|discriminate]. simpl in H.
    destruct (replace_loop (S i) rows new (<[row:=n]> texts)) as [[os ts]|] eqn:E;
      [|discriminate].
    simpl in H. inversion H; subst.
    apply IH in E as [E1 E2]. rewrite length_insert in E1. simpl. auto.
Qed.

Lemma replace_loop_Some rows : forall i new texts,
  (forall r, r ∈ rows -> r < length texts) ->
  i + length rows <= length new ->
  exists origs texts', replace_loop i rows new texts = Some (origs, texts').
Proof.
  induction rows as [|row rows IH]; intros i new texts Hin Hlen; simpl.
  - eauto.
  - destruct (lookup_lt_is_Some_2 texts row) as [o Ho]; [apply Hin; left|].
    destruct (lookup_lt_is_Some_2 new i) as [n Hn]; [simpl in Hlen; lia|].
    rewrite Ho, Hn. simpl.
    destruct (IH (S i) new (<[row:=n]> texts)) as (os & ts & E).
    + intros r Hr. rewrite length_insert. apply Hin. right. exact Hr.
    + simpl in Hlen. lia.
    + rewrite E. simpl. eauto.
Qed.

(** A write to a row that is not replaced commutes with the loop. *)
Lemma replace_loop_insert rows : forall i new texts origs texts' r v,
  r ∉ rows ->
  replace_loop i rows new texts = Some (origs, texts') ->
  replace_loop i rows new (<[r:=v]> texts) = Some (origs, <[r:=v]> texts').
Proof.
  induction rows as [|row rows IH]; intros i new texts origs texts' r v Hr H;
    simpl in *.
  - inversion H; subst. reflexivity.
  - apply not_elem_of_cons in Hr as [Hne Hr].
    rewrite list_lookup_insert_ne by assumption.
    destruct (texts !! row) as [o|]; [|discriminate]. simpl in *.
    destruct (new !! i) as [n|]; [|discriminate]. simpl in *.
    destruct (replace_loop (S i) rows new (<[row:=n]> texts)) as [[os ts]|] eqn:E;
      [|discriminate].
    simpl in H. inversion H; subst.
    rewrite (list_insert_insert_ne texts row r n v) by congruence.
    rewrite (IH _ _ _ _ _ r v Hr E). reflexivity.
Qed.

(** What the loop leaves in the array, for distinct rows. *)
Lemma replace_loop_lookup rows : forall i new texts origs texts',
  NoDup rows ->
  replace_loop i rows new texts = Some (origs, texts') ->
  (forall m row, rows !! m = Some row -> texts' !! row = new !! (i + m)) /\
  (forall k, k ∉ rows -> texts' !! k = texts !! k).
Proof.
  induction rows as [|row rows IH]; intros i new texts origs texts' Hnd H;
    simpl in H.
  - inversion H; subst. split; [intros m row Hm; inversion Hm|auto].
  - apply NoDup_cons in Hnd as [Hnin Hnd].
    destruct (texts !! row) as [o|] eqn:Ho; [|discriminate]. simpl in H.
    destruct (new !! i) as [n|] eqn:Hn; [|discriminate]. simpl in H.
    destruct (replace_loop (S i) rows new (<[row:=n]> texts)) as [[os ts]|] eqn:E;
      [|discriminate].
    simpl in H. inversion H; subst.
    destruct (IH _ _ _ _ _ Hnd E) as [L1 L2]. split.
    + intros [|m] r Hm; simpl in Hm.
      * inversion Hm; subst. rewrite (L2 r Hnin).
        rewrite list_lookup_insert_eq by (eapply lookup_lt_Some; eauto).
        rewrite Nat.add_0_r. auto.
      * rewrite (L1 m r Hm). f_equal. lia.
    + intros k Hk. apply not_elem_of_cons in Hk as [Hne Hk].
      rewrite (L2 k Hk). apply list_lookup_insert_ne. congruence.
Qed.

(** Replacing the texts of distinct rows and then replacing them again by
    the original texts the first loop returned restores the array. *)
Lemma replace_loop_roundtrip rows : forall i new texts origs texts' pad,
  NoDup rows ->
  replace_loop i rows new texts = Some (origs, texts') ->
  exists news,
    replace_loop (length pad) rows (pad ++ origs) texts' = Some (news, texts).
Proof.
  induction rows as [|row rows IH]; intros i new texts origs texts' pad Hnd H;
    simpl in H.
  - inversion H; subst. simpl. eauto.
  - apply NoDup_cons in Hnd as [Hnin Hnd].
    destruct (texts !! row) as [o|] eqn:Ho; [|discriminate]. simpl in H.
    destruct (new !! i) as [n|] eqn:Hn; [|discriminate]. simpl in H.
    destruct (replace_loop (S i) rows new (<[row:=n]> texts)) as [[os ts]|] eqn:E;
      [|discriminate].
    simpl in H. inversion H; subst.
    assert (Hrow : row < length texts) by (eapply lookup_lt_Some; eauto).
    destruct (replace_loop_lookup _ _ _ _ _ _ Hnd E) as [_ L2].
    simpl. rewrite (L2 row Hnin), list_lookup_insert_eq by assumption. simpl.
    rewrite lookup_app_r by lia. rewrite Nat.sub_diag. simpl.
    destruct (IH _ _ _ _ _ (pad ++ [o]) Hnd E) as (news & R).
    rewrite length_app in R. simpl in R. rewrite <- app_assoc in R. simpl in R.
    replace (length pad + 1) with (S (length pad)) in R by lia.
    rewrite (replace_loop_insert _ _ _ _ _ _ row o Hnin R). simpl.
    rewrite list_insert_insert_eq, list_insert_id by assumption.
    eauto.
Qed.

(** ** The rows and texts of a paste *)

Lemma pasted_spec start data : forall i,
  let rows := (pasted i start data).1 in
  let news := (pasted i start data).2 in
  length news = length rows /\
  StronglySorted lt rows /\
  (forall r, r ∈ rows -> start + i <= r < start + i + length data) /\
  (forall j v, data !! j = Some (Some v) ->
     exists m, rows !! m = Some (start + (i + j)) /\ news !! m = Some v) /\
  (forall r, r ∈ rows ->
     exists j v, r = start + (i + j) /\ data !! j = Some (Some v)).
Proof.
  induction data as [|value data IH]; intros i; simpl.
  - split; [reflexivity|]. split; [constructor|].
    split; [intros r Hr; inversion Hr|].
    split; [intros j v Hj; inversion Hj|intros r Hr; inversion Hr].
  - specialize (IH (S i)). simpl in IH.
    destruct (pasted (S i) start data) as [rows news] eqn:E. simpl in IH.
    destruct IH as (I1 & I2 & I3 & I4 & I5).
    destruct value as [v0|]; simpl.
    + split; [lia|]. split.
      { constructor; [assumption|]. apply Forall_forall. intros r Hr.
        specialize (I3 r Hr). lia. }
      split.
      { intros r [->|Hr]%elem_of_cons; [lia|]. specialize (I3 r Hr). lia. }
      split.
      { intros [|j] v Hj; simpl in Hj.
        - inversion Hj; subst. exists 0. rewrite Nat.add_0_r. auto.
        - destruct (I4 j v Hj) as (m & M1 & M2). exists (S m). simpl.
          replace (start + (i + S j)) with (start + (S i + j)) by lia. auto. }
      intros r [->|Hr]%elem_of_cons.
      { exists 0, v0. rewrite Nat.add_0_r. auto. }
      destruct (I5 r Hr) as (j & v & -> & Hj). exists (S j), v.
      split; [lia|exact Hj].
    + split; [assumption|]. split; [assumption|].
      split; [intros r Hr; specialize (I3 r Hr); lia|]. split.
      { intros [|j] v Hj; simpl in Hj; [discriminate|].
        destruct (I4 j v Hj) as (m & M1 & M2). exists m.
        replace (start + (i + S j)) with (start + (S i + j)) by lia. auto. }
      intros r Hr. destruct (I5 r Hr) as (j & v & -> & Hj). exists (S j), v.
      split; [lia|exact Hj].
Qed.

Lemma StronglySorted_lt_NoDup (l : list nat) : StronglySorted lt l -> NoDup l.
Proof.
  induction 1 as [|x l Hl IH Hx]; [constructor|].
  apply NoDup_cons. split; [|assumption].
  intros Hin. rewrite Forall_forall in Hx. specialize (Hx x Hin). lia.
Qed.

(** ** Blank subtitles at the end *)

Section BlankAtEnd.
Context {F : FloatOps} (calc : Calculator F).

Lemma insert_blank_loop_end blank start k : forall i p,
  parallel p -> start + i = length (times p) ->
  insert_blank_loop blank start (seq i k) p
  = extended (map (fun j => (blank j).1) (seq i k))
      (map (fun j => (blank j).2) (seq i k)) k p.
Proof.
  induction k as [|k IH]; intros i p Hpar Hi.
  - simpl. unfold extended. simpl. rewrite !app_nil_r. destruct p; reflexivity.
  - destruct Hpar as (Hlf & Hlm & Hlt).
    cbn [seq insert_blank_loop]. rewrite IH.
    + unfold extended. destruct p as [ts fs ms trs mf cb un re bl].
      simpl in *. rewrite Hi.
      assert (Hend : forall B (l : list B) (x : B),
                length l = length ts -> Py.insert (length ts) x l = l ++ [x]).
      { intros B l x <-. apply insert_at_end. }
      rewrite !Hend by auto. simpl. rewrite <- !app_assoc. reflexivity.
    + unfold parallel. simpl. rewrite !insert_length. lia.
    + simpl. rewrite insert_length. lia.
Qed.

Lemma min_seq n k : Py.min (seq n (S k)) = Some n.
Proof.
  simpl. f_equal.
  assert (H : forall m, n <= m -> foldr Nat.min n (seq m k) = n).
  { induction k as [|k IH]; intros m Hm; simpl; [reflexivity|].
    rewrite IH by lia. lia. }
  apply H. lia.
Qed.

Lemma seq_StronglySorted n k : StronglySorted lt (seq n k).
Proof.
  revert n. induction k as [|k IH]; intros n; simpl; constructor; [apply IH|].
  apply Forall_forall. intros x Hx. apply list_elem_of_In, in_seq in Hx. lia.
Qed.

Lemma sorted_seq n k : Py.sorted (seq n k) = seq n k.
Proof.
  apply sorted_of_sorted.
  revert n. induction k as [|k IH]; intros n; simpl; constructor; [apply IH|].
  apply Forall_forall. intros x Hx. apply list_elem_of_In, in_seq in Hx. lia.
Qed.

(** [_insert_blank] on the rows that follow the last row appends blank
    subtitles. *)
Lemma _insert_blank_end k (p : Project) :
  parallel p ->
  exists ts fs,
    length ts = S k /\ length fs = S k /\
    _insert_blank calc (seq (length (times p)) (S k)) p
    = Some (extended ts fs (S k) p).
Proof.
  intros Hpar. pose proof Hpar as (Hlf & Hlm & Hlt).
  unfold _insert_blank. rewrite min_seq. cbn [mbind option_bind].
  rewrite length_seq, Nat.ltb_irrefl.
  assert (Hprev_t : 0 < length (times p) ->
                    is_Some (times p !! (length (times p) - 1))).
  { intros. apply lookup_lt_is_Some_2. lia. }
  assert (Hprev_f : 0 < length (times p) ->
                    is_Some (frames p !! (length (times p) - 1))).
  { intros. apply lookup_lt_is_Some_2. lia. }
  destruct (get_mode p).
  - destruct (0 <? length (times p)) eqn:E.
    + apply Nat.ltb_lt in E. destruct (Hprev_t E) as [pos Hpos].
      rewrite Hpos. cbn [mbind option_bind].
      rewrite insert_blank_loop_end by (auto; lia).
      eexists _, _. split; [|split; [|reflexivity]];
        rewrite length_map, length_seq; reflexivity.
    + cbn [mbind option_bind].
      rewrite insert_blank_loop_end by (auto; lia).
      eexists _, _. split; [|split; [|reflexivity]];
        rewrite length_map, length_seq; reflexivity.
  - destruct (0 <? length (times p)) eqn:E.
    + apply Nat.ltb_lt in E. destruct (Hprev_f E) as [pos Hpos].
      rewrite Hpos. cbn [mbind option_bind].
      rewrite insert_blank_loop_end by (auto; lia).
      eexists _, _. split; [|split; [|reflexivity]];
        rewrite length_map, length_seq; reflexivity.
    + cbn [mbind option_bind].
      rewrite insert_blank_loop_end by (auto; lia).
      eexists _, _. split; [|split; [|reflexivity]];
        rewrite length_map, length_seq; reflexivity.
Qed.
End BlankAtEnd.

(** ** Pasting texts *)

Lemma replace_texts_Some rows document new_texts reg p origs l :
  replace_loop 0 rows new_texts (texts_of document p) = Some (origs, l) ->
  replace_texts rows document new_texts reg p
  = Some (register_action (replacing_action reg rows document origs)
            (set_texts document l p)).
Proof.
  intros H. unfold replace_texts. destruct document; simpl in *; rewrite H;
    reflexivity.
Qed.

Lemma omit_from_all {A} (e : list A) rows : forall i,
  (forall j, i <= j < i + length e -> j ∈ rows) -> omit_from i rows e = [].
Proof.
  induction e as [|x e IH]; intros i H; simpl; [reflexivity|].
  rewrite bool_decide_eq_true_2 by (apply H; simpl; lia).
  apply IH. intros j Hj. apply H. simpl. lia.
Qed.

Lemma omit_appended {A} n (l e : list A) k :
  length l = n -> length e <= k -> omit (seq n k) (l ++ e) = l.
Proof.
  intros <- Hk. unfold omit. rewrite omit_from_app. simpl.
  rewrite (omit_from_ext 0 (seq (length l) k) [] l).
  2:{ intros j Hj. split; intros Hin.
      - apply list_elem_of_In, in_seq in Hin. lia.
      - inversion Hin. }
  rewrite (omit_from_none 0 [] l) by (intros r Hr; inversion Hr).
  rewrite omit_from_all; [apply app_nil_r|].
  intros j Hj. apply list_elem_of_In, in_seq. lia.
Qed.

Lemma replace_pasted start_row data before after origs :
  let rows := (pasted 0 start_row data).1 in
  let news := (pasted 0 start_row data).2 in
  replace_loop 0 rows news before = Some (origs, after) ->
  pasted_over start_row data before after.
Proof.
  intros rows news H.
  destruct (pasted_spec start_row data 0) as (P1 & P2 & P3 & P4 & P5).
  fold rows news in P1, P2, P3, P4, P5.
  pose proof (StronglySorted_lt_NoDup rows P2) as Hnd.
  destruct (replace_loop_lookup rows 0 news before origs after Hnd H) as [L1 L2].
  destruct (replace_loop_length rows 0 news before origs after H) as [Hlen _].
  split; [exact Hlen|]. split.
  - intros i v Hi. destruct (P4 i v Hi) as (m & M1 & M2).
    simpl in M1. rewrite (L1 m _ M1). exact M2.
  - intros r Hr. apply L2. intros Hin.
    destruct (P5 r Hin) as (j & v & -> & Hj). apply (Hr j v Hj). reflexivity.
Qed.

Section PasteTexts.
Context {F : FloatOps} (calc : Calculator F).

Lemma insert_subtitles_end k reg (p : Project) :
  parallel p ->
  exists ts fs,
    length ts = S k /\ length fs = S k /\
    insert_subtitles calc (seq (length (times p)) (S k)) None None None None
      reg p
    = Some (register_action
              (inserting_action reg (seq (length (times p)) (S k)))
              (extended ts fs (S k) p)).
Proof.
  intros Hpar. destruct (_insert_blank_end calc k p Hpar) as (ts & fs & H1 & H2 & H).
  exists ts, fs. split; [assumption|]. split; [assumption|].
  unfold insert_subtitles. rewrite sorted_seq, H. reflexivity.
Qed.

(** Removing the rows that were added at the end gives back the
    arrays. *)
Lemma remove_subtitles_end k (u : Project) ts0 fs0 ms0 trs0 ts fs ms trs :
  times u = ts0 ++ ts -> frames u = fs0 ++ fs ->
  main_texts u = ms0 ++ ms -> tran_texts u = trs0 ++ trs ->
  length fs0 = length ts0 -> length ms0 = length ts0 ->
  length trs0 = length ts0 ->
  length ts = k -> length fs = k -> length ms = k -> length trs = k ->
  exists a u',
    remove_subtitles (seq (length ts0) k) UNDO u = Some u' /\
    arrays u' = (ts0, fs0, ms0, trs0) /\
    undoables u' = undoables u /\
    redoables u' = Single a :: redoables u.
Proof.
  intros E1 E2 E3 E4 L2 L3 L4 K1 K2 K3 K4.
  assert (Hpar : parallel u).
  { unfold parallel. rewrite E1, E2, E3, E4, !length_app. lia. }
  assert (Hrange : forall r, r ∈ seq (length ts0) k -> r < length (times u)).
  { intros r Hr. apply list_elem_of_In, in_seq in Hr.
    rewrite E1, length_app. lia. }
  pose proof (remove_subtitles_Some (seq (length ts0) k) UNDO u Hpar
                (StronglySorted_lt_NoDup _ (seq_StronglySorted _ k)) Hrange)
    as H.
  cbv zeta in H. rewrite sorted_seq in H.
  eexists _, _. split; [exact H|].
  rewrite E1, E2, E3, E4.
  rewrite (omit_appended (length ts0) ts0 ts k) by lia.
  rewrite (omit_appended (length ts0) fs0 fs k) by lia.
  rewrite (omit_appended (length ts0) ms0 ms k) by lia.
  rewrite (omit_appended (length ts0) trs0 trs k) by lia.
  destruct u; split; [reflexivity|]. split; reflexivity.
Qed.

Lemma paste_texts_extends start_row document (p : Project) k :
  parallel p ->
  start_row + length (clipboard p) = length (times p) + S k ->
  let rows := (pasted 0 start_row (clipboard p)).1 in
  exists ts fs l origs p' p'',
    length ts = S k /\ length fs = S k /\
    paste_texts calc start_row document DO p = Some (rows, p') /\
    times p' = times p ++ ts /\ frames p' = frames p ++ fs /\
    texts_of (other_document document) p'
    = texts_of (other_document document) p ++ replicate (S k) EmptyString /\
    texts_of document p' = l /\
    pasted_over start_row (clipboard p)
      (texts_of document p ++ replicate (S k) EmptyString) l /\
    undoables p'
    = Group "Pasting texts"
        [replacing_action DO rows document origs;
         inserting_action DO (seq (length (times p)) (S k))]
        :: undoables p /\
    undo calc p' = Some p'' /\
    arrays p'' = arrays p /\ undoables p'' = undoables p.
Proof.
  intros Hpar Hlen rows.
  pose proof Hpar as (Hlf & Hlm & Hlt).
  set (n := length (times p)) in *.
  set (data := clipboard p) in *.
  set (news := (pasted 0 start_row data).2).
  assert (Hpar0 : parallel (block DO p)) by exact Hpar.
  destruct (insert_subtitles_end k DO (block DO p) Hpar0)
    as (ts & fs & Hts & Hfs & Hins).
  change (length (times (block DO p))) with n in Hins.
  set (q := extended ts fs (S k) (block DO p)) in *.
  set (p1 := register_action (inserting_action DO (seq n (S k))) q) in *.
  destruct (pasted_spec start_row data 0) as (P1 & P2 & P3 & P4 & P5).
  fold rows news in P1, P2, P3, P4, P5.
  assert (Htx : texts_of document p1
                = texts_of document p ++ replicate (S k) EmptyString).
  { destruct document; reflexivity. }
  destruct (replace_loop_Some rows 0 news (texts_of document p1))
    as (origs & l & Hrep).
  { intros r Hr. specialize (P3 r Hr). rewrite Htx, length_app, length_replicate.
    fold data in Hlen. destruct document; simpl; lia. }
  { simpl. lia. }
  pose proof (replace_texts_Some rows document news DO p1 origs l Hrep) as Hrt.
  set (p2 := register_action (replacing_action DO rows document origs)
               (set_texts document l p1)) in *.
  (* the paste itself *)
  assert (Hamount :
    (Z.of_nat (length data) - (Z.of_nat n - Z.of_nat start_row))%Z
    = Z.of_nat (S k)) by lia.
  assert (Hpaste : exists p',
    paste_texts calc start_row document DO p = Some (rows, p') /\
    group_actions DO 2 "Pasting texts" (unblock DO p2) = Some p').
  { unfold paste_texts. fold data n. rewrite Hamount.
    replace (0 <? Z.of_nat (S k))%Z with true by (symmetry; apply Z.ltb_lt; lia).
    rewrite Nat2Z.id. unfold Py.range.
    replace (n + S k - n) with (S k) by lia.
    unfold get_signal. rewrite Hins. cbn [mbind option_bind].
    fold p1. rewrite (surjective_pairing (pasted 0 start_row data)).
    fold rows news. rewrite Hrt. cbn [mbind option_bind]. fold p2.
    destruct p as [a1 a2 a3 a4 a5 a6 a7 a8 a9].
    destruct document; simpl; eexists; split; reflexivity. }
  destruct Hpaste as (p' & Hp' & Hgroup).
  (* the four arrays and the undo stack after the paste *)
  assert (Hfields :
    times p' = times p ++ ts /\ frames p' = frames p ++ fs /\
    texts_of (other_document document) p'
    = texts_of (other_document document) p ++ replicate (S k) EmptyString /\
    texts_of document p' = l /\
    undoables p'
    = Group "Pasting texts"
        [replacing_action DO rows document origs;
         inserting_action DO (seq n (S k))] :: undoables p /\
    main_file p' = main_file p).
  { destruct p as [a1 a2 a3 a4 a5 a6 a7 a8 a9].
    destruct document; simpl in Hgroup; inversion Hgroup; subst p';
      simpl; auto 10. }
  destruct Hfields as (F1 & F2 & F3 & F4 & F5 & F6).
  (* undoing the group *)
  destruct (replace_loop_roundtrip rows 0 news (texts_of document p1) origs l []
              (StronglySorted_lt_NoDup rows P2) Hrep) as (news' & Hback).
  simpl in Hback. rewrite Htx in Hback.
  set (u0 := set_undoables (undoables p) p').
  assert (Hu0 : texts_of document u0 = l) by (destruct document; exact F4).
  rewrite <- Hu0 in Hback.
  pose proof (replace_texts_Some rows document origs UNDO u0 news' _ Hback) as Hr1.
  set (u1 := register_action (replacing_action UNDO rows document news')
               (set_texts document
                  (texts_of document p ++ replicate (S k) EmptyString) u0)) in *.
  assert (Hu1 :
    times u1 = times p ++ ts /\ frames u1 = frames p ++ fs /\
    main_texts u1 = main_texts p ++ replicate (S k) EmptyString /\
    tran_texts u1 = tran_texts p ++ replicate (S k) EmptyString /\
    undoables u1 = undoables p /\
    redoables u1
    = Single (replacing_action UNDO rows document news') :: redoables p').
  { unfold u1, u0. destruct p' as [b1 b2 b3 b4 b5 b6 b7 b8 b9].
    destruct document; simpl in *; subst; auto 10. }
  destruct Hu1 as (U1 & U2 & U3 & U4 & U5 & U6).
  destruct (remove_subtitles_end (S k) u1 (times p) (frames p) (main_texts p)
              (tran_texts p) ts fs (replicate (S k) EmptyString)
              (replicate (S k) EmptyString) U1 U2 U3 U4 Hlf Hlm Hlt Hts Hfs
              (length_replicate _ _) (length_replicate _ _))
    as (a2 & u2 & Hr2 & A2 & Un2 & Re2).
  fold n in Hr2.
  assert (Hundo : exists p'',
    undo calc p' = Some p'' /\ arrays p'' = arrays u2 /\
    undoables p'' = undoables u2).
  { unfold undo. rewrite F5. cbn [revert_entry revert_actions].
    fold u0. cbn [revert replacing_action inserting_action run_command].
    rewrite Hr1. cbn [mbind option_bind]. fold u1.
    rewrite Hr2. cbn [mbind option_bind].
    unfold group_actions. cbn [destination_stack length].
    rewrite Re2, U6. cbn [length Nat.leb].
    eexists. split; [reflexivity|]. destruct u2; split; reflexivity. }
  destruct Hundo as (p'' & Hundo & A3 & Un3).
  exists ts, fs, l, origs, p', p''.
  split; [exact Hts|]. split; [exact Hfs|]. split; [exact Hp'|].
  split; [exact F1|]. split; [exact F2|]. split; [exact F3|].
  split; [exact F4|]. split.
  { rewrite <- Htx. apply (replace_pasted start_row data _ l origs). exact Hrep. }
  split; [exact F5|]. split; [exact Hundo|].
  split; [rewrite A3; exact A2|]. rewrite Un3, Un2. exact U5.
Qed.

Lemma set_action_description_registered a label (q : Project) :
  register a = DO ->
  exists q',
    set_action_description DO label (register_action a q) = Some q' /\
    times q' = times q /\ frames q' = frames q /\
    main_texts q' = main_texts q /\ tran_texts q' = tran_texts q /\
    undoables q' = Single (set_description label a) :: undoables q.
Proof.
  intros Ha. unfold set_action_description, register_action. rewrite Ha.
  destruct (is_blocked DO q); destruct q; simpl;
    (eexists; split; [reflexivity|]); simpl; auto 10.
Qed.

Lemma paste_texts_fits start_row document (p : Project) :
  parallel p ->
  start_row + length (clipboard p) <= length (times p) ->
  let rows := (pasted 0 start_row (clipboard p)).1 in
  exists l origs p',
    paste_texts calc start_row document DO p = Some (rows, p') /\
    times p' = times p /\ frames p' = frames p /\
    texts_of (other_document document) p'
    = texts_of (other_document document) p /\
    texts_of document p' = l /\
    pasted_over start_row (clipboard p) (texts_of document p) l /\
    undoables p'
    = Single (set_description "Pasting texts"
                (replacing_action DO rows document origs)) :: undoables p.
Proof.
  intros Hpar Hlen rows.
  pose proof Hpar as (Hlf & Hlm & Hlt).
  set (n := length (times p)) in *.
  set (data := clipboard p) in *.
  set (news := (pasted 0 start_row data).2).
  destruct (pasted_spec start_row data 0) as (P1 & P2 & P3 & P4 & P5).
  fold rows news in P1, P2, P3, P4, P5.
  destruct (replace_loop_Some rows 0 news (texts_of document p))
    as (origs & l & Hrep).
  { intros r Hr. specialize (P3 r Hr). destruct document; simpl; lia. }
  { simpl. lia. }
  pose proof (replace_texts_Some rows document news DO p origs l Hrep) as Hrt.
  exists l, origs.
  assert (Hamount :
    (0 <? Z.of_nat (length data) - (Z.of_nat n - Z.of_nat start_row))%Z = false)
    by (apply Z.ltb_ge; lia).
  unfold paste_texts. fold data n. rewrite Hamount. cbn [mbind option_bind].
  rewrite (surjective_pairing (pasted 0 start_row data)).
  fold rows news. rewrite Hrt. cbn [mbind option_bind].
  pose proof (replace_pasted start_row data _ l origs Hrep) as Hover.
  destruct (set_action_description_registered
              (replacing_action DO rows document origs) "Pasting texts"
              (set_texts document l p) eq_refl)
    as (p' & Hd & D1 & D2 & D3 & D4 & D5).
  rewrite Hd. cbn [mbind option_bind]. exists p'.
  split; [reflexivity|].
  split; [rewrite D1; destruct document; reflexivity|].
  split; [rewrite D2; destruct document; reflexivity|].
  split; [destruct document; simpl in *; congruence|].
  split; [destruct document; simpl in *; congruence|].
  split; [exact Hover|].
  rewrite D5. destruct document; reflexivity.
Qed.

(** C8. Pasting the clipboard at a start row of a project with parallel
    arrays. If the buffer reaches beyond the last row, [paste_texts]
    first adds exactly the missing number of blank rows at the end of
    the four arrays, then overwrites the texts of the document at the
    offsets whose buffer entry is not [None] and leaves every other text
    as it is; the two registered actions, replacing texts and inserting
    subtitles, are one group on the undo stack, and a single [undo]
    restores the four arrays and the undo stack. If the buffer fits, no
    row is added, the texts are overwritten in the same way, and the one
    action registered is the replacement of the texts. *)
Theorem paste_texts_is_one_undoable_unit start_row document (p : Project) :
  parallel p ->
  let n := length (times p) in
  let data := clipboard p in
  let rows := (pasted 0 start_row data).1 in
  (n < start_row + length data ->
   let amount := start_row + length data - n in
   exists ts fs origs p' p'',
     paste_texts calc start_row document DO p = Some (rows, p') /\
     length ts = amount /\ length fs = amount /\
     times p' = times p ++ ts /\ frames p' = frames p ++ fs /\
     texts_of (other_document document) p'
     = texts_of (other_document document) p ++ replicate amount EmptyString /\
     pasted_over start_row data
       (texts_of document p ++ replicate amount EmptyString)
       (texts_of document p') /\
     undoables p'
     = Group "Pasting texts"
         [replacing_action DO rows document origs;
          inserting_action DO (Py.range n (n + amount))] :: undoables p /\
     undo calc p' = Some p'' /\
     arrays p'' = arrays p /\ undoables p'' = undoables p) /\
  (start_row + length data <= n ->
   exists origs p',
     paste_texts calc start_row document DO p = Some (rows, p') /\
     times p' = times p /\ frames p' = frames p /\
     texts_of (other_document document) p'
     = texts_of (other_document document) p /\
     pasted_over start_row data (texts_of document p) (texts_of document p') /\
     undoables p'
     = Single (set_description "Pasting texts"
                 (replacing_action DO rows document origs)) :: undoables p).
Proof.
  intros Hpar n data rows. split.
  - intros Hlt amount.
    destruct amount as [|k] eqn:Hk; [unfold amount in Hk; lia|].
    destruct (paste_texts_extends start_row document p k Hpar)
      as (ts & fs & l & origs & p' & p'' & H1 & H2 & H3 & H4 & H5 & H6 & H7
          & H8 & H9 & H10 & H11 & H12).
    { fold n data. unfold amount in Hk. lia. }
    exists ts, fs, origs, p', p''. rewrite H7. unfold Py.range.
    replace (n + S k - n) with (S k) by lia.
    repeat (split; [assumption|]). assumption.
  - intros Hle.
    destruct (paste_texts_fits start_row document p Hpar Hle)
      as (l & origs & p' & H1 & H2 & H3 & H4 & H5 & H6 & H7).
    exists origs, p'. rewrite H5.
    repeat (split; [assumption|]). assumption.
Qed.
End PasteTexts.

(** ** Resorting keeps the show values in order *)

Section Order.
Context {A : Type} (ltb : A -> A -> bool) (Hord : StrictTotal ltb).

(** Whatever the order of the list, [bisect_right] stops behind an element
    that is not greater than [x] and before one that is. *)
Lemma bisect_loop_neighbours n (a : list A) x : forall lo hi,
  hi - lo <= n -> lo <= hi -> hi <= length a ->
  (forall y, lo <> 0 -> a !! (lo - 1) = Some y -> ltb x y = false) ->
  (forall y, a !! hi = Some y -> ltb x y = true) ->
  let k := bisect_loop ltb n a x lo hi in
  (forall y, k <> 0 -> a !! (k - 1) = Some y -> ltb x y = false) /\
  (forall y, a !! k = Some y -> ltb x y = true).
Proof.
  induction n as [|n IH]; intros lo hi Hn Hle Hhi Hlo Hup.
  { simpl. assert (lo = hi) by lia. subst. auto. }
  rewrite bisect_loop_S.
  destruct (lo <? hi) eqn:Hlt.
  2:{ apply Nat.ltb_ge in Hlt. assert (lo = hi) by lia. subst. auto. }
  apply Nat.ltb_lt in Hlt.
  assert (Hmid : lo <= (lo + hi) / 2 < hi).
  { split; [apply Nat.div_le_lower_bound; lia|apply Nat.Div0.div_lt_upper_bound; lia]. }
  set (mid := (lo + hi) / 2) in *.
  destruct (lookup_lt_is_Some_2 a mid) as [y Hy]; [lia|].
  rewrite Hy. destruct (ltb x y) eqn:Hxy.
  - apply IH; auto; try lia. intros z Hz. congruence.
  - apply IH; auto; try lia. intros z _ Hz.
    replace (mid + 1 - 1) with mid in Hz by lia. congruence.
Qed.

Lemma bisect_right_neighbours (a : list A) x :
  let k := bisect_right ltb a x in
  (forall y, k <> 0 -> a !! (k - 1) = Some y -> ltb x y = false) /\
  (forall y, a !! k = Some y -> ltb x y = true).
Proof.
  unfold bisect_right. apply bisect_loop_neighbours; try lia.
  intros y Hy. apply lookup_lt_Some in Hy. lia.
Qed.

Lemma insert_lookup_lt i j (x : A) l :
  i <= length l -> j < i -> Py.insert i x l !! j = l !! j.
Proof.
  intros Hi Hj. unfold Py.insert.
  rewrite lookup_app_l by (rewrite length_take; lia).
  apply lookup_take_lt. lia.
Qed.

Lemma insert_lookup_gt i j (x : A) l :
  i <= length l -> i < j -> Py.insert i x l !! j = l !! (j - 1).
Proof.
  intros Hi Hj. unfold Py.insert.
  rewrite lookup_app_r by (rewrite length_take; lia).
  rewrite length_take. replace (i `min` length l) with i by lia.
  destruct (j - i) as [|d] eqn:E; [lia|]. simpl.
  rewrite lookup_drop. f_equal. lia.
Qed.

Lemma ascending_le (s : list A) i j y z :
  ascending ltb s -> i <= j -> s !! i = Some y -> s !! j = Some z ->
  ltb z y = false.
Proof.
  intros Hs Hij Hy Hz. destruct (decide (i = j)) as [->|Hne].
  - assert (y = z) by congruence. subst. apply (st_irrefl ltb Hord).
  - apply (Hs i j y z); auto. lia.
Qed.

(** Inserting a value between a neighbour that is not greater and a
    neighbour that is not smaller keeps a list in order. *)
Lemma ascending_insert (s : list A) v k :
  ascending ltb s -> k <= length s ->
  (forall y, k <> 0 -> s !! (k - 1) = Some y -> ltb v y = false) ->
  (forall y, s !! k = Some y -> ltb y v = false) ->
  ascending ltb (Py.insert k v s).
Proof.
  intros Hs Hk Hbefore Hafter i j y z Hij Hy Hz.
  pose proof (StrictTotal_negtrans ltb Hord) as Hnt.
  destruct (lt_eq_lt_dec i k) as [[Hi| ->]|Hi];
    destruct (lt_eq_lt_dec j k) as [[Hj| ->]|Hj]; try lia.
  - rewrite insert_lookup_lt in Hy, Hz by lia. apply (Hs i j); auto.
  - rewrite insert_lookup_lt in Hy by lia.
    rewrite insert_lookup in Hz by lia. inversion Hz; subst z.
    destruct (lookup_lt_is_Some_2 s (k - 1)) as [w Hw]; [lia|].
    apply (Hnt v w y).
    + apply Hbefore; auto. lia.
    + apply (ascending_le s i (k - 1)); auto. lia.
  - rewrite insert_lookup_lt in Hy by lia.
    rewrite insert_lookup_gt in Hz by lia.
    apply (Hs i (j - 1)); auto. lia.
  - rewrite insert_lookup in Hy by lia. inversion Hy; subst y.
    rewrite insert_lookup_gt in Hz by lia.
    assert (Hj1 : j - 1 < length s) by (eapply lookup_lt_Some; eauto).
    destruct (lookup_lt_is_Some_2 s k) as [w Hw]; [lia|].
    apply (Hnt z w v).
    + apply (ascending_le s k (j - 1)); auto. lia.
    + apply Hafter; auto.
  - rewrite insert_lookup_gt in Hy, Hz by lia.
    apply (Hs (i - 1) (j - 1)); auto. lia.
Qed.

Lemma ascending_without (s : list A) row :
  ascending ltb s -> ascending ltb (Py.without row s).
Proof.
  intros Hs i j y z Hij. rewrite !without_delete, !list_lookup_delete.
  repeat case_decide; intros Hy Hz.
  - apply (Hs i j); auto.
  - apply (Hs i (S j)); auto.
  - lia.
  - apply (Hs (S i) (S j)); auto. lia.
Qed.

End Order.

Section OrderOfShows.
Context {A : Type} (ltb : A -> A -> bool) (Hord : StrictTotal ltb).

(** Where [bisect_right] on the full positions puts a row, the show
    values stay in order. *)
Lemma resort_keeps_shows_in_order (l : list (Position A)) row x :
  ascending ltb (show <$> l) ->
  ascending ltb
    (show <$> Py.insert (bisect_right (lex3 ltb) (Py.without row l) x) x
                (Py.without row l)).
Proof.
  intros Hl. set (a := Py.without row l). set (k := bisect_right (lex3 ltb) a x).
  assert (Hfm : show <$> Py.insert k x a = Py.insert k (show x) (show <$> a)).
  { unfold Py.insert. rewrite fmap_app, fmap_cons, fmap_take, fmap_drop.
    reflexivity. }
  rewrite Hfm.
  destruct (bisect_right_neighbours (lex3 ltb) a x) as [Hb Ha]. fold k in Hb, Ha.
  apply (ascending_insert ltb Hord).
  - unfold a, Py.without. rewrite fmap_app, fmap_take, fmap_drop.
    apply (ascending_without ltb (show <$> l) row Hl).
  - rewrite length_fmap. apply bisect_right_le.
  - intros y Hk Hy. rewrite list_lookup_fmap in Hy.
    destruct (a !! (k - 1)) as [q|] eqn:Hq; [|discriminate].
    simpl in Hy. inversion Hy; subst y.
    specialize (Hb q Hk eq_refl). unfold lex3 in Hb.
    destruct (ltb (show x) (show q)); [discriminate|reflexivity].
  - intros y Hy. rewrite list_lookup_fmap in Hy.
    destruct (a !! k) as [q|] eqn:Hq; [|discriminate].
    simpl in Hy. inversion Hy; subst y.
    specialize (Ha q eq_refl). apply (lex3_true ltb Hord) in Ha.
    destruct Ha as [Hlt|[Heq _]].
    + destruct (ltb (show q) (show x)) eqn:E; [|reflexivity].
      pose proof (st_trans ltb Hord _ _ _ Hlt E) as C.
      rewrite (st_irrefl ltb Hord) in C. discriminate.
    + rewrite Heq. apply (st_irrefl ltb Hord).
Qed.
End OrderOfShows.

Section OrderOfEdits.
Context {F : FloatOps} (calc : Calculator F).

Lemma row_moved_shows_in_order col p row (t0 : Position time)
    (f0 : Position frame) t' f' r p' :
  times p !! row = Some t0 -> frames p !! row = Some f0 ->
  shows_in_order p ->
  row_moved p row t' f' r p' ->
  r = match col with SHOW => sorted_index p row t' f' | _ => row end ->
  (col <> SHOW -> show t' = show t0 /\ show f' = show f0) ->
  shows_in_order p'.
Proof.
  intros Ht Hf Hord (M1 & M2 & _ & _ & M5 & M6 & _ & _ & _ & M10 & _) Hr Hsh.
  assert (Ht' : times p' = Py.insert r t' (Py.without row (times p))).
  { rewrite <- M5. symmetry. apply insert_without. exact M1. }
  assert (Hf' : frames p' = Py.insert r f' (Py.without row (frames p))).
  { rewrite <- M6. symmetry. apply insert_without. exact M2. }
  unfold shows_in_order, get_mode in *. rewrite M10.
  destruct (decide (col = SHOW)) as [->|Hcol].
  - unfold sorted_index, get_mode in Hr.
    destruct (main_file p) as [[|]|]; rewrite ?Ht', ?Hf', Hr;
      first [apply (resort_keeps_shows_in_order String.ltb String_ltb_StrictTotal)
            |apply (resort_keeps_shows_in_order Z.ltb Z_ltb_StrictTotal)];
      exact Hord.
  - assert (Hrr : r = row) by (destruct col; congruence).
    clear Hr. subst r.
    destruct (Hsh Hcol) as [S1 S2].
    assert (E1 : show <$> times p' = show <$> times p).
    { rewrite Ht'. rewrite <- (insert_without row t0 (times p) Ht) at 2.
      unfold Py.insert. rewrite !fmap_app, !fmap_cons, S1. reflexivity. }
    assert (E2 : show <$> frames p' = show <$> frames p).
    { rewrite Hf'. rewrite <- (insert_without row f0 (frames p) Hf) at 2.
      unfold Py.insert. rewrite !fmap_app, !fmap_cons, S2. reflexivity. }
    rewrite E1, E2. exact Hord.
Qed.

(** X22. Every change of a position through [set_time] or [set_frame]
    leaves the show values of the authoritative array in non-decreasing
    order if they were before: a change of HIDE or DURATION leaves the
    show values as they are, and a change of SHOW re-establishes the order
    by resorting. *)
Lemma position_edits_keep_shows_in_order row col reg (p : Project) :
  parallel p -> shows_in_order p ->
  (forall value r p',
     set_time calc row col value reg p = Some (r, p') -> shows_in_order p') /\
  (forall value r p',
     set_frame calc row col value reg p = Some (r, p') -> shows_in_order p').
Proof.
  intros Hpar Hord. split; intros value r p' H.
  - assert (Hrow : is_Some (times p !! row)).
    { unfold set_time in H. destruct (times p !! row); [eauto|discriminate]. }
    destruct Hrow as [t0 Ht].
    destruct (lookup_lt_is_Some_2 (frames p) row) as [f0 Hf].
    { destruct Hpar as [-> _]. eapply lookup_lt_Some; eauto. }
    destruct (decide (value = getcol t0 col)) as [->|Hne].
    { rewrite (set_time_unchanged calc row col reg p t0 Ht) in H.
      inversion H; subst. exact Hord. }
    destruct (set_time_Some calc row col value reg p t0 f0 Hpar Ht Hf Hne)
      as (a & q & Hs & _ & _ & _ & _ & _ & _ & Hmv).
    rewrite Hs in H. inversion H; subst r p'.
    eapply (row_moved_shows_in_order col p row t0 f0); eauto.
    intros Hcol. destruct col, t0, f0; simpl; auto; congruence.
  - assert (Hrow : is_Some (frames p !! row)).
    { unfold set_frame in H. destruct (frames p !! row); [eauto|discriminate]. }
    destruct Hrow as [f0 Hf].
    destruct (lookup_lt_is_Some_2 (times p) row) as [t0 Ht].
    { destruct Hpar as [<- _]. eapply lookup_lt_Some; eauto. }
    destruct (decide (value = getcol f0 col)) as [->|Hne].
    { rewrite (set_frame_unchanged calc row col reg p f0 Hf) in H.
      inversion H; subst. exact Hord. }
    destruct (set_frame_Some calc row col value reg p t0 f0 Hpar Ht Hf Hne)
      as (a & q & Hs & _ & _ & _ & _ & _ & _ & Hmv).
    rewrite Hs in H. inversion H; subst r p'.
    eapply (row_moved_shows_in_order col p row t0 f0); eauto.
    intros Hcol. destruct col, t0, f0; simpl; auto; congruence.
Qed.
End OrderOfEdits.

(* ===================================================================== *)
(** * Further properties of the editing code, the converter and the pattern manager *)
(* ===================================================================== *)

(** ** Texts of a document *)

Lemma texts_of_set_texts document l p : texts_of document (set_texts document l p) = l.
Proof. by destruct document. Qed.

Lemma texts_of_set_texts_other document l p :
  texts_of (other_document document) (set_texts document l p)
  = texts_of (other_document document) p.
Proof. by destruct document. Qed.

Lemma positions_set_texts document l p :
  times (set_texts document l p) = times p /\
  frames (set_texts document l p) = frames p /\
  main_file (set_texts document l p) = main_file p /\
  clipboard (set_texts document l p) = clipboard p.
Proof. by destruct document. Qed.

Lemma texts_of_register_action document a p :
  texts_of document (register_action a p) = texts_of document p.
Proof.
  destruct (register_action_data a p) as (_ & _ & Hm & Ht & _).
  by destruct document.
Qed.

Lemma arrays_register_action a p : arrays (register_action a p) = arrays p.
Proof.
  destruct (register_action_data a p) as (H1 & H2 & H3 & H4 & _).
  unfold arrays. by rewrite H1, H2, H3, H4.
Qed.

Lemma arrays_texts p q :
  times q = times p -> frames q = frames p ->
  (forall document, texts_of document q = texts_of document p) ->
  arrays q = arrays p.
Proof.
  intros H1 H2 H3. unfold arrays.
  rewrite H1, H2. by rewrite (H3 MAIN : main_texts q = _), (H3 TRAN : tran_texts q = _).
Qed.

Lemma arrays_set_texts document l p q :
  arrays q = arrays p ->
  l = texts_of document p ->
  arrays (set_texts document l q) = arrays p.
Proof.
  unfold arrays. intros [= H1 H2 H3 H4] ->.
  destruct document; simpl; congruence.
Qed.

Lemma set_action_description_after_register a label (q : Project) :
  exists q',
    set_action_description (register a) label (register_action a q) = Some q' /\
    times q' = times q /\ frames q' = frames q /\
    main_texts q' = main_texts q /\ tran_texts q' = tran_texts q /\
    main_file q' = main_file q /\ clipboard q' = clipboard q /\
    destination_stack (register a) q'
    = Single (set_description label a) :: destination_stack (register a) q.
Proof.
  unfold set_action_description, register_action.
  destruct (register a); simpl.
  - destruct (is_blocked DO q); simpl; eexists; (split; [reflexivity |]); simpl; done.
  - eexists; (split; [reflexivity |]); simpl; done.
  - eexists; (split; [reflexivity |]); simpl; done.
Qed.

(* ------------------------------------------------------------------- *)
(** ** Replacing texts *)
(* ------------------------------------------------------------------- *)

Lemma replace_loop_inv rows : forall i new texts origs texts',
  replace_loop i rows new texts = Some (origs, texts') ->
  (forall r, r ∈ rows -> r < length texts) /\
  (rows <> [] -> i + length rows <= length new).
Proof.
  induction rows as [|row rows IH]; intros i new texts origs texts' H.
  - split; [intros r Hr; by apply elem_of_nil in Hr | done].
  - simpl in H.
    destruct (texts !! row) as [orig|] eqn:Ho; [|done]. simpl in H.
    destruct (new !! i) as [v|] eqn:Hv; [|done]. simpl in H.
    destruct (replace_loop (S i) rows new (<[row:=v]> texts)) as [[os ts]|] eqn:Hl;
      [|done].
    apply IH in Hl as [Hr Hn]. rewrite length_insert in Hr.
    apply lookup_lt_Some in Ho. apply lookup_lt_Some in Hv.
    split.
    + intros r [->|Hin]%elem_of_cons; auto.
    + intros _. simpl. destruct rows as [|r' rows']; [simpl; lia|].
      specialize (Hn ltac:(done)). simpl in *. lia.
Qed.

Lemma replace_texts_inv rows document new_texts reg p p1 :
  replace_texts rows document new_texts reg p = Some p1 ->
  exists origs l,
    replace_loop 0 rows new_texts (texts_of document p) = Some (origs, l) /\
    p1 = register_action (replacing_action reg rows document origs)
           (set_texts document l p).
Proof.
  unfold replace_texts. intros H.
  destruct document; simpl in *.
  - destruct (replace_loop 0 rows new_texts (main_texts p)) as [[os l]|]; [|done].
    simpl in H. injection H as <-. by exists os, l.
  - destruct (replace_loop 0 rows new_texts (tran_texts p)) as [[os l]|]; [|done].
    simpl in H. injection H as <-. by exists os, l.
Qed.

(** X1. [replace_texts] completes exactly when every row is a row of the
    document's text array and [new_texts] has at least as many elements as
    [rows]; otherwise reading [texts[row]] or [new_texts[i]] raises. *)
Theorem replace_texts_completes_iff rows document new_texts reg (p : Project) :
  is_Some (replace_texts rows document new_texts reg p) <->
  (forall r, r ∈ rows -> r < length (texts_of document p)) /\
  length rows <= length new_texts.
Proof.
  split.
  - intros [p1 H]. apply replace_texts_inv in H as (origs & l & Hl & _).
    apply replace_loop_inv in Hl as [Hr Hn]. split; [done|].
    destruct rows; [simpl; lia | by apply Hn].
  - intros [Hr Hn].
    destruct (replace_loop_Some rows 0 new_texts (texts_of document p) Hr Hn)
      as (origs & l & Hl).
    rewrite (replace_texts_Some _ _ _ _ _ _ _ Hl). done.
Qed.

Lemma arrays_set_texts_of document (q p : Project) :
  times q = times p -> frames q = frames p ->
  texts_of (other_document document) q = texts_of (other_document document) p ->
  arrays (set_texts document (texts_of document p) q) = arrays p.
Proof.
  unfold arrays. intros H1 H2 H3. destruct document; simpl in *; congruence.
Qed.

Lemma replaced_texts_frame a document l (p : Project) :
  let p1 := register_action a (set_texts document l p) in
  times p1 = times p /\ frames p1 = frames p /\
  texts_of document p1 = l /\
  texts_of (other_document document) p1 = texts_of (other_document document) p /\
  main_file p1 = main_file p /\ clipboard p1 = clipboard p.
Proof.
  intros p1. subst p1.
  destruct (register_action_data a (set_texts document l p))
    as (H1 & H2 & _ & _ & H5 & H6).
  destruct (positions_set_texts document l p) as (G1 & G2 & G3 & G4).
  rewrite !texts_of_register_action, texts_of_set_texts, texts_of_set_texts_other.
  repeat split; congruence.
Qed.

Lemma replace_loop_origs rows : forall i new texts origs texts',
  NoDup rows ->
  replace_loop i rows new texts = Some (origs, texts') ->
  origs = pick rows texts.
Proof.
  induction rows as [|row rows IH]; intros i new texts origs texts' Hnd H.
  - simpl in H. by injection H as <- <-.
  - apply NoDup_cons in Hnd as [Hni Hnd]. simpl in H |- *.
    destruct (texts !! row) as [orig|] eqn:Ho; [|done]. simpl in H.
    destruct (new !! i) as [v|] eqn:Hv; [|done]. simpl in H.
    destruct (replace_loop (S i) rows new (<[row:=v]> texts)) as [[os ts]|] eqn:Hl;
      [|done].
    simpl in H. injection H as <- <-.
    apply IH in Hl; [|done]. subst os. f_equal.
    clear -Hni. induction rows as [|r rows IH]; [done|].
    apply not_elem_of_cons in Hni as [Hne Hni]. simpl.
    rewrite list_lookup_insert_ne by done. rewrite IH by done. done.
Qed.

Lemma replaced_texts_stack a document l (p : Project) :
  destination_stack (register a) (register_action a (set_texts document l p))
  = Single a :: destination_stack (register a) p.
Proof. apply register_action_stack_kept. by destruct document. Qed.

Section TextRoundTrips.
Context {F : FloatOps} (calc : Calculator F).

(** X3. For rows without repetition, the revert that [replace_texts]
    registers is [replace_texts] of the same rows with the original texts;
    running it restores the four arrays, and running the revert that this
    run registers brings back the arrays as they were after the change. *)
Theorem replace_texts_revert_restores rows document new_texts reg reg1 reg2
    (p p1 : Project) :
  NoDup rows ->
  replace_texts rows document new_texts reg p = Some p1 ->
  exists a p2 a' p3,
    destination_stack reg p1 = Single a :: destination_stack reg p /\
    revert a
    = Call_replace_texts rows document (pick rows (texts_of document p)) /\
    run_command calc (revert a) reg1 p1 = Some p2 /\
    arrays p2 = arrays p /\
    destination_stack reg1 p2 = Single a' :: destination_stack reg1 p1 /\
    run_command calc (revert a') reg2 p2 = Some p3 /\
    arrays p3 = arrays p1.
Proof.
  intros Hnd H.
  apply replace_texts_inv in H as (origs & l & Hl & ->).
  pose proof (replace_loop_origs _ _ _ _ _ _ Hnd Hl) as Ho.
  destruct (replace_loop_roundtrip _ _ _ _ _ _ [] Hnd Hl) as (news & Hback).
  simpl in Hback.
  destruct (replace_loop_roundtrip _ _ _ _ _ _ [] Hnd Hback) as (news' & Hagain).
  simpl in Hagain.
  set (a := replacing_action reg rows document origs).
  set (p1 := register_action a (set_texts document l p)).
  destruct (replaced_texts_frame a document l p) as (T1 & T2 & T3 & T4 & _).
  fold p1 in T1, T2, T3, T4.
  set (a' := replacing_action reg1 rows document news).
  set (p2 := register_action a' (set_texts document (texts_of document p) p1)).
  destruct (replaced_texts_frame a' document (texts_of document p) p1)
    as (U1 & U2 & U3 & U4 & _).
  fold p2 in U1, U2, U3, U4.
  exists a, p2, a'.
  eexists. split; [apply (replaced_texts_stack a)|].
  split; [by rewrite <- Ho|].
  split.
  { simpl. apply replace_texts_Some. by rewrite T3. }
  split.
  { unfold p2. rewrite arrays_register_action.
    by apply arrays_set_texts_of. }
  split; [apply (replaced_texts_stack a')|].
  split.
  { simpl. apply replace_texts_Some. rewrite U3. exact Hagain. }
  rewrite arrays_register_action. rewrite <- T3.
  apply arrays_set_texts_of; congruence.
Qed.
End TextRoundTrips.

(* ------------------------------------------------------------------- *)
(** ** The rows written, and one text *)
(* ------------------------------------------------------------------- *)

Lemma replace_loop_written rows : forall i new texts origs texts',
  replace_loop i rows new texts = Some (origs, texts') ->
  (forall m row, rows !! m = Some row ->
     (forall m', m < m' -> rows !! m' <> Some row) ->
     texts' !! row = new !! (i + m)) /\
  (forall k, k ∉ rows -> texts' !! k = texts !! k).
Proof.
  induction rows as [|row0 rows IH]; intros i new texts origs texts' H.
  - simpl in H. injection H as <- <-. split; [intros m row Hm; done | done].
  - simpl in H.
    destruct (texts !! row0) as [orig|] eqn:Ho; [|done]. simpl in H.
    destruct (new !! i) as [v|] eqn:Hv; [|done]. simpl in H.
    destruct (replace_loop (S i) rows new (<[row0:=v]> texts)) as [[os ts]|] eqn:Hl;
      [|done].
    simpl in H. injection H as <- <-.
    apply IH in Hl as [Hw Hk]. apply lookup_lt_Some in Ho.
    split.
    + intros [|m] row Hm Hlast; simpl in Hm.
      * injection Hm as <-.
        rewrite Hk, Nat.add_0_r, Hv; [by apply list_lookup_insert_eq|].
        intros (j & Hj)%list_elem_of_lookup.
        by apply (Hlast (S j) ltac:(lia)).
      * replace (i + S m) with (S i + m) by lia.
        apply Hw; [done|]. intros m' Hlt. apply (Hlast (S m')). lia.
    + intros k [Hne Hni]%not_elem_of_cons.
      rewrite Hk by done. by apply list_lookup_insert_ne.
Qed.

Lemma last_occurrence (rows : list nat) r :
  r ∈ rows ->
  exists m, rows !! m = Some r /\ forall m', m < m' -> rows !! m' <> Some r.
Proof.
  induction rows as [|x rows IH]; [by intros ?%elem_of_nil|].
  intros Hin. destruct (decide (r ∈ rows)) as [Hr|Hr].
  - destruct (IH Hr) as (m & Hm & Hlast). exists (S m). split; [done|].
    intros [|m'] Hlt; [lia|]. simpl. apply Hlast. lia.
  - apply elem_of_cons in Hin as [->|]; [|done]. exists 0. split; [done|].
    intros [|m'] Hlt; [lia|]. simpl. intros Hm'. apply Hr.
    apply list_elem_of_lookup. eauto.
Qed.

(** X2. A completed [replace_texts] changes nothing but the texts of the
    listed rows of the one document: a listed row gets the new text of its
    last occurrence in [rows], every other row keeps its text, and the
    other document, the times, the frames and the clipboard are as
    before. *)
Theorem replace_texts_writes_the_rows rows document new_texts reg
    (p p1 : Project) :
  replace_texts rows document new_texts reg p = Some p1 ->
  length (texts_of document p1) = length (texts_of document p) /\
  (forall m row, rows !! m = Some row ->
     (forall m', m < m' -> rows !! m' <> Some row) ->
     texts_of document p1 !! row = new_texts !! m) /\
  (forall k, k ∉ rows -> texts_of document p1 !! k = texts_of document p !! k) /\
  texts_of (other_document document) p1
  = texts_of (other_document document) p /\
  times p1 = times p /\ frames p1 = frames p /\ clipboard p1 = clipboard p.
Proof.
  intros H. apply replace_texts_inv in H as (origs & l & Hl & ->).
  destruct (replaced_texts_frame (replacing_action reg rows document origs)
              document l p) as (T1 & T2 & T3 & T4 & _ & T6).
  rewrite T3.
  destruct (replace_loop_length _ _ _ _ _ _ Hl) as [Hlen _].
  destruct (replace_loop_written _ _ _ _ _ _ Hl) as [Hw Hk].
  split; [done|]. split; [exact Hw|]. split; [exact Hk|]. done.
Qed.

Section TextEdits.
Context {F : FloatOps} (calc : Calculator F).

Lemma set_text_Some row document value orig reg (p : Project) :
  texts_of document p !! row = Some orig -> value <> orig ->
  exists a,
    set_text row document value reg p
    = Some (register_action a
              (set_texts document (<[row:=value]> (texts_of document p)) p)) /\
    register a = reg /\ revert a = Call_set_text row document orig.
Proof.
  intros Ho Hne. unfold set_text.
  apply String.eqb_neq in Hne.
  destruct document; simpl in *; rewrite Ho; simpl; rewrite Hne;
    eexists; (split; [reflexivity|]); done.
Qed.

(** X5. [set_text] with the text the row already has leaves the project as
    it is and registers no action; for a row beyond the end of the text
    array it raises. *)
Theorem set_text_unchanged_or_out_of_range row document reg (p : Project) :
  (forall value, texts_of document p !! row = Some value ->
     set_text row document value reg p = Some p) /\
  (length (texts_of document p) <= row ->
   forall value, set_text row document value reg p = None).
Proof.
  split.
  - intros value Hv. unfold set_text.
    destruct document; simpl in *; rewrite Hv; simpl;
      rewrite String.eqb_refl, list_insert_id by done; by destruct p.
  - intros Hlen value. apply lookup_ge_None in Hlen. unfold set_text.
    destruct document; simpl in *; by rewrite Hlen.
Qed.

(** X6. [set_text] with a text that differs from the row's text writes the
    text and registers [set_text] of the same row with the original text;
    running this revert restores the four arrays. *)
Theorem set_text_revert_restores row document value orig reg reg1
    (p : Project) :
  texts_of document p !! row = Some orig -> value <> orig ->
  exists p1 a p2,
    set_text row document value reg p = Some p1 /\
    texts_of document p1 = <[row:=value]> (texts_of document p) /\
    destination_stack reg p1 = Single a :: destination_stack reg p /\
    revert a = Call_set_text row document orig /\
    run_command calc (revert a) reg1 p1 = Some p2 /\
    arrays p2 = arrays p.
Proof.
  intros Ho Hne.
  destruct (set_text_Some row document value orig reg p Ho Hne)
    as (a & Hs & Hreg & Hrev).
  set (l := <[row:=value]> (texts_of document p)) in *.
  set (p1 := register_action a (set_texts document l p)) in *.
  destruct (replaced_texts_frame a document l p) as (T1 & T2 & T3 & T4 & _).
  fold p1 in T1, T2, T3, T4.
  assert (Hv : texts_of document p1 !! row = Some value).
  { rewrite T3. apply list_lookup_insert_eq. by apply lookup_lt_Some in Ho. }
  destruct (set_text_Some row document orig value reg1 p1 Hv ltac:(congruence))
    as (a' & Hs' & _ & _).
  exists p1, a. eexists.
  split; [done|]. split; [done|].
  split; [subst reg; apply replaced_texts_stack|].
  split; [done|]. rewrite Hrev. simpl. split; [exact Hs'|].
  rewrite arrays_register_action, T3. unfold l.
  rewrite list_insert_insert_eq, list_insert_id by done.
  by apply arrays_set_texts_of.
Qed.
End TextEdits.

(* ------------------------------------------------------------------- *)
(** ** Both documents at once *)
(* ------------------------------------------------------------------- *)

Lemma replace_both_texts_Some rows new_texts reg (p : Project) om lm ot lt :
  replace_loop 0 rows.1 new_texts.1 (main_texts p) = Some (om, lm) ->
  replace_loop 0 rows.2 new_texts.2 (tran_texts p) = Some (ot, lt) ->
  exists a,
    replace_both_texts rows new_texts reg p
    = Some (register_action a (set_tran_texts lt (set_main_texts lm p))) /\
    register a = reg /\ revert a = Call_replace_both_texts rows (om, ot).
Proof.
  intros Hm Ht. unfold replace_both_texts. rewrite Hm. simpl. rewrite Ht. simpl.
  eexists. split; [reflexivity|]. done.
Qed.

Lemma replace_both_texts_inv rows new_texts reg (p p1 : Project) :
  replace_both_texts rows new_texts reg p = Some p1 ->
  exists om lm ot lt a,
    replace_loop 0 rows.1 new_texts.1 (main_texts p) = Some (om, lm) /\
    replace_loop 0 rows.2 new_texts.2 (tran_texts p) = Some (ot, lt) /\
    p1 = register_action a (set_tran_texts lt (set_main_texts lm p)) /\
    register a = reg /\ revert a = Call_replace_both_texts rows (om, ot).
Proof.
  unfold replace_both_texts. intros H.
  destruct (replace_loop 0 rows.1 new_texts.1 (main_texts p)) as [[om lm]|];
    [|done]. simpl in H.
  destruct (replace_loop 0 rows.2 new_texts.2 (tran_texts p)) as [[ot lt]|];
    [|done]. simpl in H. injection H as <-.
  exists om, lm, ot, lt. eexists. do 2 (split; [done|]). split; [reflexivity|]. done.
Qed.

Lemma arrays_both_texts a lm lt (p q : Project) :
  times q = times p -> frames q = frames p ->
  arrays (register_action a (set_tran_texts lt (set_main_texts lm q)))
  = (times p, frames p, lm, lt).
Proof.
  intros H1 H2. rewrite arrays_register_action. unfold arrays. simpl. by rewrite H1, H2.
Qed.

(** X7. On the four arrays [replace_both_texts] does what [replace_texts]
    on the main document followed by [replace_texts] on the translation
    does, and it raises exactly when this sequence raises. *)
Theorem replace_both_texts_is_two_replace_texts rows new_texts reg
    (p : Project) :
  arrays <$> replace_both_texts rows new_texts reg p
  = arrays <$> (p1 ← replace_texts rows.1 MAIN new_texts.1 reg p;
                replace_texts rows.2 TRAN new_texts.2 reg p1).
Proof.
  destruct (replace_loop 0 rows.1 new_texts.1 (main_texts p)) as [[om lm]|] eqn:Hm.
  - rewrite (replace_texts_Some rows.1 MAIN _ reg p om lm Hm). simpl.
    set (a1 := replacing_action reg rows.1 MAIN om).
    destruct (register_action_data a1 (set_main_texts lm p))
      as (R1 & R2 & R3 & R4 & _). simpl in R1, R2, R3, R4.
    destruct (replace_loop 0 rows.2 new_texts.2 (tran_texts p)) as [[ot lt]|] eqn:Ht.
    + destruct (replace_both_texts_Some rows new_texts reg p _ _ _ _ Hm Ht)
        as (a & -> & _).
      rewrite (replace_texts_Some rows.2 TRAN _ reg _ ot lt)
        by (simpl; by rewrite R4).
      simpl. f_equal. rewrite (arrays_both_texts a lm lt p p) by done.
      rewrite arrays_register_action. unfold arrays. simpl.
      by rewrite R1, R2, R3.
    + unfold replace_both_texts, replace_texts. rewrite Hm. simpl.
      rewrite Ht. simpl. rewrite R4, Ht. done.
  - unfold replace_both_texts, replace_texts. rewrite Hm. done.
Qed.

Section BothTexts.
Context {F : FloatOps} (calc : Calculator F).

(** X8. For row lists without repetition, the revert that
    [replace_both_texts] registers carries the original texts of both
    documents, and running it restores the four arrays. *)
Theorem replace_both_texts_revert_restores rows new_texts reg reg1
    (p p1 : Project) :
  NoDup rows.1 -> NoDup rows.2 ->
  replace_both_texts rows new_texts reg p = Some p1 ->
  exists a p2,
    destination_stack reg p1 = Single a :: destination_stack reg p /\
    revert a
    = Call_replace_both_texts rows
        (pick rows.1 (main_texts p), pick rows.2 (tran_texts p)) /\
    run_command calc (revert a) reg1 p1 = Some p2 /\
    arrays p2 = arrays p.
Proof.
  intros Hnd1 Hnd2 H.
  apply replace_both_texts_inv in H
    as (om & lm & ot & lt & a & Hm & Ht & -> & Hreg & Hrev).
  pose proof (replace_loop_origs _ _ _ _ _ _ Hnd1 Hm) as Hom.
  pose proof (replace_loop_origs _ _ _ _ _ _ Hnd2 Ht) as Hot.
  destruct (replace_loop_roundtrip _ _ _ _ _ _ [] Hnd1 Hm) as (nm & Hbm).
  destruct (replace_loop_roundtrip _ _ _ _ _ _ [] Hnd2 Ht) as (nt & Hbt).
  simpl in Hbm, Hbt.
  set (q := set_tran_texts lt (set_main_texts lm p)).
  destruct (register_action_data a q) as (R1 & R2 & R3 & R4 & _).
  simpl in R1, R2, R3, R4.
  destruct (replace_both_texts_Some rows (om, ot) reg1 (register_action a q)
              nm (main_texts p) nt (tran_texts p)) as (a' & Hs & _).
  { simpl. by rewrite R3. }
  { simpl. by rewrite R4. }
  exists a. eexists.
  split. { subst reg. apply register_action_stack_kept. done. }
  split; [by rewrite Hrev, Hom, Hot|].
  rewrite Hrev. simpl. split; [exact Hs|].
  by apply arrays_both_texts.
Qed.
End BothTexts.

Lemma clear_texts_spec rows document reg (p p1 : Project) :
  clear_texts rows document reg p = Some p1 ->
  (forall r, r ∈ rows -> texts_of document p1 !! r = Some EmptyString) /\
  (forall k, k ∉ rows -> texts_of document p1 !! k = texts_of document p !! k) /\
  length (texts_of document p1) = length (texts_of document p) /\
  texts_of (other_document document) p1
  = texts_of (other_document document) p /\
  times p1 = times p /\ frames p1 = frames p /\
  exists a,
    destination_stack reg p1 = Single a :: destination_stack reg p /\
    description a = "Clearing texts"%string /\
    exists origs, revert a = Call_replace_texts rows document origs.
Proof.
  unfold clear_texts. intros H.
  destruct (replace_texts rows document (replicate (length rows) EmptyString)
              reg p) as [p0|] eqn:Hr; [|done]. simpl in H.
  apply replace_texts_inv in Hr as (origs & l & Hl & ->).
  set (a := replacing_action reg rows document origs) in *.
  destruct (set_action_description_after_register a "Clearing texts"
              (set_texts document l p))
    as (q' & Hq & Q1 & Q2 & Q3 & Q4 & _ & _ & Q7).
  change (register a) with reg in Hq, Q7. rewrite Hq in H. injection H as <-.
  assert (Hdoc : forall d, texts_of d q' = texts_of d (set_texts document l p)).
  { intros []; simpl; done. }
  rewrite !Hdoc, texts_of_set_texts, texts_of_set_texts_other.
  destruct (positions_set_texts document l p) as (G1 & G2 & _).
  destruct (replace_loop_length _ _ _ _ _ _ Hl) as [Hlen _].
  destruct (replace_loop_written _ _ _ _ _ _ Hl) as [Hw Hk].
  split.
  { intros r Hin. destruct (last_occurrence rows r Hin) as (m & Hm & Hlast).
    rewrite (Hw m r Hm Hlast). simpl.
    apply lookup_replicate_2. by apply lookup_lt_Some in Hm. }
  split; [exact Hk|]. split; [exact Hlen|]. split; [done|].
  split; [congruence|]. split; [congruence|].
  exists (set_description "Clearing texts" a).
  split; [|split; [done|by exists origs]].
  rewrite Q7. f_equal. by destruct document.
Qed.

(* ------------------------------------------------------------------- *)
(** ** Copying to the clipboard *)
(* ------------------------------------------------------------------- *)

Lemma min_spec rows lo :
  Py.min rows = Some lo -> lo ∈ rows /\ forall r, r ∈ rows -> lo <= r.
Proof.
  destruct rows as [|x rows]; [done|]. simpl. intros [= <-].
  induction rows as [|y rows IH]; simpl.
  - split; [apply list_elem_of_here|]. by intros r ->%list_elem_of_singleton.
  - destruct IH as [Hin Hle]. split.
    + destruct (Nat.min_spec y (foldr Nat.min x rows)) as [[_ ->]|[_ ->]].
      * apply list_elem_of_further, list_elem_of_here.
      * apply elem_of_cons in Hin as [->|Hin]; [apply list_elem_of_here|].
        by do 2 apply list_elem_of_further.
    + intros r Hr. apply elem_of_cons in Hr as [->|Hr].
      * etrans; [apply Nat.le_min_r|]. apply Hle, list_elem_of_here.
      * apply elem_of_cons in Hr as [->|Hr]; [apply Nat.le_min_l|].
        etrans; [apply Nat.le_min_r|]. by apply Hle, list_elem_of_further.
Qed.

Lemma max_spec rows hi :
  Py.max rows = Some hi -> hi ∈ rows /\ forall r, r ∈ rows -> r <= hi.
Proof.
  destruct rows as [|x rows]; [done|]. simpl. intros [= <-].
  induction rows as [|y rows IH]; simpl.
  - split; [apply list_elem_of_here|]. by intros r ->%list_elem_of_singleton.
  - destruct IH as [Hin Hle]. split.
    + destruct (Nat.max_spec y (foldr Nat.max x rows)) as [[_ ->]|[_ ->]].
      * apply elem_of_cons in Hin as [->|Hin]; [apply list_elem_of_here|].
        by do 2 apply list_elem_of_further.
      * apply list_elem_of_further, list_elem_of_here.
    + intros r Hr. apply elem_of_cons in Hr as [->|Hr].
      * etrans; [|apply Nat.le_max_r]. apply Hle, list_elem_of_here.
      * apply elem_of_cons in Hr as [->|Hr]; [apply Nat.le_max_l|].
        etrans; [|apply Nat.le_max_r]. by apply Hle, list_elem_of_further.
Qed.

Lemma copy_loop_data range_ rows texts : forall data,
  copy_loop range_ rows texts = Some data ->
  length data = length range_ /\
  forall i row, range_ !! i = Some row ->
    data !! i = Some (if bool_decide (row ∈ rows) then texts !! row else None) /\
    (row ∈ rows -> row < length texts).
Proof.
  induction range_ as [|row0 range_ IH]; intros data H.
  - simpl in H. injection H as <-. split; [done|]. intros i row Hi. done.
  - simpl in H.
    destruct (copy_loop range_ rows texts) as [d|] eqn:Hd.
    2: { destruct (bool_decide (row0 ∈ rows)); [destruct (texts !! row0)|]; done. }
    destruct (IH d eq_refl) as [Hlen Hi].
    assert (Hv : data = (if bool_decide (row0 ∈ rows) then texts !! row0 else None) :: d
                 /\ (row0 ∈ rows -> row0 < length texts)).
    { destruct (bool_decide (row0 ∈ rows)) eqn:Hb.
      - destruct (texts !! row0) as [text|] eqn:Ht; [|done].
        simpl in H. injection H as <-. split; [done|].
        intros _. by apply lookup_lt_Some in Ht.
      - simpl in H. injection H as <-. split; [done|].
        intros Hin. by apply bool_decide_eq_false in Hb. }
    destruct Hv as [-> Hlt]. split; [simpl; by rewrite Hlen|].
    intros [|i] row Hrow; simpl in Hrow |- *.
    + injection Hrow as <-. done.
    + by apply Hi.
Qed.

Lemma copy_loop_Some range_ rows texts :
  (forall row, row ∈ range_ -> row ∈ rows -> row < length texts) ->
  is_Some (copy_loop range_ rows texts).
Proof.
  induction range_ as [|row0 range_ IH]; intros H; [by eexists|].
  simpl. destruct IH as [d Hd].
  { intros row Hin. apply H. by apply list_elem_of_further. }
  rewrite Hd. destruct (bool_decide (row0 ∈ rows)) eqn:Hb; [|by eexists].
  apply bool_decide_eq_true in Hb.
  destruct (lookup_lt_is_Some_2 texts row0) as [text Ht].
  { apply H; [apply list_elem_of_here | done]. }
  rewrite Ht. by eexists.
Qed.

Lemma range_lookup lo hi i :
  lo <= hi -> i <= hi - lo -> Py.range lo (hi + 1) !! i = Some (lo + i).
Proof. intros Hle Hi. unfold Py.range. apply lookup_seq. split; [done | lia]. Qed.

(** X10. [copy_texts] completes exactly when [rows] is not empty and
    every row is a row of the document's text array: [min] and [max]
    raise on no rows, and [texts[row]] raises beyond the end. *)
Theorem copy_texts_completes_iff rows document (p : Project) :
  is_Some (copy_texts rows document p) <->
  rows <> [] /\ forall r, r ∈ rows -> r < length (texts_of document p).
Proof.
  unfold copy_texts. split.
  - intros [p1 H].
    destruct (Py.min rows) as [lo|] eqn:Hlo; [|done]. simpl in H.
    destruct (Py.max rows) as [hi|] eqn:Hhi; [|done]. simpl in H.
    apply min_spec in Hlo as [Hin Hlo]. apply max_spec in Hhi as [_ Hhi].
    split; [intros ->; by apply elem_of_nil in Hin|].
    destruct (copy_loop (Py.range lo (hi + 1)) rows _) as [data|] eqn:Hd; [|done].
    apply copy_loop_data in Hd as [_ Hd].
    intros r Hr. specialize (Hlo r Hr). specialize (Hhi r Hr).
    destruct (Hd (r - lo) r) as [_ Hlt]; [|by apply Hlt].
    rewrite range_lookup by lia. f_equal. lia.
  - intros [Hne Hr]. destruct rows as [|x rows]; [done|]. simpl.
    destruct (copy_loop_Some (Py.range (foldr Nat.min x rows)
                                (foldr Nat.max x rows + 1)) (x :: rows)
                (texts_of document p)) as [d Hd]; [by auto|].
    unfold texts_of in Hd. rewrite Hd. by eexists.
Qed.

Lemma copy_texts_inv rows document (p p1 : Project) :
  copy_texts rows document p = Some p1 ->
  exists lo hi,
    Py.min rows = Some lo /\ Py.max rows = Some hi /\
    lo ∈ rows /\ hi ∈ rows /\ (forall r, r ∈ rows -> lo <= r <= hi) /\
    length (clipboard p1) = hi - lo + 1 /\
    (forall i, i <= hi - lo ->
       clipboard p1 !! i
       = Some (if bool_decide (lo + i ∈ rows)
               then texts_of document p !! (lo + i) else None)) /\
    (forall r, r ∈ rows -> is_Some (texts_of document p !! r)) /\
    arrays p1 = arrays p /\ main_file p1 = main_file p /\
    undoables p1 = undoables p /\ redoables p1 = redoables p.
Proof.
  unfold copy_texts. intros H.
  destruct (Py.min rows) as [lo|] eqn:Hlo; [|done]. simpl in H.
  destruct (Py.max rows) as [hi|] eqn:Hhi; [|done]. simpl in H.
  destruct (copy_loop (Py.range lo (hi + 1)) rows _) as [data|] eqn:Hd; [|done].
  simpl in H. injection H as <-.
  apply min_spec in Hlo as [Hlo1 Hlo2]. apply max_spec in Hhi as [Hhi1 Hhi2].
  pose proof (Hlo2 hi Hhi1) as Hle.
  apply copy_loop_data in Hd as [Hlen Hd].
  exists lo, hi. do 4 (split; [done|]).
  split; [intros r Hr; split; auto|].
  split. { simpl. rewrite Hlen. unfold Py.range. rewrite length_seq. lia. }
  split. { intros i Hi. simpl. apply (Hd i (lo + i)). by apply range_lookup. }
  split; [|done].
  intros r Hr. apply lookup_lt_is_Some_2.
  specialize (Hlo2 r Hr). specialize (Hhi2 r Hr).
  destruct (Hd (r - lo) r) as [_ Hlt]; [|by apply Hlt].
  rewrite range_lookup by lia. f_equal. lia.
Qed.

(* ------------------------------------------------------------------- *)
(** ** Copying and pasting *)
(* ------------------------------------------------------------------- *)

(** X11. A completed [copy_texts] puts on the clipboard one entry for
    every row from the smallest to the largest of [rows]: the text of a
    row that is listed, [None] for a row in between that is not; the first
    and the last entry are texts; the arrays and the stacks are
    untouched. *)
Theorem copy_texts_fills_the_clipboard rows document (p p1 : Project) :
  copy_texts rows document p = Some p1 ->
  exists lo hi,
    Py.min rows = Some lo /\ Py.max rows = Some hi /\
    length (clipboard p1) = hi - lo + 1 /\
    (forall r text, r ∈ rows -> texts_of document p !! r = Some text ->
       clipboard p1 !! (r - lo) = Some (Some text)) /\
    (forall i, i <= hi - lo -> lo + i ∉ rows -> clipboard p1 !! i = Some None) /\
    clipboard p1 !! 0 = Some (texts_of document p !! lo) /\
    clipboard p1 !! (hi - lo) = Some (texts_of document p !! hi) /\
    arrays p1 = arrays p /\
    undoables p1 = undoables p /\ redoables p1 = redoables p.
Proof.
  intros H. apply copy_texts_inv in H
    as (lo & hi & Hlo & Hhi & Hlo_in & Hhi_in & Hr & Hlen & Hd & _ & Ha & _ & Hu).
  exists lo, hi. do 3 (split; [done|]).
  assert (Hsel : forall r, r ∈ rows ->
            clipboard p1 !! (r - lo) = Some (texts_of document p !! r)).
  { intros r Hin. destruct (Hr r Hin) as [H1 H2].
    rewrite Hd by lia. replace (lo + (r - lo)) with r by lia.
    by rewrite bool_decide_eq_true_2. }
  split. { intros r text Hin Ht. rewrite Hsel by done. by rewrite Ht. }
  split. { intros i Hi Hni. rewrite Hd by done. by rewrite bool_decide_eq_false_2. }
  split. { rewrite <- (Hsel lo Hlo_in). by rewrite Nat.sub_diag. }
  split; [by apply Hsel|]. done.
Qed.

Lemma copied_pasted_over (rows : list nat) lo hi s (texts before after : list string)
    (data : list (option string)) :
  (forall r, r ∈ rows -> lo <= r <= hi) ->
  (forall r, r ∈ rows -> is_Some (texts !! r)) ->
  length data = hi - lo + 1 ->
  (forall i, i <= hi - lo ->
     data !! i
     = Some (if bool_decide (lo + i ∈ rows) then texts !! (lo + i) else None)) ->
  pasted_over s data before after ->
  (forall r, r ∈ rows -> after !! (s + (r - lo)) = texts !! r) /\
  (forall k, (forall r, r ∈ rows -> k <> s + (r - lo)) -> after !! k = before !! k).
Proof.
  intros Hr Hsome Hlen Hd (_ & Hset & Hkeep). split.
  - intros r Hin. destruct (Hr r Hin). destruct (Hsome r Hin) as [v Hv].
    rewrite Hv. apply Hset. rewrite Hd by lia.
    replace (lo + (r - lo)) with r by lia.
    by rewrite bool_decide_eq_true_2, Hv.
  - intros k Hk. apply Hkeep. intros i v Hi.
    assert (i <= hi - lo) as Hle by (apply lookup_lt_Some in Hi; lia).
    rewrite Hd in Hi by done.
    destruct (bool_decide (lo + i ∈ rows)) eqn:Hb; [|done].
    apply bool_decide_eq_true in Hb.
    specialize (Hk _ Hb). replace (lo + i - lo) with i in Hk by lia. done.
Qed.

Lemma parallel_arrays (p q : Project) : arrays q = arrays p -> parallel p -> parallel q.
Proof. unfold arrays, parallel. intros [= -> -> -> ->]. done. Qed.

Section CopyPaste.
Context {F : FloatOps} (calc : Calculator F).

(** X12. Copying rows of one document and pasting at [start_row] into
    a document, when the clipboard fits into the rows there are, writes
    the text of every copied row at its offset from the smallest copied
    row, counted from [start_row], and changes nothing else. *)
Theorem copy_then_paste_moves_the_texts rows document target start_row
    (p p1 : Project) :
  parallel p ->
  copy_texts rows document p = Some p1 ->
  start_row + length (clipboard p1) <= length (times p) ->
  exists lo pasted_rows p2,
    Py.min rows = Some lo /\
    paste_texts calc start_row target DO p1 = Some (pasted_rows, p2) /\
    (forall r, r ∈ rows ->
       texts_of target p2 !! (start_row + (r - lo)) = texts_of document p !! r) /\
    (forall k, (forall r, r ∈ rows -> k <> start_row + (r - lo)) ->
       texts_of target p2 !! k = texts_of target p !! k) /\
    texts_of (other_document target) p2 = texts_of (other_document target) p /\
    times p2 = times p /\ frames p2 = frames p.
Proof.
  intros Hpar H Hfit. apply copy_texts_inv in H
    as (lo & hi & Hlo & Hhi & _ & _ & Hr & Hlen & Hd & Hsome & Ha & _).
  pose proof (parallel_arrays p p1 Ha Hpar) as Hpar1.
  assert (forall d, texts_of d p1 = texts_of d p) as Hdoc.
  { unfold arrays in Ha. injection Ha as _ _ Hm Ht. by intros []. }
  assert (times p1 = times p /\ frames p1 = frames p) as [Ht Hf].
  { unfold arrays in Ha. by injection Ha as -> -> _ _. }
  destruct (paste_texts_fits calc start_row target p1 Hpar1)
    as (l & origs & p2 & Hp & P1 & P2 & P3 & P4 & Hover & _).
  { by rewrite Ht. }
  rewrite Hdoc in Hover.
  destruct (copied_pasted_over rows lo hi start_row (texts_of document p)
              (texts_of target p) l (clipboard p1) Hr Hsome Hlen Hd Hover)
    as [Hset Hkeep].
  exists lo. eexists. exists p2. split; [done|]. split; [exact Hp|].
  rewrite P4. split; [done|]. split; [done|].
  rewrite P3, P1, P2, Hdoc. done.
Qed.

(** X13. Copying rows and pasting them into the same document at the
    smallest copied row pastes into exactly the copied rows and leaves the
    four arrays as they were. *)
Theorem copy_then_paste_in_place_changes_nothing rows document
    (p p1 : Project) :
  parallel p ->
  copy_texts rows document p = Some p1 ->
  exists lo pasted_rows p2,
    Py.min rows = Some lo /\
    paste_texts calc lo document DO p1 = Some (pasted_rows, p2) /\
    (forall r, r ∈ pasted_rows <-> r ∈ rows) /\
    arrays p2 = arrays p.
Proof.
  intros Hpar H. apply copy_texts_inv in H
    as (lo & hi & Hlo & Hhi & _ & Hhi_in & Hr & Hlen & Hd & Hsome & Ha & _).
  pose proof (parallel_arrays p p1 Ha Hpar) as Hpar1.
  assert (forall d, texts_of d p1 = texts_of d p) as Hdoc.
  { unfold arrays in Ha. injection Ha as _ _ Hm Ht. by intros []. }
  assert (times p1 = times p /\ frames p1 = frames p) as [Ht Hf].
  { unfold arrays in Ha. by injection Ha as -> -> _ _. }
  assert (hi < length (times p)) as Hhi_lt.
  { destruct (Hsome hi Hhi_in) as [v Hv]. apply lookup_lt_Some in Hv.
    destruct Hpar as (_ & Hm & Htr). destruct document; simpl in Hv; lia. }
  pose proof (Hr hi Hhi_in) as [Hle _].
  destruct (paste_texts_fits calc lo document p1 Hpar1)
    as (l & origs & p2 & Hp & P1 & P2 & P3 & P4 & Hover & _).
  { rewrite Ht. lia. }
  rewrite Hdoc in Hover.
  destruct (copied_pasted_over rows lo hi lo (texts_of document p)
              (texts_of document p) l (clipboard p1) Hr Hsome Hlen Hd Hover)
    as [Hset Hkeep].
  exists lo. eexists. exists p2. split; [done|]. split; [exact Hp|].
  split.
  { destruct (pasted_spec lo (clipboard p1) 0) as (_ & _ & _ & Hin & Hout).
    intros r. split.
    - intros Hrin. destruct (Hout r Hrin) as (j & v & -> & Hj). simpl.
      assert (j <= hi - lo) as Hj' by (apply lookup_lt_Some in Hj; lia).
      rewrite Hd in Hj by done.
      destruct (bool_decide (lo + j ∈ rows)) eqn:Hb; [|done].
      by apply bool_decide_eq_true in Hb.
    - intros Hrin. destruct (Hr r Hrin). destruct (Hsome r Hrin) as [v Hv].
      destruct (Hin (r - lo) v) as (m & Hm & _).
      { rewrite Hd by lia. replace (lo + (r - lo)) with r by lia.
        by rewrite bool_decide_eq_true_2, Hv. }
      apply list_elem_of_lookup. exists m. rewrite Hm. f_equal. simpl. lia. }
  assert (l = texts_of document p) as ->.
  { apply list_eq. intros k. destruct (decide (k ∈ rows)) as [Hin|Hni].
    - rewrite <- (Hset k Hin). destruct (Hr k Hin). f_equal. lia.
    - apply Hkeep. intros r Hrin ->. destruct (Hr r Hrin).
      replace (lo + (r - lo)) with r in Hni by lia. done. }
  apply arrays_texts; [congruence | congruence |].
  pose proof (Hdoc MAIN) as Hm. pose proof (Hdoc TRAN) as Htr.
  intros d. destruct d, document; simpl in *; congruence.
Qed.
End CopyPaste.

(* ------------------------------------------------------------------- *)
(** ** Clearing and cutting *)
(* ------------------------------------------------------------------- *)

Lemma arrays_inv (p q : Project) :
  arrays q = arrays p ->
  times q = times p /\ frames q = frames p /\
  forall d, texts_of d q = texts_of d p.
Proof. unfold arrays. intros [= H1 H2 H3 H4]. do 2 (split; [done|]). by intros []. Qed.

Lemma set_action_description_top r label a rest (q : Project) :
  destination_stack r q = Single a :: rest ->
  exists q',
    set_action_description r label q = Some q' /\
    arrays q' = arrays q /\ clipboard q' = clipboard q /\
    main_file q' = main_file q /\
    destination_stack r q' = Single (set_description label a) :: rest.
Proof.
  unfold set_action_description. intros ->.
  eexists. split; [reflexivity|]. by destruct r.
Qed.

Lemma clear_texts_inv rows document reg (p p1 : Project) :
  clear_texts rows document reg p = Some p1 ->
  exists origs l,
    replace_loop 0 rows (replicate (length rows) EmptyString)
      (texts_of document p) = Some (origs, l) /\
    texts_of document p1 = l /\
    texts_of (other_document document) p1
    = texts_of (other_document document) p /\
    times p1 = times p /\ frames p1 = frames p /\
    clipboard p1 = clipboard p /\
    destination_stack reg p1
    = Single (set_description "Clearing texts"
                (replacing_action reg rows document origs))
        :: destination_stack reg p.
Proof.
  unfold clear_texts. intros H.
  destruct (replace_texts rows document (replicate (length rows) EmptyString)
              reg p) as [p0|] eqn:Hr; [|done]. simpl in H.
  apply replace_texts_inv in Hr as (origs & l & Hl & ->).
  set (a := replacing_action reg rows document origs) in *.
  destruct (replaced_texts_frame a document l p) as (T1 & T2 & T3 & T4 & _ & T6).
  destruct (set_action_description_top reg "Clearing texts" a
              (destination_stack reg p)
              (register_action a (set_texts document l p)))
    as (q' & Hq & Qa & Qc & _ & Qs).
  { apply (replaced_texts_stack a). }
  rewrite Hq in H. injection H as <-.
  apply arrays_inv in Qa as (Q1 & Q2 & Q3).
  exists origs, l. split; [done|]. rewrite !Q3, Q1, Q2, Qc.
  by rewrite T1, T2, T3, T4, T6.
Qed.

Lemma replace_loop_blanks rows origs l (texts : list string) :
  replace_loop 0 rows (replicate (length rows) EmptyString) texts
  = Some (origs, l) ->
  length l = length texts /\
  (forall r, r ∈ rows -> l !! r = Some EmptyString) /\
  (forall k, k ∉ rows -> l !! k = texts !! k).
Proof.
  intros Hl.
  destruct (replace_loop_length _ _ _ _ _ _ Hl) as [Hlen _].
  destruct (replace_loop_written _ _ _ _ _ _ Hl) as [Hw Hk].
  split; [done|]. split; [|done].
  intros r Hin. destruct (last_occurrence rows r Hin) as (m & Hm & Hlast).
  rewrite (Hw m r Hm Hlast). simpl.
  apply lookup_replicate_2. by apply lookup_lt_Some in Hm.
Qed.

Section ClearAndCut.
Context {F : FloatOps} (calc : Calculator F).

(** X9. A completed [clear_texts] leaves the empty text in every listed
    row of the document and changes no other text and no position; it
    registers one action, described as 'Clearing texts', whose revert
    restores the four arrays when no row is listed twice. *)
Theorem clear_texts_blanks_the_rows rows document reg reg1 (p p1 : Project) :
  clear_texts rows document reg p = Some p1 ->
  (forall r, r ∈ rows -> texts_of document p1 !! r = Some EmptyString) /\
  (forall k, k ∉ rows -> texts_of document p1 !! k = texts_of document p !! k) /\
  length (texts_of document p1) = length (texts_of document p) /\
  texts_of (other_document document) p1
  = texts_of (other_document document) p /\
  times p1 = times p /\ frames p1 = frames p /\
  exists a,
    destination_stack reg p1 = Single a :: destination_stack reg p /\
    description a = "Clearing texts"%string /\
    (NoDup rows ->
     exists p2, run_command calc (revert a) reg1 p1 = Some p2 /\
                arrays p2 = arrays p).
Proof.
  intros H. apply clear_texts_inv in H
    as (origs & l & Hl & T3 & T4 & T1 & T2 & _ & Hs).
  destruct (replace_loop_blanks _ _ _ _ Hl) as (Hlen & Hb & Hk).
  rewrite T3. do 3 (split; [done|]). do 3 (split; [done|]).
  eexists. split; [exact Hs|]. split; [done|].
  intros Hnd. simpl.
  destruct (replace_loop_roundtrip _ _ _ _ _ _ [] Hnd Hl) as (news & Hback).
  simpl in Hback.
  rewrite (replace_texts_Some rows document origs reg1 p1 news
             (texts_of document p)) by (by rewrite T3).
  eexists. split; [reflexivity|].
  rewrite arrays_register_action. by apply arrays_set_texts_of.
Qed.

(** X14. A completed [cut_texts] leaves the empty text in the rows cut
    and registers one action, described as 'Cutting texts'; pasting into
    the same document at the smallest row cut brings back the four arrays
    as they were before the cut. *)
Theorem cut_then_paste_restores_the_texts rows document reg (p p1 : Project) :
  parallel p ->
  cut_texts rows document reg p = Some p1 ->
  (forall r, r ∈ rows -> texts_of document p1 !! r = Some EmptyString) /\
  (exists a, destination_stack reg p1 = Single a :: destination_stack reg p /\
             description a = "Cutting texts"%string) /\
  exists lo pasted_rows p2,
    Py.min rows = Some lo /\
    paste_texts calc lo document DO p1 = Some (pasted_rows, p2) /\
    arrays p2 = arrays p.
Proof.
  intros Hpar H. unfold cut_texts in H.
  destruct (copy_texts rows document p) as [p0|] eqn:Hc; [|done]. simpl in H.
  destruct (clear_texts rows document reg p0) as [pc|] eqn:Hcl; [|done].
  simpl in H.
  apply copy_texts_inv in Hc
    as (lo & hi & Hlo & Hhi & _ & Hhi_in & Hr & Hlen & Hd & Hsome & Ha & _ & Hu0 & Hr0).
  apply arrays_inv in Ha as (A1 & A2 & A3).
  apply clear_texts_inv in Hcl
    as (origs & l & Hl & T3 & T4 & T1 & T2 & Tc & Hs).
  rewrite A3 in Hl.
  destruct (set_action_description_top reg "Cutting texts" _ _ pc Hs)
    as (q' & Hq & Qa & Qc & _ & Qs).
  rewrite Hq in H. injection H as <-.
  apply arrays_inv in Qa as (Q1 & Q2 & Q3).
  destruct (replace_loop_blanks _ _ _ _ Hl) as (Hlenl & Hb & Hk).
  split. { rewrite Q3, T3. exact Hb. }
  split.
  { exists (set_description "Cutting texts"
              (replacing_action reg rows document origs)).
    split; [|reflexivity]. rewrite Qs. f_equal.
    destruct reg; simpl; congruence. }
  assert (parallel q') as Hpar'.
  { destruct Hpar as (P1 & P2 & P3). unfold parallel.
    pose proof (Q3 MAIN) as Qm. pose proof (Q3 TRAN) as Qt. simpl in Qm, Qt.
    pose proof (A3 MAIN) as Am. pose proof (A3 TRAN) as At. simpl in Am, At.
    rewrite Q1, Q2, Qm, Qt, T1, T2, A1, A2.
    destruct document; simpl in *; rewrite ?T3, ?T4, ?Hlenl, ?Am, ?At; done. }
  assert (hi < length (times p)) as Hhi_lt.
  { destruct (Hsome hi Hhi_in) as [v Hv]. apply lookup_lt_Some in Hv.
    destruct Hpar as (_ & Hm & Htr). destruct document; simpl in Hv; lia. }
  pose proof (Hr hi Hhi_in) as [Hle _].
  assert (clipboard q' = clipboard p0) as Hclip by congruence.
  destruct (paste_texts_fits calc lo document q' Hpar')
    as (l' & origs' & p2 & Hp & P1 & P2 & P3 & P4 & Hover & _).
  { rewrite Hclip, Q1, T1, A1. lia. }
  rewrite Hclip, Q3, T3 in Hover.
  destruct (copied_pasted_over rows lo hi lo (texts_of document p) l l'
              (clipboard p0) Hr Hsome Hlen Hd Hover) as [Hset Hkeep].
  exists lo. eexists. exists p2. split; [done|]. split; [exact Hp|].
  assert (l' = texts_of document p) as ->.
  { apply list_eq. intros k. destruct (decide (k ∈ rows)) as [Hin|Hni].
    - rewrite <- (Hset k Hin). destruct (Hr k Hin). f_equal. lia.
    - rewrite Hkeep; [by apply Hk|]. intros r Hrin ->. destruct (Hr r Hrin).
      replace (lo + (r - lo)) with r in Hni by lia. done. }
  apply arrays_texts; [congruence | congruence |].
  rewrite Q3, T4, A3 in P3.
  intros d. destruct d, document; simpl in *; congruence.
Qed.
End ClearAndCut.

(* ------------------------------------------------------------------- *)
(** ** Inserting and removing rows *)
(* ------------------------------------------------------------------- *)

Section RowInsertFacts.
Context {A : Type}.
Implicit Types l xs acc : list A.

Lemma pop_rows_app rows1 rows2 : forall acc l,
  pop_rows (rows1 ++ rows2) acc l
  = '(acc', l') ← pop_rows rows1 acc l; pop_rows rows2 acc' l'.
Proof.
  induction rows1 as [|r rows1 IH]; intros acc l; [done|]. simpl.
  destruct (Py.pop r l) as [[x l']|]; [|done]. simpl. apply IH.
Qed.

Lemma pop_insert r x l : r <= length l -> Py.pop r (Py.insert r x l) = Some (x, l).
Proof.
  intros Hr. rewrite (pop_Some r x) by (by apply insert_lookup).
  by rewrite without_insert.
Qed.

Lemma insert_pop r x l l' : Py.pop r l = Some (x, l') -> Py.insert r x l' = l.
Proof.
  unfold Py.pop. destruct (l !! r) as [y|] eqn:Hy; [|done].
  intros [= -> <-]. rewrite <- without_delete. by apply insert_without.
Qed.

Lemma insert_rows_length rows : forall xs l,
  length rows <= length xs ->
  length (insert_rows rows xs l) = length l + length rows.
Proof.
  induction rows as [|r rows IH]; intros xs l Hlen; [simpl; lia|].
  destruct xs as [|x xs]; [simpl in Hlen; lia|]. simpl in *.
  rewrite IH by lia. rewrite insert_length. lia.
Qed.

(** Popping the rows in reverse order undoes their insertion. *)
Lemma pop_insert_rows rows : forall xs acc l,
  insertable (length l) rows -> length rows <= length xs ->
  pop_rows (reverse rows) acc (insert_rows rows xs l)
  = Some (take (length rows) xs ++ acc, l).
Proof.
  induction rows as [|r rows IH]; intros xs acc l Hin Hlen; [done|].
  destruct xs as [|x xs]; [simpl in Hlen; lia|].
  destruct Hin as [Hr Hin]. simpl in Hlen |- *.
  rewrite reverse_cons, pop_rows_app.
  rewrite IH; [|by rewrite insert_length | lia].
  simpl. rewrite pop_insert by done. simpl. done.
Qed.

(** Inserting what was popped, at the rows in ascending order, undoes
    the removal. *)
Lemma insert_pop_rows rows : forall acc l acc' l',
  pop_rows (reverse rows) acc l = Some (acc', l') ->
  exists xs, acc' = xs ++ acc /\ length xs = length rows /\
             insert_rows rows xs l' = l.
Proof.
  induction rows as [|r rows IH]; intros acc l acc' l' H.
  - simpl in H. injection H as <- <-. by exists [].
  - rewrite reverse_cons, pop_rows_app in H.
    destruct (pop_rows (reverse rows) acc l) as [[acc1 l1]|] eqn:H1; [|done].
    simpl in H.
    destruct (Py.pop r l1) as [[x l2]|] eqn:H2; [|done]. simpl in H.
    injection H as <- <-.
    destruct (IH _ _ _ _ H1) as (xs & -> & Hlen & Hins).
    exists (x :: xs). split; [done|]. split; [simpl; lia|].
    simpl. by rewrite (insert_pop _ _ _ _ H2).
Qed.
End RowInsertFacts.

Lemma insertable_lt rows : forall n r,
  insertable n rows -> r ∈ rows -> r < n + length rows.
Proof.
  induction rows as [|x rows IH]; intros n r Hin Hr; [by apply elem_of_nil in Hr|].
  destruct Hin as [Hx Hin]. apply elem_of_cons in Hr as [->|Hr]; simpl; [lia|].
  specialize (IH _ _ Hin Hr). lia.
Qed.

Lemma _insert_data_Some rows : forall i t f m tr (p : Project),
  i + length rows <= length t -> i + length rows <= length f ->
  i + length rows <= length m -> i + length rows <= length tr ->
  _insert_data i rows t f m tr p
  = Some (set_tran_texts (insert_rows rows (drop i tr) (tran_texts p))
            (set_main_texts (insert_rows rows (drop i m) (main_texts p))
               (set_frames (insert_rows rows (drop i f) (frames p))
                  (set_times (insert_rows rows (drop i t) (times p)) p)))).
Proof.
  induction rows as [|row rows IH]; intros i t f m tr p Ht Hf Hm Htr.
  - simpl. by destruct p.
  - simpl in Ht, Hf, Hm, Htr.
    destruct (lookup_lt_is_Some_2 t i ltac:(lia)) as [x1 H1].
    destruct (lookup_lt_is_Some_2 f i ltac:(lia)) as [x2 H2].
    destruct (lookup_lt_is_Some_2 m i ltac:(lia)) as [x3 H3].
    destruct (lookup_lt_is_Some_2 tr i ltac:(lia)) as [x4 H4].
    cbn [_insert_data]. rewrite H1, H2, H3, H4. simpl.
    rewrite IH by lia.
    rewrite (drop_S _ _ _ H1), (drop_S _ _ _ H2), (drop_S _ _ _ H3),
      (drop_S _ _ _ H4).
    destruct p. reflexivity.
Qed.

Lemma remove_loop_inv rows : forall ts fs ms trs (p : Project) ts' fs' ms' trs' p',
  remove_loop rows (ts, fs, ms, trs) p = Some ((ts', fs', ms', trs'), p') ->
  pop_rows rows ts (times p) = Some (ts', times p') /\
  pop_rows rows fs (frames p) = Some (fs', frames p') /\
  pop_rows rows ms (main_texts p) = Some (ms', main_texts p') /\
  pop_rows rows trs (tran_texts p) = Some (trs', tran_texts p') /\
  main_file p' = main_file p /\ clipboard p' = clipboard p /\
  stacks_kept p p'.
Proof.
  induction rows as [|row rows IH]; intros ts fs ms trs p ts' fs' ms' trs' p' H.
  - simpl in H. injection H as <- <- <- <- <-. done.
  - cbn [remove_loop] in H.
    destruct (Py.pop row (times p)) as [[x1 l1]|] eqn:H1; [|done]. simpl in H.
    destruct (Py.pop row (frames p)) as [[x2 l2]|] eqn:H2; [|done]. simpl in H.
    destruct (Py.pop row (main_texts p)) as [[x3 l3]|] eqn:H3; [|done].
    simpl in H.
    destruct (Py.pop row (tran_texts p)) as [[x4 l4]|] eqn:H4; [|done].
    simpl in H.
    apply IH in H as (G1 & G2 & G3 & G4 & G5 & G6 & G7). simpl in *.
    rewrite H1, H2, H3, H4. simpl. done.
Qed.

Lemma sorted_sorted rows : Py.sorted (Py.sorted rows) = Py.sorted rows.
Proof. apply sorted_of_sorted, sorted_StronglySorted. Qed.

Section InsertRemove.
Context {F : FloatOps} (calc : Calculator F).

(** X16. Whenever [remove_subtitles] completes, also with a row listed
    more than once, the revert it registers is [insert_subtitles] of the
    sorted rows with the data removed, one element of each array per row;
    running it restores the four arrays and registers [remove_subtitles]
    of the same rows. *)
Theorem remove_subtitles_revert_restores rows reg reg1 (p p1 : Project) :
  remove_subtitles rows reg p = Some p1 ->
  exists a ts fs ms trs p2 a',
    destination_stack reg p1 = Single a :: destination_stack reg p /\
    removed_rows a = Py.sorted rows /\
    revert a = Call_insert_subtitles (Py.sorted rows) (Some ts) (Some fs)
                 (Some ms) (Some trs) /\
    length ts = length rows /\ length fs = length rows /\
    length ms = length rows /\ length trs = length rows /\
    length (times p1) + length rows = length (times p) /\
    run_command calc (revert a) reg1 p1 = Some p2 /\
    arrays p2 = arrays p /\
    destination_stack reg1 p2 = Single a' :: destination_stack reg1 p1 /\
    revert a' = Call_remove_subtitles (Py.sorted rows).
Proof.
  unfold remove_subtitles. intros H.
  destruct (remove_loop (reverse (Py.sorted rows)) ([], [], [], []) p)
    as [[[[[ts fs] ms] trs] p']|] eqn:Hl; [|done].
  simpl in H. injection H as <-.
  apply remove_loop_inv in Hl as (G1 & G2 & G3 & G4 & _ & _ & Hst).
  destruct (insert_pop_rows _ _ _ _ _ G1) as (ts0 & E1 & L1 & I1).
  destruct (insert_pop_rows _ _ _ _ _ G2) as (fs0 & E2 & L2 & I2).
  destruct (insert_pop_rows _ _ _ _ _ G3) as (ms0 & E3 & L3 & I3).
  destruct (insert_pop_rows _ _ _ _ _ G4) as (trs0 & E4 & L4 & I4).
  rewrite app_nil_r in E1, E2, E3, E4. subst ts0 fs0 ms0 trs0.
  assert (Hlen : length (Py.sorted rows) = length rows)
    by (by rewrite (sorted_Permutation rows)).
  rewrite Hlen in L1, L2, L3, L4.
  match goal with |- context [register_action ?x p'] => set (a := x) end.
  destruct (register_action_data a p') as (R1 & R2 & R3 & R4 & _).
  exists a, ts, fs, ms, trs. eexists.
  exists (inserting_action reg1 (Py.sorted rows)).
  split. { apply (register_action_stack_kept a). exact Hst. }
  do 2 (split; [reflexivity|]). do 4 (split; [done|]).
  split.
  { rewrite R1, <- I1, insert_rows_length by lia. lia. }
  split.
  { simpl. unfold insert_subtitles. rewrite sorted_sorted.
    rewrite _insert_data_Some by (simpl; lia). simpl. reflexivity. }
  split.
  { rewrite arrays_register_action. unfold arrays. simpl.
    rewrite !drop_0, R1, R2, R3, R4, I1, I2, I3, I4. done. }
  split; [|reflexivity].
  apply (register_action_stack_kept (inserting_action reg1 (Py.sorted rows))).
  done.
Qed.
End InsertRemove.

(* ------------------------------------------------------------------- *)
(** ** Inserting data *)
(* ------------------------------------------------------------------- *)

Lemma inserted_rows_placed {A} rows (xs l : list A) :
  StronglySorted lt rows -> insertable (length l) rows ->
  length rows <= length xs ->
  pick rows (insert_rows rows xs l) = take (length rows) xs /\
  omit rows (insert_rows rows xs l) = l.
Proof.
  intros Hs Hin Hlen.
  pose proof (pop_insert_rows rows xs [] l Hin Hlen) as H1.
  rewrite pop_rows_reverse in H1; [|done|].
  - rewrite !app_nil_r in H1. by injection H1 as -> ->.
  - intros r Hr. rewrite insert_rows_length by done. by apply insertable_lt.
Qed.

Lemma parallel_lengths (p q : Project) k :
  parallel p ->
  length (times q) = length (times p) + k ->
  length (frames q) = length (frames p) + k ->
  length (main_texts q) = length (main_texts p) + k ->
  length (tran_texts q) = length (tran_texts p) + k ->
  parallel q.
Proof. unfold parallel. lia. Qed.

Section InsertData.
Context {F : FloatOps} (calc : Calculator F).

(** X17. [insert_subtitles] with data, for rows each of which is within
    the document at the time it is inserted, completes, lengthens every
    array by the number of rows and keeps the arrays parallel; for rows
    without repetition the data sits at the rows given and the other rows
    keep their order; the registered revert [remove_subtitles] of the
    sorted rows restores the four arrays and registers the insertion of
    the same data again. *)
Theorem insert_subtitles_revert_restores rows ts fs ms trs reg reg1
    (p : Project) :
  parallel p ->
  insertable (length (times p)) (Py.sorted rows) ->
  length rows <= length ts -> length rows <= length fs ->
  length rows <= length ms -> length rows <= length trs ->
  let asc := Py.sorted rows in
  let k := length rows in
  exists p1 a p2 a',
    insert_subtitles calc rows (Some ts) (Some fs) (Some ms) (Some trs) reg p
    = Some p1 /\
    length (times p1) = length (times p) + k /\ parallel p1 /\
    destination_stack reg p1 = Single a :: destination_stack reg p /\
    inserted_rows a = asc /\ revert a = Call_remove_subtitles asc /\
    (NoDup rows ->
     pick asc (times p1) = take k ts /\ pick asc (frames p1) = take k fs /\
     pick asc (main_texts p1) = take k ms /\
     pick asc (tran_texts p1) = take k trs /\
     (omit asc (times p1), omit asc (frames p1), omit asc (main_texts p1),
      omit asc (tran_texts p1)) = arrays p) /\
    run_command calc (revert a) reg1 p1 = Some p2 /\
    arrays p2 = arrays p /\
    destination_stack reg1 p2 = Single a' :: destination_stack reg1 p1 /\
    revert a' = Call_insert_subtitles asc (Some (take k ts)) (Some (take k fs))
                  (Some (take k ms)) (Some (take k trs)).
Proof.
  intros Hpar Hin Ht Hf Hm Htr asc k.
  assert (Hlen : length asc = k) by (unfold asc, k; by rewrite (sorted_Permutation rows)).
  pose proof Hpar as (P1 & P2 & P3).
  set (q := set_tran_texts (insert_rows asc trs (tran_texts p))
              (set_main_texts (insert_rows asc ms (main_texts p))
                 (set_frames (insert_rows asc fs (frames p))
                    (set_times (insert_rows asc ts (times p)) p)))).
  set (a := inserting_action reg asc).
  set (p1 := register_action a q).
  assert (Hins : insert_subtitles calc rows (Some ts) (Some fs) (Some ms)
                   (Some trs) reg p = Some p1).
  { unfold insert_subtitles. fold asc.
    rewrite _insert_data_Some by (rewrite Hlen; simpl; lia).
    simpl. rewrite !drop_0. reflexivity. }
  destruct (register_action_data a q) as (R1 & R2 & R3 & R4 & _).
  fold p1 in R1, R2, R3, R4. simpl in R1, R2, R3, R4.
  assert (L1 : length (times p1) = length (times p) + k)
    by (rewrite R1, insert_rows_length; lia).
  assert (L2 : length (frames p1) = length (frames p) + k)
    by (rewrite R2, insert_rows_length; lia).
  assert (L3 : length (main_texts p1) = length (main_texts p) + k)
    by (rewrite R3, insert_rows_length; lia).
  assert (L4 : length (tran_texts p1) = length (tran_texts p) + k)
    by (rewrite R4, insert_rows_length; lia).
  assert (I2 : insertable (length (frames p)) asc) by (by rewrite P1).
  assert (I3 : insertable (length (main_texts p)) asc) by (by rewrite P2).
  assert (I4 : insertable (length (tran_texts p)) asc) by (by rewrite P3).
  exists p1, a. eexists.
  exists {| register := reg1; docs := [MAIN; TRAN];
            description := "Removing subtitles";
            revert := Call_insert_subtitles asc (Some (take k ts))
                        (Some (take k fs)) (Some (take k ms))
                        (Some (take k trs));
            inserted_rows := []; removed_rows := asc; updated_rows := [];
            updated_positions := []; updated_main_texts := [];
            updated_tran_texts := [] |}.
  split; [done|]. split; [done|].
  split; [by apply (parallel_lengths p p1 k)|].
  split; [by apply (register_action_stack_kept a)|].
  do 2 (split; [reflexivity|]).
  split.
  { intros Hnd. pose proof (sorted_strict rows Hnd) as Hs. fold asc in Hs.
    rewrite R1, R2, R3, R4.
    destruct (inserted_rows_placed asc ts (times p) Hs Hin ltac:(lia)) as [-> ->].
    destruct (inserted_rows_placed asc fs (frames p) Hs I2 ltac:(lia)) as [-> ->].
    destruct (inserted_rows_placed asc ms (main_texts p) Hs I3 ltac:(lia))
      as [-> ->].
    destruct (inserted_rows_placed asc trs (tran_texts p) Hs I4 ltac:(lia))
      as [-> ->].
    by rewrite Hlen. }
  assert (Hrem : remove_loop (reverse asc) ([], [], [], []) p1
                 = Some ((take k ts, take k fs, take k ms, take k trs),
                         set_tran_texts (tran_texts p)
                           (set_main_texts (main_texts p)
                              (set_frames (frames p)
                                 (set_times (times p) p1))))).
  { apply remove_loop_Some.
    - rewrite R1, pop_insert_rows, app_nil_r, Hlen by (done || lia). done.
    - rewrite R2, pop_insert_rows, app_nil_r, Hlen by (done || lia). done.
    - rewrite R3, pop_insert_rows, app_nil_r, Hlen by (done || lia). done.
    - rewrite R4, pop_insert_rows, app_nil_r, Hlen by (done || lia). done. }
  split.
  { simpl. unfold remove_subtitles.
    rewrite (sorted_sorted rows : Py.sorted asc = asc), Hrem. simpl.
    reflexivity. }
  split; [by rewrite arrays_register_action|].
  split; [|reflexivity].
  match goal with |- context [register_action ?x _] =>
    apply (register_action_stack_kept x) end.
  done.
Qed.
End InsertData.

(* ------------------------------------------------------------------- *)
(** ** Blank subtitles *)
(* ------------------------------------------------------------------- *)

Lemma insert_blank_loop_rows blank start range_ : forall p,
  insert_blank_loop blank start range_ p
  = set_tran_texts
      (insert_rows (Nat.add start <$> range_)
         ((fun _ => EmptyString) <$> range_) (tran_texts p))
      (set_main_texts
         (insert_rows (Nat.add start <$> range_)
            ((fun _ => EmptyString) <$> range_) (main_texts p))
         (set_frames
            (insert_rows (Nat.add start <$> range_)
               ((fun i => (blank i).2) <$> range_) (frames p))
            (set_times
               (insert_rows (Nat.add start <$> range_)
                  ((fun i => (blank i).1) <$> range_) (times p)) p))).
Proof.
  induction range_ as [|i range_ IH]; intros p.
  - simpl. by destruct p.
  - cbn [insert_blank_loop]. rewrite IH. destruct p. reflexivity.
Qed.

Lemma insert_rows_seq {A} k : forall s (xs l : list A),
  s <= length l -> length xs = k ->
  insert_rows (seq s k) xs l = take s l ++ xs ++ drop s l.
Proof.
  induction k as [|k IH]; intros s xs l Hs Hlen.
  - destruct xs; [|done]. simpl. by rewrite take_drop.
  - destruct xs as [|x xs]; [done|]. simpl in Hlen |- *.
    unfold Py.insert.
    assert (Hlen' : length (take s l ++ [x]) = S s).
    { rewrite length_app, length_take. simpl. lia. }
    replace (take s l ++ x :: drop s l) with ((take s l ++ [x]) ++ drop s l)
      by (by rewrite <- app_assoc).
    rewrite IH; [|rewrite length_app; lia | lia].
    rewrite take_app_length', drop_app_length' by done.
    by rewrite <- !app_assoc.
Qed.

Lemma insertable_seq k : forall s n, s <= n -> insertable n (seq s k).
Proof. induction k as [|k IH]; intros s n Hs; simpl; [done|]. split; [done|]. apply IH. lia. Qed.

Section BlankRows.
Context {F : FloatOps} (calc : Calculator F).


Lemma _insert_blank_Some start k (p : Project) :
  parallel p -> start <= length (times p) ->
  exists blank,
    _insert_blank calc (seq start (S k)) p
    = Some (insert_blank_loop blank start (seq 0 (S k)) p) /\
    (get_mode p = FRAME ->
     blank = blank_row_frame calc (blank_frame_start start p)
               (blank_frame_duration calc start (S k) p)).
Proof.
  intros (P1 & _) Hs. unfold _insert_blank. rewrite min_seq. cbn [mbind option_bind].
  rewrite length_seq.
  unfold blank_frame_duration, blank_frame_start.
  destruct (get_mode p).
  - assert (exists st, (if 0 <? start
                        then pos ← times p !! (start - 1);
                             Some (time_to_seconds calc (hide pos))
                        else Some (Int 0%Z)) = Some st) as [st ->].
    { destruct (0 <? start) eqn:H0; [|by eexists].
      apply Nat.ltb_lt in H0.
      destruct (lookup_lt_is_Some_2 (times p) (start - 1) ltac:(lia)) as [x ->].
      by eexists. }
    cbn [mbind option_bind].
    destruct (start <? length (times p)) eqn:H1.
    + apply Nat.ltb_lt in H1.
      destruct (lookup_lt_is_Some_2 (times p) start H1) as [x ->].
      eexists. split; [reflexivity | done].
    + cbn [mbind option_bind]. eexists. split; [reflexivity | done].
  - destruct (0 <? start) eqn:H0.
    + apply Nat.ltb_lt in H0.
      destruct (lookup_lt_is_Some_2 (frames p) (start - 1) ltac:(lia)) as [x ->].
      cbn [mbind option_bind from_option].
      destruct (start <? length (times p)) eqn:H1.
      * apply Nat.ltb_lt in H1.
        destruct (lookup_lt_is_Some_2 (frames p) start ltac:(lia)) as [y ->].
        cbn [mbind option_bind]. eexists. split; [reflexivity | done].
      * cbn [mbind option_bind]. eexists. split; [reflexivity | done].
    + cbn [mbind option_bind].
      destruct (start <? length (times p)) eqn:H1.
      * apply Nat.ltb_lt in H1.
        destruct (lookup_lt_is_Some_2 (frames p) start ltac:(lia)) as [y ->].
        cbn [mbind option_bind]. eexists. split; [reflexivity | done].
      * cbn [mbind option_bind]. eexists. split; [reflexivity | done].
Qed.

Lemma insert_blank_rows_Some rows start k reg (p : Project) :
  parallel p -> rows ≡ₚ seq start (S k) -> start <= length (times p) ->
  exists blank,
    let ts := (fun i => (blank i).1) <$> seq 0 (S k) in
    let fs := (fun i => (blank i).2) <$> seq 0 (S k) in
    let q :=
      set_tran_texts
        (insert_rows (seq start (S k)) (replicate (S k) EmptyString)
           (tran_texts p))
        (set_main_texts
           (insert_rows (seq start (S k)) (replicate (S k) EmptyString)
              (main_texts p))
           (set_frames (insert_rows (seq start (S k)) fs (frames p))
              (set_times (insert_rows (seq start (S k)) ts (times p)) p))) in
    insert_subtitles calc rows None None None None reg p
    = Some (register_action (inserting_action reg (seq start (S k))) q) /\
    (get_mode p = FRAME ->
     blank = blank_row_frame calc (blank_frame_start start p)
               (blank_frame_duration calc start (S k) p)).
Proof.
  intros Hpar Hrows Hs.
  destruct (_insert_blank_Some start k p Hpar Hs) as (blank & Hb & Hmode).
  exists blank. split; [|done].
  unfold insert_subtitles.
  rewrite (sorted_of_Permutation _ _ Hrows), sorted_seq. cbn match.
  rewrite Hb. cbn [mbind option_bind].
  rewrite insert_blank_loop_rows.
  rewrite (fmap_add_seq start 0 (S k)), Nat.add_0_r.
  replace ((fun _ : nat => EmptyString) <$> seq 0 (S k))
    with (replicate (S k) EmptyString).
  2: { clear. generalize 0. induction (S k) as [|n IH]; intros m; [done|].
       simpl. f_equal. apply IH. }
  reflexivity.
Qed.

(** X19. [insert_subtitles] without data, for rows that are a single
    range starting within the document, completes in both modes: the new
    positions stand between the rows before [start_row] and the rows from
    [start_row] on, with empty texts in both documents, and the registered
    revert [remove_subtitles] restores the four arrays. *)
Theorem insert_blank_subtitles_revert_restores rows start k reg reg1
    (p : Project) :
  parallel p -> rows ≡ₚ seq start (S k) -> start <= length (times p) ->
  exists ts fs p1 a p2,
    insert_subtitles calc rows None None None None reg p = Some p1 /\
    length ts = S k /\ length fs = S k /\
    times p1 = take start (times p) ++ ts ++ drop start (times p) /\
    frames p1 = take start (frames p) ++ fs ++ drop start (frames p) /\
    main_texts p1
    = take start (main_texts p) ++ replicate (S k) EmptyString
      ++ drop start (main_texts p) /\
    tran_texts p1
    = take start (tran_texts p) ++ replicate (S k) EmptyString
      ++ drop start (tran_texts p) /\
    destination_stack reg p1 = Single a :: destination_stack reg p /\
    inserted_rows a = seq start (S k) /\
    revert a = Call_remove_subtitles (seq start (S k)) /\
    run_command calc (revert a) reg1 p1 = Some p2 /\
    arrays p2 = arrays p.
Proof.
  intros Hpar Hrows Hs. pose proof Hpar as (P1 & P2 & P3).
  destruct (insert_blank_rows_Some rows start k reg p Hpar Hrows Hs)
    as (blank & Hins & _).
  cbv zeta in Hins.
  set (ts := (fun i => (blank i).1) <$> seq 0 (S k)) in *.
  set (fs := (fun i => (blank i).2) <$> seq 0 (S k)) in *.
  set (bs := replicate (S k) EmptyString) in *.
  set (rs := seq start (S k)) in *.
  assert (Lt : length ts = S k) by (unfold ts; by rewrite length_fmap, length_seq).
  assert (Lf : length fs = S k) by (unfold fs; by rewrite length_fmap, length_seq).
  assert (Lb : length bs = S k) by (unfold bs; by rewrite length_replicate).
  assert (Lr : length rs = S k) by (unfold rs; by rewrite length_seq).
  match type of Hins with _ = Some (register_action ?x ?y) =>
    set (a := x) in *; set (q := y) in * end.
  destruct (register_action_data a q) as (R1 & R2 & R3 & R4 & _).
  change (times q) with (insert_rows rs ts (times p)) in R1.
  change (frames q) with (insert_rows rs fs (frames p)) in R2.
  change (main_texts q) with (insert_rows rs bs (main_texts p)) in R3.
  change (tran_texts q) with (insert_rows rs bs (tran_texts p)) in R4.
  exists ts, fs, (register_action a q), a. eexists.
  split; [exact Hins|]. do 2 (split; [done|]).
  split; [rewrite R1; apply insert_rows_seq; done|].
  split; [rewrite R2; apply insert_rows_seq; [lia | done]|].
  split; [rewrite R3; apply insert_rows_seq; [lia | done]|].
  split; [rewrite R4; apply insert_rows_seq; [lia | done]|].
  split; [by apply (register_action_stack_kept a)|].
  do 2 (split; [reflexivity|]).
  assert (Hrem : remove_loop (reverse rs) ([], [], [], []) (register_action a q)
                 = Some ((take (length rs) ts, take (length rs) fs,
                          take (length rs) bs, take (length rs) bs),
                         set_tran_texts (tran_texts p)
                           (set_main_texts (main_texts p)
                              (set_frames (frames p)
                                 (set_times (times p) (register_action a q)))))).
  { apply remove_loop_Some.
    - rewrite R1, pop_insert_rows, app_nil_r; [done | by apply insertable_seq | lia].
    - rewrite R2, pop_insert_rows, app_nil_r;
        [done | apply insertable_seq; lia | lia].
    - rewrite R3, pop_insert_rows, app_nil_r;
        [done | apply insertable_seq; lia | lia].
    - rewrite R4, pop_insert_rows, app_nil_r;
        [done | apply insertable_seq; lia | lia]. }
  split.
  { simpl. unfold remove_subtitles. fold rs.
    rewrite (sorted_seq start (S k) : Py.sorted rs = rs), Hrem. simpl.
    reflexivity. }
  by rewrite arrays_register_action.
Qed.
End BlankRows.

(* ------------------------------------------------------------------- *)
(** ** Blank subtitles in frame mode *)
(* ------------------------------------------------------------------- *)

Section AscendingFacts.
Context {A : Type} (ltb : A -> A -> bool).

Lemma ascending_app (l1 l2 : list A) :
  ascending ltb l1 -> ascending ltb l2 ->
  (forall y z, y ∈ l1 -> z ∈ l2 -> ltb z y = false) ->
  ascending ltb (l1 ++ l2).
Proof.
  intros H1 H2 Hc i j y z Hij Hi Hj.
  destruct (decide (j < length l1)) as [Hj1|Hj1].
  - rewrite lookup_app_l in Hi, Hj by lia. by apply (H1 i j).
  - rewrite lookup_app_r in Hj by lia.
    destruct (decide (i < length l1)) as [Hi1|Hi1].
    + rewrite lookup_app_l in Hi by lia.
      apply Hc; apply list_elem_of_lookup; eauto.
    + rewrite lookup_app_r in Hi by lia.
      apply (H2 (i - length l1) (j - length l1)); [lia | done | done].
Qed.

Lemma ascending_take (l : list A) n : ascending ltb l -> ascending ltb (take n l).
Proof.
  intros H i j y z Hij Hi Hj.
  apply lookup_take_Some in Hi as [Hi _]. apply lookup_take_Some in Hj as [Hj _].
  by apply (H i j).
Qed.

Lemma ascending_drop (l : list A) n : ascending ltb l -> ascending ltb (drop n l).
Proof.
  intros H i j y z Hij Hi Hj. rewrite lookup_drop in Hi, Hj.
  apply (H (n + i) (n + j)); [lia | done | done].
Qed.

Lemma StronglySorted_ascending (l : list A) :
  StronglySorted (fun y z => ltb z y = false) l -> ascending ltb l.
Proof.
  induction 1 as [|x l Hs IH Hall]; intros i j y z Hij Hi Hj.
  - done.
  - destruct j as [|j]; [lia|]. simpl in Hj. destruct i as [|i]; simpl in Hi.
    + injection Hi as <-. rewrite Forall_forall in Hall. apply Hall.
      apply list_elem_of_lookup. eauto.
    + apply (IH i j); [lia | done | done].
Qed.
End AscendingFacts.

Section BlankOrder.
Context {F : FloatOps} (calc : Calculator F).

(** X20. In frame mode the blank subtitles that [insert_subtitles]
    inserts follow one another without a gap from the hide frame of the
    row before (from frame 0 at the top): subtitle [i] is shown from
    [start] plus [i] durations to [start] plus [i + 1] durations. When the row
    before does not end before it starts, the row after is not shown
    before [start], and the duration at the end of the document is not
    negative, the duration is not negative, the last blank subtitle ends
    no later than the row after is shown, and the show frames stay in
    non-decreasing order. *)
Theorem blank_frames_fill_the_gap rows start k reg (p : Project) :
  get_mode p = FRAME -> parallel p -> shows_in_order p ->
  rows ≡ₚ seq start (S k) -> start <= length (times p) ->
  let st := blank_frame_start start p in
  let d := blank_frame_duration calc start (S k) p in
  (forall f, 0 < start -> frames p !! (start - 1) = Some f ->
     (show f <= hide f)%Z) ->
  (forall g, frames p !! start = Some g -> (st <= show g)%Z) ->
  (length (times p) <= start -> (0 <= d)%Z) ->
  exists p1,
    insert_subtitles calc rows None None None None reg p = Some p1 /\
    (forall i, i <= k ->
       exists f, frames p1 !! (start + i) = Some f /\
                 show f = (st + Z.of_nat i * d)%Z /\
                 hide f = (st + (Z.of_nat i + 1) * d)%Z) /\
    (0 <= d)%Z /\
    (forall g, frames p !! start = Some g ->
       (st + (Z.of_nat k + 1) * d <= show g)%Z) /\
    shows_in_order p1.
Proof.
  intros Hmode Hpar Hord Hrows Hs st d Hprev Hnext Hend.
  pose proof Hpar as (P1 & P2 & P3).
  destruct (insert_blank_rows_Some calc rows start k reg p Hpar Hrows Hs)
    as (blank & Hins & Hblank).
  specialize (Hblank Hmode). fold st d in Hblank. cbv zeta in Hins.
  match type of Hins with _ = Some (register_action ?x ?y) =>
    set (a := x) in *; set (q := y) in * end.
  set (fs := (fun i => (blank i).2) <$> seq 0 (S k)).
  assert (Hfr : frames (register_action a q)
                = take start (frames p) ++ fs ++ drop start (frames p)).
  { destruct (register_action_data a q) as (_ & -> & _).
    apply insert_rows_seq; [lia|]. unfold fs. by rewrite length_fmap, length_seq. }
  assert (Hfs : forall i, i <= k ->
            fs !! i = Some (blank_row_frame calc st d i).2).
  { intros i Hi. unfold fs. rewrite list_lookup_fmap, lookup_seq_lt by lia.
    simpl. by rewrite Hblank. }
  assert (Hd : (0 <= d)%Z).
  { destruct (decide (start < length (times p))) as [Hlt|Hge]; [|apply Hend; lia].
    destruct (lookup_lt_is_Some_2 (frames p) start ltac:(lia)) as [g Hg].
    specialize (Hnext g Hg). unfold d, blank_frame_duration.
    rewrite (proj2 (Nat.ltb_lt _ _) Hlt), Hg. simpl. fold st.
    apply Z.div_pos; lia. }
  assert (Hlast : forall g, frames p !! start = Some g ->
            (st + (Z.of_nat k + 1) * d <= show g)%Z).
  { intros g Hg. pose proof (lookup_lt_Some _ _ _ Hg) as Hlt.
    specialize (Hnext g Hg). unfold d, blank_frame_duration.
    assert (start < length (times p)) as Hlt' by lia.
    rewrite (proj2 (Nat.ltb_lt _ _) Hlt'), Hg.
    simpl from_option. fold st.
    pose proof (Z.mul_div_le (show g - st) (Z.of_nat (S k)) ltac:(lia)). lia. }
  exists (register_action a q). split; [exact Hins|].
  split.
  { intros i Hi. exists (blank_row_frame calc st d i).2.
    split; [|done]. rewrite Hfr.
    rewrite lookup_app_r by (rewrite length_take; lia).
    rewrite length_take, Nat.min_l by lia.
    replace (start + i - start) with i by lia.
    rewrite lookup_app_l by (unfold fs; rewrite length_fmap, length_seq; lia).
    by apply Hfs. }
  do 2 (split; [done|]).
  unfold shows_in_order, get_mode in *.
  destruct (register_action_data a q) as (_ & _ & _ & _ & -> & _).
  change (main_file q) with (main_file p).
  destruct (main_file p) as [[]|]; [done| |done]. clear Hmode.
  rewrite Hfr, !fmap_app, fmap_take, fmap_drop.
  set (S := show <$> frames p) in *.
  assert (HB : forall z, z ∈ show <$> fs ->
            exists i, i <= k /\ z = (st + Z.of_nat i * d)%Z).
  { intros z (f & -> & Hf)%list_elem_of_fmap.
    apply list_elem_of_lookup in Hf as (i & Hi).
    assert (i <= k) as Hik.
    { apply lookup_lt_Some in Hi. unfold fs in Hi.
      rewrite length_fmap, length_seq in Hi. lia. }
    rewrite Hfs in Hi by done. injection Hi as <-. by exists i. }
  assert (Hle : forall i j y z, i <= j -> S !! i = Some y -> S !! j = Some z ->
            (y <= z)%Z).
  { intros i j y z Hij Hi Hj. apply Z.ltb_ge.
    by apply (ascending_le Z.ltb Z_ltb_StrictTotal S i j). }
  apply ascending_app; [by apply ascending_take| |].
  - apply ascending_app; [|by apply ascending_drop|].
    + intros i j y z Hij Hi Hj.
      assert (j <= k) as Hjk.
      { apply lookup_lt_Some in Hj. unfold fs in Hj.
        rewrite length_fmap, length_fmap, length_seq in Hj. lia. }
      rewrite list_lookup_fmap, Hfs in Hi by lia.
      rewrite list_lookup_fmap, Hfs in Hj by lia.
      simpl in Hi, Hj. injection Hi as <-. injection Hj as <-.
      apply Z.ltb_ge. nia.
    + intros y z Hy Hz. apply Z.ltb_ge.
      destruct (HB y Hy) as (i & Hi & ->).
      apply list_elem_of_lookup in Hz as (j & Hj). rewrite lookup_drop in Hj.
      assert (start < length (frames p)) as Hlt.
      { apply lookup_lt_Some in Hj. unfold S in Hj. rewrite length_fmap in Hj. lia. }
      destruct (lookup_lt_is_Some_2 (frames p) start Hlt) as [g Hg].
      pose proof (Hlast g Hg).
      assert (show g <= z)%Z.
      { apply (Hle start (start + j)); [lia | | done].
        unfold S. by rewrite list_lookup_fmap, Hg. }
      nia.
  - intros y z Hy Hz. apply Z.ltb_ge.
    apply list_elem_of_lookup in Hy as (j & Hj).
    apply lookup_take_Some in Hj as [Hj Hjs].
    destruct (lookup_lt_is_Some_2 (frames p) (start - 1) ltac:(lia)) as [f Hf].
    assert (y <= show f)%Z.
    { apply (Hle j (start - 1)); [lia | done |].
      unfold S. by rewrite list_lookup_fmap, Hf. }
    apply elem_of_app in Hz as [Hz|Hz].
    + destruct (HB z Hz) as (i & Hi & ->).
      assert (st = hide f) as Hst.
      { unfold st, blank_frame_start.
        assert (0 < start) as H0 by lia.
        rewrite (proj2 (Nat.ltb_lt _ _) H0), Hf. done. }
      specialize (Hprev f ltac:(lia) Hf). nia.
    + apply list_elem_of_lookup in Hz as (j' & Hj'). rewrite lookup_drop in Hj'.
      apply (Hle j (start + j')); [lia | done | done].
Qed.
End BlankOrder.

(* ------------------------------------------------------------------- *)
(** ** What the operations keep *)
(* ------------------------------------------------------------------- *)

Lemma pop_rows_length {A} rows : forall (acc l acc' l' : list A),
  pop_rows rows acc l = Some (acc', l') ->
  length l' + length rows = length l.
Proof.
  induction rows as [|r rows IH]; intros acc l acc' l' H.
  - simpl in H. injection H as <- <-. simpl. lia.
  - simpl in H. unfold Py.pop in H.
    destruct (l !! r) as [x|] eqn:Hx; [|done]. simpl in H.
    apply IH in H. rewrite length_delete in H by eauto.
    apply lookup_lt_Some in Hx. simpl. lia.
Qed.

Lemma pop_rows_ascending {A B} (ltb : B -> B -> bool) (f : A -> B) rows :
  forall (acc l acc' l' : list A),
  pop_rows rows acc l = Some (acc', l') ->
  ascending ltb (f <$> l) -> ascending ltb (f <$> l').
Proof.
  induction rows as [|r rows IH]; intros acc l acc' l' H Hasc.
  - simpl in H. by injection H as <- <-.
  - simpl in H. unfold Py.pop in H.
    destruct (l !! r) as [x|] eqn:Hx; [|done]. simpl in H.
    apply IH in H; [done|].
    rewrite list_fmap_delete, <- without_delete. by apply ascending_without.
Qed.

(** X21. [remove_subtitles] keeps the show values of the authoritative
    array in non-decreasing order. *)
Theorem remove_subtitles_keeps_shows_in_order rows reg (p p1 : Project) :
  shows_in_order p -> remove_subtitles rows reg p = Some p1 ->
  shows_in_order p1.
Proof.
  unfold remove_subtitles. intros Hord H.
  destruct (remove_loop (reverse (Py.sorted rows)) ([], [], [], []) p)
    as [[[[[ts fs] ms] trs] p']|] eqn:Hl; [|done].
  simpl in H. injection H as <-.
  apply remove_loop_inv in Hl as (G1 & G2 & _ & _ & Hm & _).
  unfold shows_in_order, get_mode in *.
  match goal with |- context [register_action ?x p'] =>
    destruct (register_action_data x p') as (-> & -> & _ & _ & -> & _) end.
  rewrite Hm. destruct (main_file p) as [[]|].
  - by apply (pop_rows_ascending _ _ _ _ _ _ _ G1).
  - by apply (pop_rows_ascending _ _ _ _ _ _ _ G2).
  - by apply (pop_rows_ascending _ _ _ _ _ _ _ G1).
Qed.

Lemma parallel_kept (p q : Project) :
  length (times q) = length (times p) ->
  length (frames q) = length (frames p) ->
  length (main_texts q) = length (main_texts p) ->
  length (tran_texts q) = length (tran_texts p) ->
  parallel p -> parallel q.
Proof. unfold parallel. lia. Qed.

Lemma _insert_data_lengths rows : forall i t f m tr (p p' : Project),
  _insert_data i rows t f m tr p = Some p' ->
  length (times p') = length (times p) + length rows /\
  length (frames p') = length (frames p) + length rows /\
  length (main_texts p') = length (main_texts p) + length rows /\
  length (tran_texts p') = length (tran_texts p) + length rows.
Proof.
  induction rows as [|row rows IH]; intros i t f m tr p p' H.
  - simpl in H. injection H as <-. simpl. lia.
  - cbn [_insert_data] in H.
    destruct (t !! i) as [x1|]; [|done]. cbn [mbind option_bind] in H.
    destruct (f !! i) as [x2|]; [|done]. cbn [mbind option_bind] in H.
    destruct (m !! i) as [x3|]; [|done]. cbn [mbind option_bind] in H.
    destruct (tr !! i) as [x4|]; [|done]. cbn [mbind option_bind] in H.
    apply IH in H as (H1 & H2 & H3 & H4). simpl in H1, H2, H3, H4.
    rewrite insert_length in H1; rewrite insert_length in H2;
    rewrite insert_length in H3; rewrite insert_length in H4. simpl. lia.
Qed.

Lemma insert_blank_loop_lengths blank start range_ : forall (p : Project),
  let p' := insert_blank_loop blank start range_ p in
  length (times p') = length (times p) + length range_ /\
  length (frames p') = length (frames p) + length range_ /\
  length (main_texts p') = length (main_texts p) + length range_ /\
  length (tran_texts p') = length (tran_texts p) + length range_.
Proof.
  induction range_ as [|i range_ IH]; intros p; [simpl; lia|].
  cbn [insert_blank_loop]. cbv zeta.
  match goal with |- context [insert_blank_loop _ _ _ ?q] =>
    destruct (IH q) as (H1 & H2 & H3 & H4) end.
  simpl in H1, H2, H3, H4. rewrite insert_length in H1; rewrite insert_length in H2;
    rewrite insert_length in H3; rewrite insert_length in H4.
  simpl. lia.
Qed.

Section Parallel.
Context {F : FloatOps} (calc : Calculator F).

Lemma _insert_blank_lengths rows (p p' : Project) :
  _insert_blank calc rows p = Some p' ->
  length (times p') = length (times p) + length rows /\
  length (frames p') = length (frames p) + length rows /\
  length (main_texts p') = length (main_texts p) + length rows /\
  length (tran_texts p') = length (tran_texts p) + length rows.
Proof.
  unfold _insert_blank. intros H.
  destruct (Py.min rows) as [start|]; [|done]. cbn [mbind option_bind] in H.
  destruct (get_mode p).
  - match type of H with (?x ≫= _) = _ => destruct x as [st|]; [|done] end.
    cbn [mbind option_bind] in H.
    match type of H with (?x ≫= _) = _ => destruct x as [du|]; [|done] end.
    cbn [mbind option_bind] in H. injection H as <-.
    match goal with |- context [insert_blank_loop ?b ?s ?r p] =>
      pose proof (insert_blank_loop_lengths b s r p) as Hl end.
    cbv zeta in Hl. by rewrite length_seq in Hl.
  - match type of H with (?x ≫= _) = _ => destruct x as [st|]; [|done] end.
    cbn [mbind option_bind] in H.
    match type of H with (?x ≫= _) = _ => destruct x as [du|]; [|done] end.
    cbn [mbind option_bind] in H. injection H as <-.
    match goal with |- context [insert_blank_loop ?b ?s ?r p] =>
      pose proof (insert_blank_loop_lengths b s r p) as Hl end.
    cbv zeta in Hl. by rewrite length_seq in Hl.
Qed.

Lemma insert_subtitles_lengths rows t f m tr reg (p p' : Project) :
  insert_subtitles calc rows t f m tr reg p = Some p' ->
  length (times p') = length (times p) + length rows /\
  length (frames p') = length (frames p) + length rows /\
  length (main_texts p') = length (main_texts p) + length rows /\
  length (tran_texts p') = length (tran_texts p) + length rows.
Proof.
  unfold insert_subtitles. intros H.
  match type of H with (?x ≫= _) = _ => destruct x as [q|] eqn:Hq; [|done] end.
  cbn [mbind option_bind] in H. injection H as <-.
  match goal with |- context [register_action ?x q] =>
    destruct (register_action_data x q) as (-> & -> & -> & -> & _) end.
  rewrite <- (Permutation_length (sorted_Permutation rows)).
  destruct t, f, m, tr;
    first [by apply _insert_data_lengths in Hq
          |by apply _insert_blank_lengths in Hq].
Qed.

Lemma remove_subtitles_lengths rows reg (p p' : Project) :
  remove_subtitles rows reg p = Some p' ->
  length (times p') + length rows = length (times p) /\
  length (frames p') + length rows = length (frames p) /\
  length (main_texts p') + length rows = length (main_texts p) /\
  length (tran_texts p') + length rows = length (tran_texts p).
Proof.
  unfold remove_subtitles. intros H.
  destruct (remove_loop (reverse (Py.sorted rows)) ([], [], [], []) p)
    as [[[[[ts fs] ms] trs] q]|] eqn:Hl; [|done].
  simpl in H. injection H as <-.
  apply remove_loop_inv in Hl as (G1 & G2 & G3 & G4 & _).
  match goal with |- context [register_action ?x q] =>
    destruct (register_action_data x q) as (-> & -> & -> & -> & _) end.
  apply pop_rows_length in G1, G2, G3, G4.
  rewrite length_reverse, (Permutation_length (sorted_Permutation rows))
    in G1, G2, G3, G4.
  done.
Qed.

Lemma replace_texts_lengths rows document new_texts reg (p p' : Project) :
  replace_texts rows document new_texts reg p = Some p' ->
  length (times p') = length (times p) /\
  length (frames p') = length (frames p) /\
  length (main_texts p') = length (main_texts p) /\
  length (tran_texts p') = length (tran_texts p).
Proof.
  intros H. apply replace_texts_inv in H as (origs & l & Hl & ->).
  apply replace_loop_length in Hl as [Hl _].
  match goal with |- context [register_action ?x ?q] =>
    destruct (register_action_data x q) as (-> & -> & -> & -> & _) end.
  destruct document; simpl in *; by rewrite Hl.
Qed.

Lemma set_action_description_arrays reg label (p p' : Project) :
  set_action_description reg label p = Some p' -> arrays p' = arrays p.
Proof.
  unfold set_action_description.
  destruct (destination_stack reg p) as [|[a|l actions] rest]; [done| |];
    intros [= <-]; by destruct reg.
Qed.

Lemma group_actions_arrays reg n label (p p' : Project) :
  group_actions reg n label p = Some p' -> arrays p' = arrays p.
Proof.
  unfold group_actions. destruct (n <=? _); [|done].
  intros [= <-]. by destruct reg.
Qed.

Lemma arrays_lengths (p q : Project) :
  arrays q = arrays p ->
  length (times q) = length (times p) /\
  length (frames q) = length (frames p) /\
  length (main_texts q) = length (main_texts p) /\
  length (tran_texts q) = length (tran_texts p).
Proof. unfold arrays. by intros [= -> -> -> ->]. Qed.

(** X23. Every editing operation that completes on a project whose
    four arrays have the same length leaves them with the same length. *)
Theorem operations_keep_the_arrays_parallel (p : Project) :
  parallel p ->
  (forall rows t f m tr reg p',
     insert_subtitles calc rows t f m tr reg p = Some p' -> parallel p') /\
  (forall rows reg p', remove_subtitles rows reg p = Some p' -> parallel p') /\
  (forall rows document new_texts reg p',
     replace_texts rows document new_texts reg p = Some p' -> parallel p') /\
  (forall rows new_texts reg p',
     replace_both_texts rows new_texts reg p = Some p' -> parallel p') /\
  (forall row document value reg p',
     set_text row document value reg p = Some p' -> parallel p') /\
  (forall row col value reg r p',
     set_time calc row col value reg p = Some (r, p') -> parallel p') /\
  (forall row col value reg r p',
     set_frame calc row col value reg p = Some (r, p') -> parallel p') /\
  (forall start_row document reg rows p',
     paste_texts calc start_row document reg p = Some (rows, p') ->
     parallel p') /\
  (forall rows document reg p',
     clear_texts rows document reg p = Some p' -> parallel p') /\
  (forall rows document reg p',
     cut_texts rows document reg p = Some p' -> parallel p').
Proof.
  intros Hpar. pose proof Hpar as (P1 & P2 & P3).
  split; [|split; [|split; [|split; [|split; [|split; [|split; [|split;
    [|split]]]]]]]].
  - intros rows t f m tr reg p' H.
    apply insert_subtitles_lengths in H as (H1 & H2 & H3 & H4).
    unfold parallel. lia.
  - intros rows reg p' H.
    apply remove_subtitles_lengths in H as (H1 & H2 & H3 & H4).
    unfold parallel. lia.
  - intros rows document new_texts reg p' H.
    apply replace_texts_lengths in H as (H1 & H2 & H3 & H4).
    unfold parallel. lia.
  - intros rows new_texts reg p' H.
    apply replace_both_texts_inv in H
      as (om & lm & ot & lt & a & Hm & Ht & -> & _).
    apply replace_loop_length in Hm as [Hm _].
    apply replace_loop_length in Ht as [Ht _].
    match goal with |- context [register_action ?x ?q] =>
      destruct (register_action_data x q) as (R1 & R2 & R3 & R4 & _) end.
    unfold parallel. rewrite R1, R2, R3, R4. simpl. lia.
  - intros row document value reg p' H. unfold set_text in H.
    assert (exists orig,
              texts_of document p !! row = Some orig /\
              (if String.eqb value orig
               then Some (set_texts document (<[row:=value]> (texts_of document p)) p)
               else
                 Some (register_action
                   {| register := reg; docs := [document];
                      description := "Editing text";
                      revert := Call_set_text row document orig;
                      inserted_rows := []; removed_rows := [];
                      updated_rows := []; updated_positions := [];
                      updated_main_texts :=
                        match document with MAIN => [row] | TRAN => [] end;
                      updated_tran_texts :=
                        match document with MAIN => [] | TRAN => [row] end |}
                   (set_texts document (<[row:=value]> (texts_of document p)) p)))
              = Some p') as (orig & Ho & H').
    { destruct document; simpl in *.
      - destruct (main_texts p !! row) as [orig|]; [|done]. by exists orig.
      - destruct (tran_texts p !! row) as [orig|]; [|done]. by exists orig. }
    clear H.
    assert (parallel (set_texts document (<[row:=value]> (texts_of document p)) p))
      as Hq.
    { unfold parallel. destruct document; simpl; rewrite ?length_insert; done. }
    destruct (String.eqb value orig); injection H' as <-; [done|].
    match goal with |- context [register_action ?x ?q] =>
      destruct (register_action_data x q) as (R1 & R2 & R3 & R4 & _) end.
    unfold parallel. rewrite R1, R2, R3, R4. exact Hq.
  - intros row col value reg r p' H.
    destruct (times p !! row) as [t0|] eqn:Ht;
      [|unfold set_time in H; by rewrite Ht in H].
    destruct (lookup_lt_is_Some_2 (frames p) row) as [f0 Hf].
    { rewrite P1. by eapply lookup_lt_Some. }
    destruct (decide (value = getcol t0 col)) as [->|Hne].
    { rewrite (set_time_unchanged calc row col reg p t0 Ht) in H.
      by injection H as _ <-. }
    destruct (set_time_Some calc row col value reg p t0 f0 Hpar Ht Hf Hne)
      as (a & q & Hs & _ & _ & _ & _ & _ & _ & Hmv).
    rewrite Hs in H. injection H as _ <-.
    by destruct Hmv as (_ & _ & _ & _ & _ & _ & _ & _ & Hq & _).
  - intros row col value reg r p' H.
    destruct (frames p !! row) as [f0|] eqn:Hf;
      [|unfold set_frame in H; by rewrite Hf in H].
    destruct (lookup_lt_is_Some_2 (times p) row) as [t0 Ht].
    { rewrite <- P1. by eapply lookup_lt_Some. }
    destruct (decide (value = getcol f0 col)) as [->|Hne].
    { rewrite (set_frame_unchanged calc row col reg p f0 Hf) in H.
      by injection H as _ <-. }
    destruct (set_frame_Some calc row col value reg p t0 f0 Hpar Ht Hf Hne)
      as (a & q & Hs & _ & _ & _ & _ & _ & _ & Hmv).
    rewrite Hs in H. injection H as _ <-.
    by destruct Hmv as (_ & _ & _ & _ & _ & _ & _ & _ & Hq & _).
  - intros start_row document reg rows p' H. unfold paste_texts in H.
    match type of H with (?x ≫= _) = _ => destruct x as [q1|] eqn:H1; [|done] end.
    cbn [mbind option_bind] in H.
    destruct (pasted 0 start_row (clipboard p)) as [rs news].
    destruct (replace_texts rs document news reg q1) as [q2|] eqn:H2; [|done].
    cbn [mbind option_bind] in H.
    match type of H with (?x ≫= _) = _ => destruct x as [q3|] eqn:H3; [|done] end.
    cbn [mbind option_bind] in H. injection H as _ <-.
    assert (parallel q1) as Hq1.
    { destruct (0 <? _)%Z.
      - apply insert_subtitles_lengths in H1 as (L1 & L2 & L3 & L4).
        simpl in L1, L2, L3, L4. unfold parallel. lia.
      - by injection H1 as <-. }
    assert (parallel q2) as Hq2.
    { apply replace_texts_lengths in H2 as (L1 & L2 & L3 & L4).
      destruct Hq1 as (? & ? & ?). unfold parallel. lia. }
    assert (arrays q3 = arrays q2) as Ha.
    { destruct (0 <? _)%Z.
      - apply group_actions_arrays in H3. rewrite H3. done.
      - by apply set_action_description_arrays in H3. }
    by apply (parallel_arrays q2 q3).
  - intros rows document reg p' H.
    apply clear_texts_inv in H as (origs & l & Hl & T3 & T4 & T1 & T2 & _).
    apply replace_loop_length in Hl as [Hl _]. subst l.
    unfold parallel. rewrite T1, T2.
    destruct document; simpl in *; rewrite ?T4, ?Hl; done.
  - intros rows document reg p' H. unfold cut_texts in H.
    destruct (copy_texts rows document p) as [p0|] eqn:Hc; [|done].
    cbn [mbind option_bind] in H.
    destruct (clear_texts rows document reg p0) as [pc|] eqn:Hcl; [|done].
    cbn [mbind option_bind] in H.
    apply copy_texts_inv in Hc as (lo & hi & _ & _ & _ & _ & _ & _ & _ & _ & Ha & _).
    apply set_action_description_arrays in H.
    apply (parallel_arrays pc p' H).
    apply clear_texts_inv in Hcl as (origs & l & Hl & T3 & T4 & T1 & T2 & _).
    apply replace_loop_length in Hl as [Hl _]. subst l.
    pose proof (parallel_arrays p p0 Ha Hpar) as (Q1 & Q2 & Q3).
    unfold parallel. rewrite T1, T2.
    destruct document; simpl in *; rewrite ?T4, ?Hl; done.
Qed.
End Parallel.

(* ------------------------------------------------------------------- *)
(** ** The query for a resort *)
(* ------------------------------------------------------------------- *)

Section BisectExt.
Context {A : Type} (ltb : A -> A -> bool).

Lemma bisect_loop_ext n (a : list A) x x' :
  (forall y, y ∈ a -> ltb x y = ltb x' y) ->
  forall lo hi, bisect_loop ltb n a x lo hi = bisect_loop ltb n a x' lo hi.
Proof.
  intros Hext. induction n as [|n IH]; intros lo hi; [done|].
  rewrite !bisect_loop_S. destruct (lo <? hi); [|done].
  destruct (a !! ((lo + hi) / 2)) as [y|] eqn:Hy; [|done].
  rewrite <- (Hext y) by (apply list_elem_of_lookup; eauto).
  destruct (ltb x y); apply IH.
Qed.

Lemma bisect_right_ext (a : list A) x x' :
  (forall y, y ∈ a -> ltb x y = ltb x' y) ->
  bisect_right ltb a x = bisect_right ltb a x'.
Proof. intros H. by apply bisect_loop_ext. Qed.

Lemma lex3_durn (Hord : StrictTotal ltb) s h d d' (y : Position A) :
  ~ (show y = s /\ hide y = h) ->
  lex3 ltb (mkPos s h d) y = lex3 ltb (mkPos s h d') y.
Proof.
  intros Hne. unfold lex3. simpl.
  destruct (ltb s (show y)) eqn:E1; [done|].
  destruct (ltb (show y) s) eqn:E2; [done|].
  destruct (ltb h (hide y)) eqn:E3; [done|].
  destruct (ltb (hide y) h) eqn:E4; [done|].
  destruct Hne. split.
  - by apply (st_total ltb Hord).
  - by apply (st_total ltb Hord).
Qed.
End BisectExt.

Lemma elem_of_without {A} row (l : list A) y :
  y ∈ Py.without row l -> exists j, j <> row /\ l !! j = Some y.
Proof.
  rewrite without_delete. intros (i & Hi)%list_elem_of_lookup.
  rewrite list_lookup_delete in Hi. destruct (decide (i < row)).
  - exists i. split; [lia | done].
  - exists (S i). split; [lia | done].
Qed.

Section NeedsResortFacts.
Context {F : FloatOps} (calc : Calculator F) (py_int : string -> option Z).

Lemma get_needs_resort_Some row value (p : Project) t0 f0 :
  times p !! row = Some t0 -> frames p !! row = Some f0 ->
  let new_time :=
    match int_of_show_value py_int value with
    | inr s => s
    | inl z => frame_to_time calc z
    end in
  let new_frame :=
    match int_of_show_value py_int value with
    | inr s => time_to_frame calc s
    | inl z => z
    end in
  get_needs_resort calc py_int row value p
  = Some (negb (sorted_index p row (mkPos new_time (hide t0) (durn t0))
                  (mkPos new_frame (hide f0) (durn f0)) =? row)).
Proof.
  intros Ht Hf. unfold get_needs_resort, get_positions, sorted_index.
  destruct (get_mode p); simpl; rewrite ?Ht, ?Hf; done.
Qed.

Lemma sorted_index_durn (p : Project) row st ht d1 d1' sf hf d2 d2' :
  no_other_row_at p row (mkPos st ht d1) (mkPos sf hf d2) ->
  sorted_index p row (mkPos st ht d1) (mkPos sf hf d2)
  = sorted_index p row (mkPos st ht d1') (mkPos sf hf d2').
Proof.
  unfold no_other_row_at, sorted_index. intros Hno.
  destruct (get_mode p); apply bisect_right_ext;
    intros y (j & Hj & Hy)%elem_of_without.
  - apply (lex3_durn String.ltb String_ltb_StrictTotal). by apply (Hno j).
  - apply (lex3_durn Z.ltb Z_ltb_StrictTotal). by apply (Hno j).
Qed.

(** X24. [get_needs_resort] answers for a new show value whether
    [set_time] (for a time) or [set_frame] (for a frame) moves the row,
    provided the value differs from the present one and no other row has
    both the new show value and the hide value of the row: the query
    bisects with the old duration, the edit with the recalculated one. *)
Theorem get_needs_resort_predicts_the_move row reg (p : Project) t0 f0 :
  parallel p ->
  times p !! row = Some t0 -> frames p !! row = Some f0 ->
  (forall s, py_int s = None -> s <> show t0 ->
     no_other_row_at p row (setcol t0 SHOW s)
       (setcol f0 SHOW (time_to_frame calc s)) ->
     exists r p',
       set_time calc row SHOW s reg p = Some (r, p') /\
       get_needs_resort calc py_int row (inr s) p = Some (negb (r =? row))) /\
  (forall z, z <> show f0 ->
     no_other_row_at p row (setcol t0 SHOW (frame_to_time calc z))
       (setcol f0 SHOW z) ->
     exists r p',
       set_frame calc row SHOW z reg p = Some (r, p') /\
       get_needs_resort calc py_int row (inl z) p = Some (negb (r =? row))).
Proof.
  intros Hpar Ht Hf. split.
  - intros s Hint Hne Hno.
    destruct (set_time_Some calc row SHOW s reg p t0 f0 Hpar Ht Hf Hne)
      as (a & p' & Hs & _).
    eexists. exists p'. split; [exact Hs|].
    rewrite (get_needs_resort_Some row (inr s) p t0 f0 Ht Hf).
    simpl. rewrite Hint. do 3 f_equal.
    symmetry. by apply sorted_index_durn.
  - intros z Hne Hno.
    destruct (set_frame_Some calc row SHOW z reg p t0 f0 Hpar Ht Hf Hne)
      as (a & p' & Hs & _).
    eexists. exists p'. split; [exact Hs|].
    rewrite (get_needs_resort_Some row (inl z) p t0 f0 Ht Hf).
    simpl. do 3 f_equal.
    symmetry. by apply sorted_index_durn.
Qed.
End NeedsResortFacts.

(* ------------------------------------------------------------------- *)
(** ** Rows beyond the end, no rows, repeated rows *)
(* ------------------------------------------------------------------- *)

Lemma arrays_parallel_lookup (p : Project) r :
  parallel p -> r < length (times p) ->
  is_Some (times p !! r) /\ is_Some (frames p !! r) /\
  is_Some (main_texts p !! r) /\ is_Some (tran_texts p !! r).
Proof.
  intros (P1 & P2 & P3) Hr.
  repeat split; apply lookup_lt_is_Some_2; lia.
Qed.

(** X15. For rows without repetition, [remove_subtitles] completes
    exactly when every row is a row of the document; a row beyond the end
    raises at the first [pop]. *)
Theorem remove_subtitles_completes_iff rows reg (p : Project) :
  parallel p -> NoDup rows ->
  (is_Some (remove_subtitles rows reg p) <->
   forall r, r ∈ rows -> r < length (times p)).
Proof.
  intros Hpar Hnd. split.
  - intros [p1 H] r Hr. unfold remove_subtitles in H.
    pose proof (sorted_StronglySorted rows) as Hs.
    rewrite <- (sorted_Permutation rows) in Hr.
    destruct (Py.sorted rows) as [|x asc _] using rev_ind;
      [by apply elem_of_nil in Hr|].
    rewrite reverse_snoc in H. cbn [remove_loop] in H.
    assert (x < length (times p)) as Ht.
    { destruct (times p !! x) as [t|] eqn:Ht; [by apply lookup_lt_Some in Ht|].
      assert (Py.pop x (times p) = None) as Hp by (unfold Py.pop; by rewrite Ht).
      rewrite Hp in H. done. }
    apply elem_of_app in Hr as [Hr|Hr].
    + pose proof (StronglySorted_app_1_elem_of _ _ _ r x Hs Hr
                    ltac:(apply list_elem_of_here)). lia.
    + apply list_elem_of_singleton in Hr as ->. done.
  - intros Hr.
    by rewrite (remove_subtitles_Some rows reg p Hpar Hnd Hr).
Qed.

Section Edges.
Context {F : FloatOps} (calc : Calculator F).

(** X18. [list.insert] appends for an index beyond the end, so
    [insert_subtitles] with data for a row beyond the end completes and
    appends the subtitle; the revert it registers, [remove_subtitles] of
    that row, then raises. *)
Theorem insert_beyond_the_end_cannot_be_reverted row t f m tr reg reg1
    (p : Project) :
  parallel p -> length (times p) < row ->
  exists p1 a,
    insert_subtitles calc [row] (Some [t]) (Some [f]) (Some [m]) (Some [tr])
      reg p = Some p1 /\
    arrays p1
    = (times p ++ [t], frames p ++ [f], main_texts p ++ [m],
       tran_texts p ++ [tr]) /\
    destination_stack reg p1 = Single a :: destination_stack reg p /\
    revert a = Call_remove_subtitles [row] /\
    run_command calc (revert a) reg1 p1 = None.
Proof.
  intros (P1 & P2 & P3) Hrow.
  assert (forall A (x : A) l, length l < row -> Py.insert row x l = l ++ [x])
    as Hins.
  { intros A x l Hl. unfold Py.insert.
    by rewrite take_ge, drop_ge by lia. }
  set (q := set_tran_texts (Py.insert row tr (tran_texts p))
              (set_main_texts (Py.insert row m (main_texts p))
                 (set_frames (Py.insert row f (frames p))
                    (set_times (Py.insert row t (times p)) p)))).
  set (a := inserting_action reg [row]).
  exists (register_action a q), a.
  split; [reflexivity|].
  split.
  { rewrite arrays_register_action. unfold arrays, q. simpl.
    rewrite !Hins by lia. done. }
  split; [by apply (register_action_stack_kept a)|].
  split; [done|].
  assert (Py.pop row (times (register_action a q)) = None) as Hpop.
  { unfold Py.pop. destruct (register_action_data a q) as (-> & _).
    change (times q) with (Py.insert row t (times p)).
    rewrite Hins by lia.
    rewrite lookup_ge_None_2; [done|]. rewrite length_app. simpl. lia. }
  change (run_command calc (revert a) reg1 (register_action a q))
    with (remove_subtitles [row] reg1 (register_action a q)).
  unfold remove_subtitles.
  change (reverse (Py.sorted [row])) with [row].
  cbn [remove_loop]. rewrite Hpop. reflexivity.
Qed.

(** X25. On an empty list of rows: [insert_subtitles] without data,
    [copy_texts] and [cut_texts] raise ([min] of no rows), while
    [insert_subtitles] with data, [remove_subtitles], [replace_texts] and
    [clear_texts] complete, change no array and still register an
    action. *)
Theorem edits_of_no_rows reg (p : Project) :
  insert_subtitles calc [] None None None None reg p = None /\
  (forall document, copy_texts [] document p = None) /\
  (forall document, cut_texts [] document reg p = None) /\
  (forall t f m tr,
     exists a,
       insert_subtitles calc [] (Some t) (Some f) (Some m) (Some tr) reg p
       = Some (register_action a p) /\ inserted_rows a = []) /\
  (exists a,
     remove_subtitles [] reg p = Some (register_action a p) /\
     removed_rows a = [] /\
     revert a = Call_insert_subtitles [] (Some []) (Some []) (Some [])
                  (Some [])) /\
  (forall document new_texts,
     exists a,
       replace_texts [] document new_texts reg p = Some (register_action a p) /\
       revert a = Call_replace_texts [] document []) /\
  (forall document,
     exists p',
       clear_texts [] document reg p = Some p' /\ arrays p' = arrays p /\
       length (destination_stack reg p')
       = S (length (destination_stack reg p))).
Proof.
  split; [done|]. split; [done|]. split; [done|].
  split; [intros t f m tr; eexists; split; [reflexivity | done]|].
  split; [eexists; split; [reflexivity | done]|].
  assert (forall document new_texts,
            replace_texts [] document new_texts reg p
            = Some (register_action
                      (replacing_action reg [] document []) p)) as Hrep.
  { intros [] new_texts; unfold replace_texts; simpl; by destruct p. }
  split.
  { intros document new_texts. eexists. split; [apply Hrep | done]. }
  intros document. unfold clear_texts. simpl. rewrite Hrep.
  cbn [mbind option_bind].
  destruct (set_action_description_after_register
              (replacing_action reg [] document []) "Clearing texts" p)
    as (q' & Hq & Q1 & Q2 & Q3 & Q4 & _ & _ & Q7).
  change (register (replacing_action reg [] document [])) with reg in Hq, Q7.
  exists q'. split; [exact Hq|]. split.
  - unfold arrays. by rewrite Q1, Q2, Q3, Q4.
  - by rewrite Q7.
Qed.

(** X4. With a row listed twice the registered revert does not restore:
    after [replace_texts([row, row], document, [x, y])] the original texts
    recorded are the original text and [x], in this order, so the revert
    writes the original text and then [x], and the row ends with [x]. *)
Theorem replace_texts_of_a_repeated_row_is_not_restored row document x y orig
    reg reg1 (p : Project) :
  texts_of document p !! row = Some orig ->
  exists p1 a p2,
    replace_texts [row; row] document [x; y] reg p = Some p1 /\
    texts_of document p1 !! row = Some y /\
    destination_stack reg p1 = Single a :: destination_stack reg p /\
    revert a = Call_replace_texts [row; row] document [orig; x] /\
    run_command calc (revert a) reg1 p1 = Some p2 /\
    texts_of document p2 !! row = Some x.
Proof.
  intros Ho. pose proof (lookup_lt_Some _ _ _ Ho) as Hlt.
  set (l := texts_of document p) in *.
  assert (H1 : replace_loop 0 [row; row] [x; y] l
               = Some ([orig; x], <[row:=y]> (<[row:=x]> l))).
  { simpl. rewrite Ho. simpl.
    rewrite list_lookup_insert_eq by done. done. }
  assert (H2 : replace_loop 0 [row; row] [orig; x] (<[row:=y]> (<[row:=x]> l))
               = Some ([y; orig],
                       <[row:=x]> (<[row:=orig]> (<[row:=y]> (<[row:=x]> l))))).
  { simpl. rewrite !list_lookup_insert_eq by (by rewrite !length_insert).
    done. }
  rewrite (replace_texts_Some _ _ _ reg p _ _ H1).
  set (a := replacing_action reg [row; row] document [orig; x]).
  destruct (replaced_texts_frame a document (<[row:=y]> (<[row:=x]> l)) p)
    as (_ & _ & T3 & _).
  eexists. exists a. eexists. split; [reflexivity|].
  split. { rewrite T3. apply list_lookup_insert_eq. by rewrite length_insert. }
  split; [apply (replaced_texts_stack a)|]. split; [done|].
  simpl. rewrite (replace_texts_Some _ _ _ reg1 _ [y; orig]
                    (<[row:=x]> (<[row:=orig]> (<[row:=y]> (<[row:=x]> l)))))
    by (by rewrite T3).
  split; [reflexivity|].
  match goal with |- context [register_action ?b (set_texts _ ?v ?q)] =>
    destruct (replaced_texts_frame b document v q) as (_ & _ & -> & _) end.
  apply list_lookup_insert_eq. by rewrite !length_insert.
Qed.
End Edges.

(* ------------------------------------------------------------------- *)
(** ** Rules that are never applied *)
(* ------------------------------------------------------------------- *)

Section IdleRules.
Import Tags.
Context {pattern flags regex : Type}.
Context (re_compile : pattern -> flags -> regex).
Context (re_sub : regex -> string -> string -> string).


Lemma regexs_loop_active (tags : list TagEntry) : forall text,
  regexs_loop re_sub (compile_entries re_compile (List.filter is_active tags)) text
  = regexs_loop re_sub (compile_entries re_compile tags) text.
Proof.
  induction tags as [|entry tags IH]; intros text; [done|].
  simpl. unfold is_active at 1.
  destruct (entry_count entry) as [c|] eqn:Hc; simpl.
  - destruct (0 <? c)%Z eqn:Hpos; simpl; rewrite ?Hc, IH; [done|].
    apply Z.ltb_ge in Hpos.
    replace (Z.to_nat c) with 0 by lia. done.
  - by rewrite Hc, IH.
Qed.

(** X26. A rule whose count is zero or negative is never applied
    ([range] of such a count is empty): the converter built from two tag
    libraries converts every text as the converter built from the
    libraries without these rules. *)
Theorem rules_with_a_count_below_one_are_skipped
    (from_format to_format : TagLibrary (pattern := pattern) (flags := flags))
    text :
  convert_tags re_sub (__init__ re_compile from_format to_format) text
  = convert_tags re_sub
      (__init__ re_compile (without_idle_rules from_format)
         (without_idle_rules to_format)) text.
Proof.
  unfold convert_tags, __init__. simpl.
  destruct text as [[|c s]|]; [done| |done].
  by rewrite !regexs_loop_active.
Qed.
End IdleRules.

(* ------------------------------------------------------------------- *)
(** ** The pattern manager *)
(* ------------------------------------------------------------------- *)

Section PatternManagerFacts.
Context {Pattern : Type}.
Context (get_name : Pattern -> bool -> string).
Context (get_field : Pattern -> string -> option string).


Lemma replacement_loop_existsb name later : forall found,
  replacement_loop get_name get_field name later found = found || existsb (replaces get_name get_field name) later.
Proof.
  induction later as [|pj later IH]; intros found; simpl.
  - by rewrite orb_false_r.
  - rewrite IH. unfold replaces at 2.
    destruct (String.eqb (get_name pj false) name
              && bool_decide (get_field pj "Policy" = Some "Replace"%string));
      simpl; [by rewrite orb_true_r | done].
Qed.

Lemma _filter_patterns_cons pattern later :
  _filter_patterns get_name get_field (pattern :: later)
  = if existsb (replaces get_name get_field (get_name pattern false)) later
    then _filter_patterns get_name get_field later
    else pattern :: _filter_patterns get_name get_field later.
Proof. simpl. by rewrite replacement_loop_existsb. Qed.

Lemma _filter_patterns_sublist patterns :
  sublist (_filter_patterns get_name get_field patterns) patterns.
Proof.
  induction patterns as [|p later IH]; [constructor|].
  rewrite _filter_patterns_cons.
  destruct (existsb _ later); by constructor.
Qed.

Lemma replaces_name name pj : replaces get_name get_field name pj = true -> get_name pj false = name.
Proof. unfold replaces. intros [H _]%andb_true_iff. by apply String.eqb_eq. Qed.

(** A pattern that replaces a name is never dropped in favour of a pattern
    that does not: as long as some pattern of [l] replaces [name], some
    pattern of the filtered list does. *)
Lemma existsb_replaces_filtered name (l : list Pattern) :
  existsb (replaces get_name get_field name) (_filter_patterns get_name get_field l) = existsb (replaces get_name get_field name) l.
Proof.
  induction l as [|p later IH]; [done|].
  rewrite _filter_patterns_cons. simpl.
  destruct (existsb (replaces get_name get_field (get_name p false)) later) eqn:Hex.
  - rewrite IH. destruct (replaces get_name get_field name p) eqn:Hp; [|done]. simpl.
    apply replaces_name in Hp. subst name. done.
  - simpl. by rewrite IH.
Qed.

(** X27. [_filter_patterns] returns the patterns in their order without
    some of them; every name among the patterns is still the name of a
    pattern kept; a pattern that no later pattern of its name replaces is
    kept; filtering what has been filtered changes nothing. *)
Theorem filtered_patterns_keep_order_and_names (patterns : list Pattern) :
  sublist (_filter_patterns get_name get_field patterns) patterns /\
  (forall pattern, pattern ∈ patterns ->
     exists kept, kept ∈ _filter_patterns get_name get_field patterns /\
                  get_name kept false = get_name pattern false) /\
  (forall i pattern, patterns !! i = Some pattern ->
     (forall j pattern_j, i < j -> patterns !! j = Some pattern_j ->
        replaces get_name get_field (get_name pattern false) pattern_j = false) ->
     pattern ∈ _filter_patterns get_name get_field patterns) /\
  _filter_patterns get_name get_field (_filter_patterns get_name get_field patterns) = _filter_patterns get_name get_field patterns.
Proof.
  split; [apply _filter_patterns_sublist|]. split; [|split].
  - induction patterns as [|p later IH]; intros q Hq;
      [by apply elem_of_nil in Hq|].
    rewrite _filter_patterns_cons.
    destruct (existsb (replaces get_name get_field (get_name p false)) later) eqn:Hex.
    + apply elem_of_cons in Hq as [->|Hq]; [|by apply IH].
      apply existsb_exists in Hex as (x & Hin & Hx).
      apply list_elem_of_In in Hin.
      destruct (IH x Hin) as (kept & Hk & Hname).
      exists kept. split; [done|]. rewrite Hname. by apply replaces_name.
    + apply elem_of_cons in Hq as [->|Hq].
      * exists p. split; [apply list_elem_of_here | done].
      * destruct (IH q Hq) as (kept & Hk & Hname).
        exists kept. split; [by apply list_elem_of_further | done].
  - induction patterns as [|p later IH]; intros i q Hi Hlater; [done|].
    rewrite _filter_patterns_cons. destruct i as [|i]; simpl in Hi.
    + injection Hi as ->.
      destruct (existsb (replaces get_name get_field (get_name q false)) later) eqn:Hex;
        [|apply list_elem_of_here].
      apply existsb_exists in Hex as (x & Hin & Hx).
      apply list_elem_of_In, list_elem_of_lookup in Hin as (j & Hj).
      by rewrite (Hlater (S j) x ltac:(lia) Hj) in Hx.
    + assert (q ∈ _filter_patterns get_name get_field later) as Hq.
      { apply (IH i q Hi). intros j pj Hij Hj. apply (Hlater (S j)); [lia | done]. }
      destruct (existsb _ later); [done | by apply list_elem_of_further].
  - induction patterns as [|p later IH]; [done|].
    rewrite _filter_patterns_cons.
    destruct (existsb (replaces get_name get_field (get_name p false)) later) eqn:Hex; [done|].
    rewrite _filter_patterns_cons, existsb_replaces_filtered, Hex.
    by rewrite IH.
Qed.

Lemma _filter_patterns_app (l1 l2 : list Pattern) :
  _filter_patterns get_name get_field (l1 ++ l2)
  = List.filter
      (fun pattern => negb (existsb (replaces get_name get_field (get_name pattern false)) l2))
      (_filter_patterns get_name get_field l1)
    ++ _filter_patterns get_name get_field l2.
Proof.
  induction l1 as [|p later IH]; [done|].
  rewrite <- app_comm_cons, !_filter_patterns_cons, existsb_app.
  destruct (existsb (replaces get_name get_field (get_name p false)) later); simpl; [done|].
  destruct (existsb (replaces get_name get_field (get_name p false)) l2); simpl; by rewrite IH.
Qed.

Lemma patterns_loop_app (_patterns : gmap string (list Pattern)) codes1 codes2 :
  patterns_loop _patterns (codes1 ++ codes2)
  = patterns_loop _patterns codes1 ++ patterns_loop _patterns codes2.
Proof.
  induction codes1 as [|c codes1 IH]; [done|].
  simpl. by rewrite IH, app_assoc.
Qed.

(** X28. [get_patterns] for a script and a language returns the
    patterns for the script alone that no pattern of the language replaces,
    followed by the filtered patterns of the language; when there are no
    patterns under the code of the language it returns the patterns for
    the script alone. *)
Theorem language_patterns_extend_script_patterns
    (_patterns : gmap string (list Pattern)) (script language : string) :
  let general := _filter_patterns get_name get_field (patterns_loop _patterns ["Zyyy"%string; script]) in
  let specific :=
    default [] (_patterns !! (script ++ "-" ++ language)%string) in
  get_patterns get_name get_field _patterns (Some script) None None = Some general /\
  get_patterns get_name get_field _patterns (Some script) (Some language) None
  = Some (List.filter
            (fun pattern =>
               negb (existsb (replaces get_name get_field (get_name pattern false)) specific))
            general
          ++ _filter_patterns get_name get_field specific) /\
  (_patterns !! (script ++ "-" ++ language)%string = None ->
   get_patterns get_name get_field _patterns (Some script) (Some language) None
   = get_patterns get_name get_field _patterns (Some script) None None).
Proof.
  intros general specific.
  assert (get_patterns get_name get_field _patterns (Some script) (Some language) None
          = Some (_filter_patterns get_name get_field
                    (patterns_loop _patterns ["Zyyy"%string; script]
                     ++ specific))) as Hg.
  { unfold get_patterns.
    change (_get_codes (Some script) (Some language) None)
      with (Some (["Zyyy"%string; script]
                  ++ [(script ++ "-" ++ language)%string])).
    cbn [mbind option_bind]. rewrite patterns_loop_app.
    cbn [patterns_loop]. by rewrite !app_nil_r. }
  split; [done|]. split.
  - by rewrite Hg, _filter_patterns_app.
  - intros Hnone. rewrite Hg. unfold specific. rewrite Hnone. simpl.
    by rewrite app_nil_r.
Qed.

End PatternManagerFacts.

(** X29. [_get_codes] raises exactly for a country given without a
    language (the code to extend is unbound); otherwise the first code is
    ["Zyyy"] and there is one more code for each argument given, each
    extending the one before; a language given without a script is
    prefixed with ["None"]. *)
Theorem codes_run_from_general_to_specific (script language country : option string) :
  (is_Some (_get_codes script language country) <->
   (is_Some country -> is_Some language)) /\
  (forall codes,
     _get_codes script language country = Some codes ->
     codes !! 0 = Some "Zyyy"%string /\
     length codes
     = 1 + length (omap id [script; language; country])) /\
  (forall s l c,
     _get_codes (Some s) (Some l) (Some c)
     = Some ["Zyyy"; s; s ++ "-" ++ l; (s ++ "-" ++ l) ++ "-" ++ c]%string) /\
  (forall l, _get_codes None (Some l) None = Some ["Zyyy"; "None-" ++ l]%string).
Proof.
  split; [|split; [|split]].
  - split.
    + intros [codes H] [c ->]. destruct language; [by eexists|].
      destruct script; simpl in H; discriminate.
    + intros H. destruct country as [c|].
      * destruct (H ltac:(by eexists)) as [l ->].
        destruct script; simpl; by eexists.
      * destruct script, language; simpl; by eexists.
  - intros codes H.
    destruct script, language, country; simpl in H; try done;
      injection H as <-; done.
  - done.
  - done.
Qed.

(* ===================================================================== *)
(** * The properties on the example documents *)
(* ===================================================================== *)

Section OnExamples.
Import Examples.

(** C1. On a document whose first two rows have the same positions,
    moving the show time of row 0 from 1 s to 1.5 s puts the row behind
    its twin, at index 1, and registers [set_time(1, SHOW, "00:00:01,000")]
    as the revert. [undo] runs this revert, which resorts with
    [bisect_right] and so leaves the row behind its twin: the times and
    frames are those of the original document, but the texts of the two
    rows have changed places, and the four arrays are not the ones the
    operation started from. *)
Theorem undo_of_show_edit_swaps_twin_rows :
  exists p1 p2,
    set_time Clock25.calc 0 SHOW "00:00:01,500" DO twins = Some (1, p1) /\
    undo Clock25.calc p1 = Some p2 /\
    times p2 = times twins /\ frames p2 = frames twins /\
    main_texts twins = ["A"; "B"; "C"] /\
    main_texts p2 = ["B"; "A"; "C"] /\
    tran_texts p2 = ["b"; "a"; "c"] /\
    arrays p2 <> arrays twins.
Proof.
  eexists _, _. split; [vm_compute; reflexivity|].
  split; [vm_compute; reflexivity|].
  repeat (split; [vm_compute; reflexivity|]).
  vm_compute. discriminate.
Qed.

(** The revert of a change of a duration goes through the calculator
    again. With the reference calculator, which rounds to the nearest
    frame: after the hide time of the subtitle has been set to 30 ms its
    frames are 0, 1 and 1; setting its duration to 1 s and undoing this
    restores the times, but the frames come back as 0, 0 and 0, since
    15 ms is 0 frames. *)
Lemma undo_of_duration_edit_rounds_the_frames :
  exists p1 p2 p3,
    set_time Clock25.calc 0 HIDE "00:00:00,030" DO short = Some (0, p1) /\
    frames p1 = [mkPos 0 1 1]%Z /\
    set_time Clock25.calc 0 DURN "00:00:01,000" DO p1 = Some (0, p2) /\
    undo Clock25.calc p2 = Some p3 /\
    times p3 = times p1 /\
    frames p3 = [mkPos 0 0 0]%Z.
Proof.
  eexists _, _, _. split; [vm_compute; reflexivity|].
  split; [vm_compute; reflexivity|].
  split; [vm_compute; reflexivity|].
  split; [vm_compute; reflexivity|].
  split; vm_compute; reflexivity.
Qed.

(** C2. In frame mode, with the first subtitle shown from frame 0 to
    frame 100 and the second from frame 50 to frame 150, the show values
    are in order; [insert_subtitles([1])] completes and puts a blank
    subtitle with show frame 100 at row 1, before the row with show
    frame 50: the show values 0, 100, 50 are no longer in non-decreasing
    order. *)
Theorem blank_row_between_overlapping_rows_breaks_the_order :
  shows_ordered overlapping = true /\
  exists p',
    insert_subtitles Clock25.calc [1] None None None None DO overlapping
    = Some p' /\
    show <$> frames p' = [0; 100; 50]%Z /\
    shows_ordered p' = false.
Proof.
  split; [vm_compute; reflexivity|].
  eexists. split; [vm_compute; reflexivity|].
  split; vm_compute; reflexivity.
Qed.


Lemma twins_parallel : parallel twins.
Proof. repeat split. Qed.


Lemma show_edit_moves_row_to_upper_bound_witness :
  exists r p' a t f,
    set_time Clock25.calc 0 SHOW "00:00:07,000" DO twins = Some (r, p') /\
    show t = "00:00:07,000" /\ resorted twins 0 DO r a t f p'.
Proof.
  destruct (show_edit_moves_row_to_upper_bound Clock25.calc 0 DO twins
              (position_at 1000 2000).1 (position_at 1000 2000).2
              twins_parallel eq_refl eq_refl) as [H _].
  apply H. vm_compute. discriminate.
Defined.

Lemma revert_is_in_the_mode_of_the_document_witness :
  exists r p' a f,
    set_frame Clock25.calc 2 HIDE 200 DO twins = Some (r, p') /\
    destination_stack DO p' = Single a :: destination_stack DO twins /\
    revert a = Call_set_time r HIDE "00:00:06,000" /\
    frames p' !! r = Some f /\ getcol f HIDE = 200%Z.
Proof.
  destruct (revert_is_in_the_mode_of_the_document Clock25.calc 2 HIDE DO twins
              (position_at 5000 6000).1 (position_at 5000 6000).2
              twins_parallel eq_refl eq_refl) as [H _].
  apply (H eq_refl). vm_compute. discriminate.
Defined.

Lemma unchanged_value_is_noop_witness :
  set_time Clock25.calc 1 HIDE "00:00:02,000" DO twins = Some (1, twins).
Proof.
  exact (proj1 (unchanged_value_is_noop Clock25.calc 1 HIDE DO twins)
           (position_at 1000 2000).1 eq_refl).
Defined.



Lemma paste_texts_is_one_undoable_unit_witness :
  exists p' p'',
    paste_texts Clock25.calc 2 MAIN DO twins = Some ([2; 4], p') /\
    length (times p') = 5 /\
    undo Clock25.calc p' = Some p'' /\ arrays p'' = arrays twins.
Proof.
  destruct (paste_texts_is_one_undoable_unit Clock25.calc 2 MAIN twins
              twins_parallel) as [H _].
  destruct H as (ts & fs & origs & p' & p'' & H1 & H2 & _ & H4 & _ & _ & _ & _
                 & H9 & H10 & _).
  { simpl. lia. }
  exists p', p''. split; [exact H1|]. split; [|auto].
  rewrite H4, length_app, H2. reflexivity.
Defined.

Lemma convert_tags_is_the_pipeline_witness :
  Tags.convert_tags ToyRe.re_sub
    (Tags.__init__ ToyRe.re_compile ToyRe.bold_only ToyRe.bold_only)
    (Some "{y:b}")
  = Some (Tags.spec_convert ToyRe.re_compile ToyRe.re_sub ToyRe.bold_only
            ToyRe.bold_only "{y:b}").
Proof.
  apply (convert_tags_is_the_pipeline ToyRe.re_compile ToyRe.re_sub
           ToyRe.bold_only ToyRe.bold_only).
  discriminate.
Defined.
End OnExamples.

Section FurtherWitnesses.
Import Examples MoreExamples.

Lemma twins_in_order : shows_in_order twins.
Proof.
  apply StronglySorted_ascending. vm_compute.
  repeat (constructor; [|repeat constructor]). constructor.
Qed.

Lemma spaced_parallel : parallel spaced.
Proof. repeat split. Qed.

Lemma spaced_in_order : shows_in_order spaced.
Proof.
  apply StronglySorted_ascending. vm_compute.
  repeat (constructor; [|repeat constructor]). constructor.
Qed.

Lemma replace_texts_revert_restores_witness :
  exists p1 p2,
    replace_texts [2; 0] MAIN ["x"; "y"] DO twins = Some p1 /\
    main_texts p1 = ["y"; "B"; "x"] /\
    run_command Clock25.calc (Call_replace_texts [2; 0] MAIN ["C"; "A"]) UNDO p1
    = Some p2 /\
    arrays p2 = arrays twins.
Proof.
  destruct (replace_texts_revert_restores Clock25.calc [2; 0] MAIN ["x"; "y"]
              DO UNDO REDO twins _ ltac:(compute_done) eq_refl)
    as (a & p2 & a' & p3 & _ & Hrev & Hrun & Harr & _).
  eexists. exists p2. split; [reflexivity|]. split; [reflexivity|].
  split; [|exact Harr]. rewrite <- Hrun, Hrev. reflexivity.
Defined.

Lemma replace_texts_writes_the_rows_witness :
  exists p1,
    replace_texts [0; 0] TRAN ["x"; "y"] DO twins = Some p1 /\
    tran_texts p1 !! 0 = Some "y"%string /\
    tran_texts p1 !! 1 = Some "b"%string /\
    main_texts p1 = main_texts twins.
Proof.
  destruct (replace_texts_writes_the_rows [0; 0] TRAN ["x"; "y"] DO twins _
              eq_refl) as (_ & Hw & Hk & Ho & _).
  eexists. split; [reflexivity|]. split; [|split; [|exact Ho]].
  - apply (Hw 1 0 eq_refl). intros [|[|m']] Hm; (lia || done).
  - apply (Hk 1). intros Hin.
    repeat (apply elem_of_cons in Hin as [Hin|Hin]; [discriminate|]).
    inversion Hin.
Defined.

Lemma set_text_revert_restores_witness :
  exists p1 p2,
    set_text 0 MAIN "z" DO twins = Some p1 /\
    main_texts p1 = ["z"; "B"; "C"] /\
    run_command Clock25.calc (Call_set_text 0 MAIN "A") UNDO p1 = Some p2 /\
    arrays p2 = arrays twins.
Proof.
  destruct (set_text_revert_restores Clock25.calc 0 MAIN "z" "A" DO UNDO twins
              eq_refl ltac:(discriminate))
    as (p1 & a & p2 & H1 & H2 & _ & Hrev & Hrun & Harr).
  exists p1, p2. split; [exact H1|]. split; [exact H2|].
  split; [|exact Harr]. by rewrite <- Hrev.
Defined.

Lemma replace_both_texts_revert_restores_witness :
  exists p1 p2,
    replace_both_texts ([0], [1; 2]) (["x"], ["y"; "z"]) DO twins = Some p1 /\
    run_command Clock25.calc
      (Call_replace_both_texts ([0], [1; 2]) (["A"], ["b"; "c"])) UNDO p1
    = Some p2 /\
    arrays p2 = arrays twins.
Proof.
  destruct (replace_both_texts_revert_restores Clock25.calc ([0], [1; 2])
              (["x"], ["y"; "z"]) DO UNDO twins _ ltac:(compute_done)
              ltac:(compute_done) eq_refl)
    as (a & p2 & _ & Hrev & Hrun & Harr).
  eexists. exists p2. split; [reflexivity|]. split; [|exact Harr].
  rewrite <- Hrun, Hrev. reflexivity.
Defined.

Lemma clear_texts_blanks_the_rows_witness :
  exists p1,
    clear_texts [2; 0] MAIN DO twins = Some p1 /\
    main_texts p1 !! 0 = Some EmptyString /\
    main_texts p1 !! 2 = Some EmptyString /\
    tran_texts p1 = tran_texts twins.
Proof.
  destruct (clear_texts_blanks_the_rows Clock25.calc [2; 0] MAIN DO UNDO twins _
              eq_refl) as (Hb & _ & _ & Ho & _).
  eexists. split; [reflexivity|].
  split; [apply (Hb 0); compute_done|].
  split; [apply (Hb 2); compute_done | exact Ho].
Defined.

Lemma copy_texts_fills_the_clipboard_witness :
  exists p1,
    copy_texts [2; 0] TRAN twins = Some p1 /\
    length (clipboard p1) = 3 /\
    clipboard p1 !! 0 = Some (Some "a"%string) /\
    clipboard p1 !! 1 = Some None /\
    arrays p1 = arrays twins.
Proof.
  destruct (copy_texts_fills_the_clipboard [2; 0] TRAN twins _ eq_refl)
    as (lo & hi & Hlo & Hhi & Hlen & Hsel & Hnone & _ & _ & Ha & _).
  injection Hlo as <-. injection Hhi as <-.
  eexists. split; [reflexivity|]. split; [exact Hlen|].
  split; [apply (Hsel 0 "a"%string); [compute_done | reflexivity]|].
  split; [|exact Ha].
  apply (Hnone 1); [simpl; lia|]. intros Hin.
  repeat (apply elem_of_cons in Hin as [Hin|Hin]; [discriminate|]).
  inversion Hin.
Defined.

Lemma copy_then_paste_moves_the_texts_witness :
  exists p1 pasted_rows p2,
    copy_texts [1; 0] MAIN twins = Some p1 /\
    paste_texts Clock25.calc 1 TRAN DO p1 = Some (pasted_rows, p2) /\
    tran_texts p2 !! 1 = Some "A"%string /\
    tran_texts p2 !! 2 = Some "B"%string /\
    tran_texts p2 !! 0 = Some "a"%string /\
    main_texts p2 = main_texts twins.
Proof.
  destruct (copy_then_paste_moves_the_texts Clock25.calc [1; 0] MAIN TRAN 1
              twins _ twins_parallel eq_refl ltac:(simpl; lia))
    as (lo & rs & p2 & Hlo & Hp & Hset & Hkeep & Ho & _).
  injection Hlo as <-.
  eexists. exists rs, p2. split; [reflexivity|]. split; [exact Hp|].
  split; [apply (Hset 0); compute_done|].
  split; [apply (Hset 1); compute_done|].
  split; [|exact Ho].
  apply (Hkeep 0). intros r Hr. lia.
Defined.

Lemma copy_then_paste_in_place_changes_nothing_witness :
  exists p1 pasted_rows p2,
    copy_texts [2; 0] MAIN twins = Some p1 /\
    paste_texts Clock25.calc 0 MAIN DO p1 = Some (pasted_rows, p2) /\
    arrays p2 = arrays twins.
Proof.
  destruct (copy_then_paste_in_place_changes_nothing Clock25.calc [2; 0] MAIN
              twins _ twins_parallel eq_refl)
    as (lo & rs & p2 & Hlo & Hp & _ & Ha).
  injection Hlo as <-.
  eexists. exists rs, p2. split; [reflexivity|]. split; [exact Hp | exact Ha].
Defined.

Lemma cut_then_paste_restores_the_texts_witness :
  exists p1 pasted_rows p2,
    cut_texts [2; 0] MAIN DO twins = Some p1 /\
    main_texts p1 !! 2 = Some EmptyString /\
    paste_texts Clock25.calc 0 MAIN DO p1 = Some (pasted_rows, p2) /\
    arrays p2 = arrays twins.
Proof.
  destruct (cut_then_paste_restores_the_texts Clock25.calc [2; 0] MAIN DO
              twins _ twins_parallel eq_refl)
    as (Hb & _ & lo & rs & p2 & Hlo & Hp & Ha).
  injection Hlo as <-.
  eexists. exists rs, p2. split; [reflexivity|].
  split; [apply (Hb 2); compute_done|]. split; [exact Hp | exact Ha].
Defined.

Lemma remove_subtitles_revert_restores_witness :
  exists p1 ts fs ms trs p2,
    remove_subtitles [1; 1] DO twins = Some p1 /\
    length (times p1) = 1 /\
    run_command Clock25.calc
      (Call_insert_subtitles [1; 1] (Some ts) (Some fs) (Some ms) (Some trs))
      UNDO p1 = Some p2 /\
    arrays p2 = arrays twins.
Proof.
  destruct (remove_subtitles_revert_restores Clock25.calc [1; 1] DO UNDO twins
              _ eq_refl)
    as (a & ts & fs & ms & trs & p2 & a' & _ & _ & Hrev & _ & _ & _ & _ & Hlen
        & Hrun & Ha & _).
  eexists. exists ts, fs, ms, trs, p2. split; [reflexivity|].
  split; [simpl in Hlen |- *; lia|]. split; [|exact Ha].
  rewrite <- Hrun, Hrev. reflexivity.
Defined.

Lemma insert_subtitles_revert_restores_witness :
  exists p1 p2,
    insert_subtitles Clock25.calc [4; 1]
      (Some [(position_at 1500 1800).1; (position_at 7000 8000).1])
      (Some [(position_at 1500 1800).2; (position_at 7000 8000).2])
      (Some ["M"; "N"]) (Some ["m"; "n"]) DO twins = Some p1 /\
    main_texts p1 !! 1 = Some "M"%string /\
    main_texts p1 !! 4 = Some "N"%string /\
    run_command Clock25.calc (Call_remove_subtitles [1; 4]) UNDO p1 = Some p2 /\
    arrays p2 = arrays twins.
Proof.
  destruct (insert_subtitles_revert_restores Clock25.calc [4; 1]
              [(position_at 1500 1800).1; (position_at 7000 8000).1]
              [(position_at 1500 1800).2; (position_at 7000 8000).2]
              ["M"; "N"] ["m"; "n"] DO UNDO twins twins_parallel)
    as (p1 & a & p2 & a' & H1 & _ & _ & _ & _ & Hrev & _ & Hrun & Ha & _).
  { simpl. lia. }
  { simpl. lia. }
  { simpl. lia. }
  { simpl. lia. }
  { simpl. lia. }
  rewrite Hrev in Hrun.
  exists p1, p2. split; [exact H1|].
  split; [|split; [|split; [exact Hrun | exact Ha]]].
  - vm_compute in H1. injection H1 as <-. reflexivity.
  - vm_compute in H1. injection H1 as <-. reflexivity.
Defined.

Lemma insert_blank_subtitles_revert_restores_witness :
  exists p1 p2,
    insert_subtitles Clock25.calc [2; 1] None None None None DO twins
    = Some p1 /\
    main_texts p1 = ["A"; ""; ""; "B"; "C"] /\
    run_command Clock25.calc (Call_remove_subtitles [1; 2]) UNDO p1 = Some p2 /\
    arrays p2 = arrays twins.
Proof.
  destruct (insert_blank_subtitles_revert_restores Clock25.calc [2; 1] 1 1 DO
              UNDO twins twins_parallel ltac:(apply Permutation_swap)
              ltac:(simpl; lia))
    as (ts & fs & p1 & a & p2 & H1 & _ & _ & _ & _ & Hm & _ & _ & _ & Hrev
        & Hrun & Ha).
  rewrite Hrev in Hrun.
  exists p1, p2. split; [exact H1|]. split; [exact Hm|].
  split; [exact Hrun | exact Ha].
Defined.

Lemma blank_frames_fill_the_gap_witness :
  exists p1,
    insert_subtitles Clock25.calc [1; 2] None None None None DO spaced
    = Some p1 /\
    (exists f, frames p1 !! 1 = Some f /\ show f = 100%Z /\ hide f = 150%Z) /\
    (exists f, frames p1 !! 2 = Some f /\ show f = 150%Z /\ hide f = 200%Z) /\
    shows_in_order p1.
Proof.
  destruct (blank_frames_fill_the_gap Clock25.calc [1; 2] 1 1 DO spaced eq_refl
              spaced_parallel spaced_in_order ltac:(reflexivity)
              ltac:(simpl; lia))
    as (p1 & H1 & Hrows & _ & _ & Hord).
  - intros f _ [= <-]. vm_compute. discriminate.
  - intros g [= <-]. vm_compute. discriminate.
  - simpl. lia.
  - exists p1. split; [exact H1|].
    split; [exact (Hrows 0 ltac:(lia))|].
    split; [exact (Hrows 1 ltac:(lia)) | exact Hord].
Defined.

Lemma remove_subtitles_keeps_shows_in_order_witness :
  exists p1, remove_subtitles [1] DO twins = Some p1 /\ shows_in_order p1.
Proof.
  eexists. split; [reflexivity|].
  apply (remove_subtitles_keeps_shows_in_order [1] DO twins _ twins_in_order
           eq_refl).
Defined.

Lemma operations_keep_the_arrays_parallel_witness :
  exists p1, remove_subtitles [1] DO twins = Some p1 /\ parallel p1.
Proof.
  destruct (operations_keep_the_arrays_parallel Clock25.calc twins
              twins_parallel) as (_ & H & _).
  eexists. split; [reflexivity|].
  apply (H [1] DO _ eq_refl).
Defined.

Lemma position_edits_keep_shows_in_order_witness :
  exists r p1,
    set_time Clock25.calc 0 SHOW "00:00:07,000" DO twins = Some (r, p1) /\
    shows_in_order p1.
Proof.
  destruct (position_edits_keep_shows_in_order Clock25.calc 0 SHOW DO twins
              twins_parallel twins_in_order) as [H _].
  destruct (set_time Clock25.calc 0 SHOW "00:00:07,000" DO twins)
    as [[r p1]|] eqn:H1.
  - exists r, p1. split; [reflexivity|]. exact (H _ _ _ H1).
  - vm_compute in H1. discriminate.
Defined.

Lemma get_needs_resort_predicts_the_move_witness :
  exists r p1,
    set_time Clock25.calc 2 SHOW "00:00:00,500" DO twins = Some (r, p1) /\
    get_needs_resort Clock25.calc py_int 2 (inr "00:00:00,500"%string) twins
    = Some (negb (r =? 2)).
Proof.
  destruct (get_needs_resort_predicts_the_move Clock25.calc py_int 2 DO twins
              (position_at 5000 6000).1 (position_at 5000 6000).2
              twins_parallel eq_refl eq_refl) as [H _].
  apply (H "00:00:00,500"%string eq_refl).
  - vm_compute. discriminate.
  - intros j y Hj Hy [Hs _].
    destruct j as [|[|[|j]]]; simpl in Hy; try done;
      injection Hy as <-; vm_compute in Hs; discriminate.
Defined.

Lemma remove_subtitles_completes_iff_witness :
  is_Some (remove_subtitles [2; 0] DO twins) /\
  remove_subtitles [3] DO twins = None.
Proof.
  split.
  - apply (remove_subtitles_completes_iff [2; 0] DO twins twins_parallel
             ltac:(compute_done)).
    intros r Hr. simpl.
    repeat (apply elem_of_cons in Hr as [->|Hr]; [lia|]). inversion Hr.
  - reflexivity.
Defined.

Lemma insert_beyond_the_end_cannot_be_reverted_witness :
  exists p1,
    insert_subtitles Clock25.calc [9] (Some [(position_at 7000 8000).1])
      (Some [(position_at 7000 8000).2]) (Some ["N"]) (Some ["n"]) DO twins
    = Some p1 /\
    main_texts p1 = ["A"; "B"; "C"; "N"] /\
    run_command Clock25.calc (Call_remove_subtitles [9]) UNDO p1 = None.
Proof.
  destruct (insert_beyond_the_end_cannot_be_reverted Clock25.calc 9
              (position_at 7000 8000).1 (position_at 7000 8000).2 "N" "n" DO
              UNDO twins twins_parallel ltac:(simpl; lia))
    as (p1 & a & H1 & Ha & _ & Hrev & Hrun).
  rewrite Hrev in Hrun.
  exists p1. split; [exact H1|].
  split; [by injection Ha as _ _ -> _ | exact Hrun].
Defined.

Lemma replace_texts_of_a_repeated_row_is_not_restored_witness :
  exists p1 p2,
    replace_texts [0; 0] MAIN ["x"; "y"] DO twins = Some p1 /\
    run_command Clock25.calc (Call_replace_texts [0; 0] MAIN ["A"; "x"]) UNDO p1
    = Some p2 /\
    main_texts twins !! 0 = Some "A"%string /\
    main_texts p2 !! 0 = Some "x"%string.
Proof.
  destruct (replace_texts_of_a_repeated_row_is_not_restored Clock25.calc 0 MAIN
              "x" "y" "A" DO UNDO twins eq_refl)
    as (p1 & a & p2 & H1 & _ & _ & Hrev & Hrun & Hx).
  rewrite Hrev in Hrun.
  exists p1, p2. split; [exact H1|].
  split; [exact Hrun|]. split; [reflexivity | exact Hx].
Defined.
End FurtherWitnesses.
